(** * RedactAI: the redaction pipeline, embedded and checked against its specification

    The Python sources embedded here are
      - [src/tools/data_processor.py]  (flattening and masking),
      - [src/tools/ollama_llm.py]      (the sensitive-span detector),
      - [src/tools/pdf_extractor.py]   (text extraction),
      - [src/tools/pdf_redactor.py]    (the redaction engine),
      - [src/server.py]                (the [redact_pdf] and [redact_pdf_custom] tools).

    Python values are an inductive type, a [dict] is an association list in
    insertion order, a [str] is a [string] holding its text in UTF-8, whose
    characters [chars] reads off and [len] counts, an exception is a
    constructor of [exn] carried by the [result] monad, and the calls into
    [requests], [json], [re], [fitz] and [os] are parameters of the
    functions that make them. *)

From Stdlib Require Import String Ascii List ZArith Lia Bool Arith PeanoNat.
From Stdlib Require Import Floats.PrimFloat Floats.FloatOps Floats.SpecFloat.
From Stdlib Require Import Numbers.DecimalString.
From Stdlib Require Import Sorting.Permutation.
Import ListNotations.

Local Open Scope string_scope.
Local Open Scope list_scope.
Set Warnings "-register-all".

(** [s + t] on strings; [++] is kept for lists. *)
Notation "s +++ t" := (String.append s t) (at level 60, right associativity).

(* ================================================================== *)
(** * Part I: definitions *)
(* ================================================================== *)

(** ** Python values, exceptions *)

Module Py.

(** The exception classes the embedded code raises, catches or can be handed
    by the interpreter.  [KeyboardInterrupt] derives from [BaseException]
    only; all the others derive from [Exception]. *)
Inductive exn : Type :=
| FileNotFoundError
| AttributeError
| TypeError
| ValueError
| JSONDecodeError
| Timeout                 (* requests.exceptions.Timeout *)
| ConnectionError         (* requests.exceptions.ConnectionError *)
| FitzError               (* whatever PyMuPDF raises *)
| MemoryError
| KeyboardInterrupt
| PlainException (cause : exn).   (* Exception(f"...: {e}") *)

Definition is_Exception (e : exn) : bool :=
  match e with KeyboardInterrupt => false | _ => true end.

(** requests.exceptions.Timeout and ConnectionError are RequestExceptions. *)
Definition is_RequestException (e : exn) : bool :=
  match e with Timeout | ConnectionError => true | _ => false end.

Inductive result (A : Type) : Type :=
| Ok (a : A)
| Raise (e : exn).
Arguments Ok {A} a.
Arguments Raise {A} e.

Definition bind {A B} (c : result A) (k : A -> result B) : result B :=
  match c with
  | Ok a => k a
  | Raise e => Raise e
  end.

(** [try: body  except: handler] with a bare [except], which catches every
    exception, [KeyboardInterrupt] included. *)
Definition try_except {A} (body : result A) (handler : exn -> A) : A :=
  match body with
  | Ok a => a
  | Raise e => handler e
  end.

Inductive pyval : Type :=
| PNone
| PBool (b : bool)
| PInt (z : Z)
| PFloat (f : float)
| PStr (s : string)
| PList (l : list pyval)
| PDict (d : list (string * pyval)).

(** A [dict] with [str] keys, in insertion order. *)
Definition pydict : Type := list (string * pyval).

(** [bool(v)]. *)
Definition truthy (v : pyval) : bool :=
  match v with
  | PNone => false
  | PBool b => b
  | PInt z => negb (z =? 0)%Z
  | PFloat f => negb (PrimFloat.eqb f 0%float)
  | PStr s => negb (String.eqb s "")
  | PList l => match l with [] => false | _ => true end
  | PDict d => match d with [] => false | _ => true end
  end.

(** [isinstance(v, str)], [isinstance(v, list)], [isinstance(v, dict)];
    [isinstance(v, int)] also holds of [True] and [False]. *)
Definition is_str (v : pyval) : bool :=
  match v with PStr _ => true | _ => false end.
Definition is_list (v : pyval) : bool :=
  match v with PList _ => true | _ => false end.
Definition is_dict (v : pyval) : bool :=
  match v with PDict _ => true | _ => false end.
Definition is_int (v : pyval) : bool :=
  match v with PInt _ | PBool _ => true | _ => false end.
Definition is_float (v : pyval) : bool :=
  match v with PFloat _ => true | _ => false end.

(** [int == float]: the comparison is exact. *)
Definition int_eq_float (z : Z) (f : float) : bool :=
  match Prim2SF f with
  | S754_zero _ => (z =? 0)%Z
  | S754_infinity _ | S754_nan => false
  | S754_finite s m e =>
      let v := if s then Z.neg m else Z.pos m in
      if (0 <=? e)%Z then (z =? v * 2 ^ e)%Z else (z * 2 ^ (- e) =? v)%Z
  end.

Definition as_int (v : pyval) : option Z :=
  match v with
  | PBool b => Some (if b then 1%Z else 0%Z)
  | PInt z => Some z
  | _ => None
  end.

(** [a == b] on the hashable values (what a [set] compares with). *)
Definition py_eq (a b : pyval) : bool :=
  match a, b with
  | PNone, PNone => true
  | PStr s, PStr t => String.eqb s t
  | PFloat f, PFloat g => PrimFloat.eqb f g
  | PFloat f, _ => match as_int b with Some z => int_eq_float z f | None => false end
  | _, PFloat g => match as_int a with Some z => int_eq_float z g | None => false end
  | _, _ =>
      match as_int a, as_int b with
      | Some x, Some y => (x =? y)%Z
      | _, _ => false
      end
  end.

(** [hash(v)] raises [TypeError] on a list or a dict. *)
Definition hashable (v : pyval) : bool :=
  match v with PList _ | PDict _ => false | _ => true end.

(** [d.get(key)] *)
Fixpoint dict_get (d : pydict) (key : string) : option pyval :=
  match d with
  | [] => None
  | (k, v) :: rest => if String.eqb k key then Some v else dict_get rest key
  end.

(** [d.get(key, default)] *)
Definition dict_get_default (d : pydict) (key : string) (default : pyval) : pyval :=
  match dict_get d key with Some v => v | None => default end.

(** [d[key] = v]: an existing key keeps its place, a new one goes last. *)
Fixpoint dict_set (d : pydict) (key : string) (v : pyval) : pydict :=
  match d with
  | [] => [(key, v)]
  | (k, w) :: rest =>
      if String.eqb k key then (k, v) :: rest else (k, w) :: dict_set rest key v
  end.

(** ** The characters of a [str] *)

(** A [str] is kept as its text in UTF-8, which is how a string literal of
    this file is read: a character of Python is one leading byte and the
    continuation bytes (128 to 191) that follow it.  A lone surrogate, which
    UTF-8 proper leaves out, is kept as the three bytes of its code. *)
Definition is_continuation (c : ascii) : bool :=
  let n := nat_of_ascii c in (128 <=? n)%nat && (n <? 192)%nat.

(** The characters of a text, in order, each as a text of its own. *)
Fixpoint chars (s : string) : list string :=
  match s with
  | EmptyString => []
  | String c s' =>
      match s' with
      | EmptyString => [String c EmptyString]
      | String c' _ =>
          if is_continuation c'
          then match chars s' with
               | following :: rest => String c following :: rest
               | [] => [String c EmptyString]
               end
          else String c EmptyString :: chars s'
      end
  end.

(** [''.join(parts)]. *)
Definition join (parts : list string) : string := fold_right String.append "" parts.

(** [for x in v]: the elements of a list, the characters of a string, the
    keys of a dict; anything else is not iterable. *)
Definition iterate (v : pyval) : result (list pyval) :=
  match v with
  | PList l => Ok l
  | PStr s => Ok (map PStr (chars s))
  | PDict d => Ok (map (fun kv => PStr (fst kv)) d)
  | _ => Raise TypeError
  end.

(** [a, b = parts] *)
Definition unpack2 {A} (parts : list A) : result (A * A) :=
  match parts with
  | [a; b] => Ok (a, b)
  | _ => Raise ValueError
  end.

(** ** [str] operations *)

(** [c in s] for a character [c] of one byte (below 128): in UTF-8 such a
    byte is never part of another character, so the bytes can be searched. *)
Fixpoint contains (c : ascii) (s : string) : bool :=
  match s with
  | EmptyString => false
  | String a s' => if Ascii.eqb a c then true else contains c s'
  end.

(** [c * n]; a negative count gives the empty string. *)
Fixpoint replicate (c : ascii) (n : nat) : string :=
  match n with
  | O => EmptyString
  | S n' => String c (replicate c n')
  end.
Definition str_mul (c : ascii) (n : Z) : string := replicate c (Z.to_nat n).

(** [len(s)] as a Python integer: the number of characters. *)
Definition len (s : string) : Z := Z.of_nat (List.length (chars s)).

(** [s[:n]] for a literal [n >= 0]: the first [n] characters. *)
Definition slice_to (s : string) (n : nat) : string := join (firstn n (chars s)).

(** [s[-n:]] for a literal [n > 0]: the last [n] characters, or all of [s]
    when it is shorter. *)
Definition slice_last (s : string) (n : nat) : string :=
  join (skipn (List.length (chars s) - n) (chars s)).

(** The text before and after the first [c], when there is one. *)
Fixpoint partition_first (c : ascii) (s : string) : option (string * string) :=
  match s with
  | EmptyString => None
  | String a s' =>
      if Ascii.eqb a c then Some (EmptyString, s')
      else match partition_first c s' with
           | Some (before, after) => Some (String a before, after)
           | None => None
           end
  end.

(** The text before and after the last [c], when there is one. *)
Fixpoint partition_last (c : ascii) (s : string) : option (string * string) :=
  match s with
  | EmptyString => None
  | String a s' =>
      match partition_last c s' with
      | Some (before, after) => Some (String a before, after)
      | None => if Ascii.eqb a c then Some (EmptyString, s') else None
      end
  end.

(** [s.split(c, 1)] and [s.rsplit(c, 1)]. *)
Definition split1 (c : ascii) (s : string) : list string :=
  match partition_first c s with
  | Some (before, after) => [before; after]
  | None => [s]
  end.
Definition rsplit1 (c : ascii) (s : string) : list string :=
  match partition_last c s with
  | Some (before, after) => [before; after]
  | None => [s]
  end.

(** [x in xs] on a list of strings. *)
Definition str_in (x : string) (xs : list string) : bool :=
  existsb (String.eqb x) xs.

(** [str(z)] for an [int]. *)
Definition str_of_int (z : Z) : string := NilZero.string_of_int (Z.to_int z).

End Py.

Import Py.

Declare Scope py_scope.
Notation "x <- c ;; k" := (bind c (fun x => k))
  (at level 61, c at next level, right associativity) : py_scope.
Notation "' pat <- c ;; k" := (bind c (fun x => match x with pat => k end))
  (at level 61, pat pattern, c at next level, right associativity) : py_scope.
Local Open Scope py_scope.

(** ** tools/data_processor.py *)

Module DataProcessor.

(** Lines 17-20: [all_values.extend(values)] for every value that is a list. *)
Fixpoint collect_values (items : pydict) (all_values : list pyval) : list pyval :=
  match items with
  | [] => all_values
  | (_, values) :: rest =>
      match values with
      | PList l => collect_values rest (all_values ++ l)
      | _ => collect_values rest all_values
      end
  end.

(** [val in seen], [seen] a set: hashing [val] comes first. *)
Definition set_mem (val : pyval) (seen : list pyval) : result bool :=
  if hashable val then Ok (existsb (py_eq val) seen) else Raise TypeError.

(** Lines 23-28: the loop over [all_values], with [seen] and
    [unique_values] as its state. *)
Fixpoint dedup_loop (all_values : list pyval) (seen unique_values : list pyval)
  : result (list pyval) :=
  match all_values with
  | [] => Ok unique_values
  | val :: rest =>
      if truthy val then
        present <- set_mem val seen ;;
        if negb present
        then dedup_loop rest (val :: seen) (unique_values ++ [val])
        else dedup_loop rest seen unique_values
      else dedup_loop rest seen unique_values
  end.

Definition post_process_sensitive_data (sensitive_data : pydict) : result (list pyval) :=
  let all_values := collect_values sensitive_data [] in
  dedup_loop all_values [] [].

(** Lines 57-60 and 65-68: first two characters kept, the rest starred. *)
Definition mask_head (part : string) : string :=
  if (len part <=? 2)%Z then str_mul "*" (len part)
  else slice_to part 2 +++ str_mul "*" (len part - 2).

(** Lines 73 and 79: [value[:2] + '*' * (len(value) - 4) + value[-2:]]. *)
Definition mask_middle (value : string) : string :=
  slice_to value 2 +++ str_mul "*" (len value - 4) +++ slice_last value 2.

(** Lines 76-79: the general masking. *)
Definition mask_general (value : string) : string :=
  if (len value <=? 4)%Z then str_mul "*" (len value) else mask_middle value.

(** Lines 56-71: the body of the [try]. *)
Definition mask_email (value : string) : result string :=
  '(username, domain) <- unpack2 (split1 "@" value) ;;
  let masked_username := mask_head username in
  let domain_parts := rsplit1 "." domain in
  if (List.length domain_parts =? 2)%nat then
    '(domain_name, tld) <- unpack2 domain_parts ;;
    let masked_domain := mask_head domain_name in
    Ok (masked_username +++ "@" +++ masked_domain +++ "." +++ tld)
  else
    Ok (masked_username +++ "@" +++ slice_to domain 2 +++ "***").

(** Line 54. *)
Definition looks_like_email (value : string) : bool :=
  contains "@" value && contains "." value.

(** Lines 49-81 for one [value]; the [try] of lines 55-71 stands under a
    bare [except], whose handler is line 73. *)
Definition mask_value (value : pyval) : pyval :=
  match value with
  | PStr s =>
      if (len s <? 3)%Z then value
      else if looks_like_email s then
        PStr (try_except (mask_email s) (fun _ => mask_middle s))
      else PStr (mask_general s)
  | _ => value
  end.

(** Lines 46-83: the loop over the categories. *)
Fixpoint mask_loop (items : pydict) (masked_data : pydict) : result pydict :=
  match items with
  | [] => Ok masked_data
  | (category, values) :: rest =>
      vs <- iterate values ;;
      mask_loop rest (dict_set masked_data category (PList (map mask_value vs)))
  end.

Definition mask_sensitive_data (sensitive_data : pydict) : result pydict :=
  mask_loop sensitive_data [].

End DataProcessor.

(** ** tools/ollama_llm.py *)

Module OllamaLLM.

Definition required_keys : list string :=
  ["names"; "emails"; "phones"; "addresses"; "ids";
   "cards"; "dobs"; "medical"; "financial"; "other_pii"].

(** Lines 213-226. *)
Definition _empty_structure : pydict :=
  [("names", PList []); ("emails", PList []); ("phones", PList []);
   ("addresses", PList []); ("ids", PList []); ("cards", PList []);
   ("dobs", PList []); ("medical", PList []); ("financial", PList []);
   ("other_pii", PList [])].

(** What [requests.post] hands back: a status code and the outcome of
    [response.json()]. *)
Record http_response : Type := {
  status_code : Z;
  json : result pyval
}.

(** [s.find(c)] and [s.rfind(c)], [None] standing for -1. *)
Fixpoint find (c : ascii) (s : string) : option nat :=
  match s with
  | EmptyString => None
  | String a s' =>
      if Ascii.eqb a c then Some O
      else match find c s' with Some i => Some (S i) | None => None end
  end.
Fixpoint rfind (c : ascii) (s : string) : option nat :=
  match s with
  | EmptyString => None
  | String a s' =>
      match rfind c s' with
      | Some i => Some (S i)
      | None => if Ascii.eqb a c then Some O else None
      end
  end.

Section Detector.

(** [str(x)] of a float, which Python prints with its shortest
    round-tripping decimal. *)
Variable float_repr : float -> string.
(** [json.loads]: [None] stands for [json.JSONDecodeError]. *)
Variable json_loads : string -> option pyval.
(** [str.strip()]. *)
Variable strip : string -> string.
(** Line 135: group 1 of the fenced-block pattern; line 140: the match of
    the brace pattern. *)
Variable search_code_block : string -> option string.
Variable search_json_object : string -> option string.
(** Lines 173, 177, 178: the three [re.sub] calls. *)
Variable sub_trailing_commas : string -> string.
Variable sub_quoted_keys : string -> string.
Variable sub_quoted_values : string -> string.
(** The answer of the endpoint to the request built from [text]. *)
Variable requests_post : string -> result http_response.

(** Line 209: [item and isinstance(item, (str, int, float))]. *)
Definition keep_item (item : pyval) : bool :=
  truthy item && (is_str item || is_int item || is_float item).

(** [str(item)] on the items line 209 keeps. *)
Definition str_item (item : pyval) : string :=
  match item with
  | PStr s => s
  | PBool b => if b then "True" else "False"
  | PInt z => str_of_int z
  | PFloat f => float_repr f
  | _ => ""
  end.

(** Lines 201-209, for the value found under one key. *)
Definition validate_value (value : pyval) : pyval :=
  match value with
  | PList l => PList (map (fun item => PStr (str_item item)) (filter keep_item l))
  | PStr s => if truthy value then PList [value] else PList []
  | _ => PList []
  end.

(** Lines 197-209: the loop over [required_keys]. *)
Fixpoint validate_loop (keys : list string) (data validated : pydict) : pydict :=
  match keys with
  | [] => validated
  | key :: rest =>
      let value := dict_get_default data key (PList []) in
      validate_loop rest data (dict_set validated key (validate_value value))
  end.

Definition _validate_structure (data : pydict) : pydict :=
  validate_loop required_keys data [].

(** Lines 168-186. *)
Definition _fix_json_formatting (json_str : string) : string :=
  let json_str := sub_trailing_commas json_str in
  let json_str := sub_quoted_keys json_str in
  let json_str := sub_quoted_values json_str in
  match find "{" json_str, rfind "}" json_str with
  | Some first_brace, Some last_brace =>
      substring first_brace (last_brace + 1 - first_brace) json_str
  | _, _ => json_str
  end.

(** Lines 134-146: the fenced block when there is one, else the first
    brace-delimited span. *)
Definition find_candidate (text : string) : option string :=
  match search_code_block text with
  | Some group1 => Some group1
  | None => search_json_object text
  end.

(** Lines 125-158: the body of the outer [try]. *)
Definition extract_body (response_text : pyval) : result pydict :=
  match response_text with
  | PStr text =>
      let direct :=
        match json_loads (strip text) with
        | Some (PDict data) => Some (_validate_structure data)
        | _ => None
        end in
      match direct with
      | Some validated => Ok validated
      | None =>
          match find_candidate text with
          | None => Ok _empty_structure
          | Some json_str =>
              match json_loads (_fix_json_formatting json_str) with
              | None => Raise JSONDecodeError
              | Some (PDict data) => Ok (_validate_structure data)
              | Some _ => Ok _empty_structure
              end
          end
      end
  | _ => Raise AttributeError          (* no [strip] on a non-string *)
  end.

(** Lines 120-166. *)
Definition _extract_and_fix_json (response_text : pyval) : result pydict :=
  match extract_body response_text with
  | Ok validated => Ok validated
  | Raise JSONDecodeError => Ok _empty_structure
  | Raise e => if is_Exception e then Ok _empty_structure else Raise e
  end.

(** Lines 76-104: the body of the [try]. *)
Definition detect_body (text : string) : result pydict :=
  response <- requests_post text ;;
  if negb (status_code response =? 200)%Z then Ok _empty_structure
  else
    result <- json response ;;
    response_text <-
      match result with
      | PDict d => Ok (dict_get_default d "response" (PStr ""))
      | _ => Raise AttributeError        (* no [get] on a non-dict *)
      end ;;
    match response_text with
    | PDict data => Ok (_validate_structure data)
    | _ => _extract_and_fix_json response_text
    end.

(** Lines 26-117. *)
Definition get_sensitive_data (text : string) : result pydict :=
  match detect_body text with
  | Ok data => Ok data
  | Raise Timeout => Ok _empty_structure
  | Raise e =>
      if is_RequestException e then Ok _empty_structure
      else if is_Exception e then Ok _empty_structure
      else Raise e
  end.

(** The ways a detection fails, in the words of the specification: the
    request times out, the endpoint is unreachable, it answers with a
    status other than 200, every parse attempt on its answer fails, or
    the value parsed last is not an object. *)
Inductive detection_failure (text : string) : Prop :=
| TimedOut :
    requests_post text = Raise Timeout -> detection_failure text
| Unreachable :
    requests_post text = Raise ConnectionError -> detection_failure text
| BadStatus response :
    requests_post text = Ok response ->
    status_code response <> 200%Z ->
    detection_failure text
| NoParse response body answer :
    requests_post text = Ok response ->
    status_code response = 200%Z ->
    json response = Ok (PDict body) ->
    dict_get_default body "response" (PStr "") = PStr answer ->
    (forall data, json_loads (strip answer) <> Some (PDict data)) ->
    (forall candidate, find_candidate answer = Some candidate ->
                       json_loads (_fix_json_formatting candidate) = None) ->
    detection_failure text
| NotAnObject response body answer candidate parsed :
    requests_post text = Ok response ->
    status_code response = 200%Z ->
    json response = Ok (PDict body) ->
    dict_get_default body "response" (PStr "") = PStr answer ->
    (forall data, json_loads (strip answer) <> Some (PDict data)) ->
    find_candidate answer = Some candidate ->
    json_loads (_fix_json_formatting candidate) = Some parsed ->
    is_dict parsed = false ->
    detection_failure text.

End Detector.

(** An endpoint that never answers in time, for the examples. *)
Definition sample_float_repr (f : float) : string := "1.5".
Definition no_json (s : string) : option pyval := None.
Definition no_match (s : string) : option string := None.
Definition unchanged (s : string) : string := s.
Definition slow_endpoint (text : string) : result http_response := Raise Timeout.

End OllamaLLM.

(** ** tools/pdf_extractor.py *)

Module PdfExtractor.

(** What happens to document handles, in order. *)
Inductive event : Type :=
| Opened (path : string)
| Closed (path : string).

(** A document is the list of its pages; a page is the outcome of asking
    it for its text. *)
Definition document : Type := list (result string).

(** The handles a log leaves open: every [Opened] not yet [Closed]. *)
Fixpoint remove_first (path : string) (handles : list string) : list string :=
  match handles with
  | [] => []
  | h :: rest => if String.eqb h path then rest else h :: remove_first path rest
  end.
Fixpoint open_handles (log : list event) (handles : list string) : list string :=
  match log with
  | [] => handles
  | Opened path :: rest => open_handles rest (handles ++ [path])
  | Closed path :: rest => open_handles rest (remove_first path handles)
  end.

Section Fitz.

(** [Path(file_path).exists()] and [fitz.open(file_path)]. *)
Variable path_exists : string -> bool.
Variable fitz_open : string -> result document.

(** Lines 28-31: [texts.append(page.get_text())] page by page. *)
Fixpoint read_pages (doc : document) (texts : list string) : result (list string) :=
  match doc with
  | [] => Ok texts
  | page :: rest => page_text <- page ;; read_pages rest (texts ++ [page_text])
  end.

(** Lines 35-37: [text += page.get_text()] page by page. *)
Fixpoint join_pages (doc : document) (text : string) : result string :=
  match doc with
  | [] => Ok text
  | page :: rest => page_text <- page ;; join_pages rest (text +++ page_text)
  end.

(** Lines 25-39, the body of the [try] of pdf_extractor.py: [doc.close()]
    is the statement before each [return]. *)
Definition try_body (file_path : string) (page_chunks : bool) (log : list event)
  : result pyval * list event :=
  match fitz_open file_path with
  | Raise e => (Raise e, log)
  | Ok doc =>
      let log := log ++ [Opened file_path] in
      if page_chunks then
        match read_pages doc [] with
        | Ok texts => (Ok (PList (map PStr texts)), log ++ [Closed file_path])
        | Raise e => (Raise e, log)
        end
      else
        match join_pages doc "" with
        | Ok text => (Ok (PStr text), log ++ [Closed file_path])
        | Raise e => (Raise e, log)
        end
  end.

(** Lines 8-42 of pdf_extractor.py. *)
Definition get_pdf_text (file_path : string) (page_chunks : bool) (log : list event)
  : result pyval * list event :=
  if negb (path_exists file_path) then (Raise FileNotFoundError, log)
  else
    match try_body file_path page_chunks log with
    | (Ok v, log') => (Ok v, log')
    | (Raise e, log') =>
        if is_Exception e then (Raise (PlainException e), log') else (Raise e, log')
    end.

End Fitz.

End PdfExtractor.

(** ** tools/pdf_to_text.py, the sibling of pdf_extractor.py *)

Module PdfToText.

Import PdfExtractor.

Section Fitz.

Variable path_exists : string -> bool.
Variable fitz_open : string -> result document.

(** Lines 25-38, the body of the [try]: no [close] before the returns; the
    boolean tells whether [doc] was bound, which the [finally] asks. *)
Definition try_body (file_path : string) (page_chunks : bool) (log : list event)
  : result pyval * list event * bool :=
  match fitz_open file_path with
  | Raise e => (Raise e, log, false)
  | Ok doc =>
      let log := log ++ [Opened file_path] in
      if page_chunks then
        match read_pages doc [] with
        | Ok texts => (Ok (PList (map PStr texts)), log, true)
        | Raise e => (Raise e, log, true)
        end
      else
        match join_pages doc "" with
        | Ok text => (Ok (PStr text), log, true)
        | Raise e => (Raise e, log, true)
        end
  end.

(** Lines 5-44: the [finally] of lines 42-44 closes [doc] once it is bound. *)
Definition get_pdf_text (file_path : string) (page_chunks : bool)
    (log : list event) : result pyval * list event :=
  if negb (path_exists file_path) then (Raise FileNotFoundError, log)
  else
    let '(outcome, log', doc_bound) := try_body file_path page_chunks log in
    let outcome :=
      match outcome with
      | Ok v => Ok v
      | Raise e => if is_Exception e then Raise (PlainException e) else Raise e
      end in
    (outcome, if doc_bound then log' ++ [Closed file_path] else log').

End Fitz.

End PdfToText.

(** ** tools/pdf_redactor.py *)

Module PdfRedactor.

Section Engine.

(** A page of the source and a bounding region on it. *)
Variables page rect : Type.
(** [page.search_for(value)]: one region per occurrence.  Both copies are
    opened from the same file, and annotations that are only pending do
    not change what a search finds. *)
Variable search_for : page -> string -> list rect.

(** The marks one page has received: highlight annotations on the preview
    copy, redaction annotations on the removal copy, and
    [page_stats["number_of_redactions"]]. *)
Record marks : Type := {
  highlights : list rect;
  redactions : list rect;
  number_of_redactions : Z
}.

Definition no_marks : marks :=
  {| highlights := []; redactions := []; number_of_redactions := 0 |}.

(** Lines 45-52: one highlight and one redaction annotation per instance. *)
Fixpoint mark_instances (text_instances : list rect) (m : marks) : marks :=
  match text_instances with
  | [] => m
  | inst :: rest =>
      mark_instances rest
        {| highlights := highlights m ++ [inst];
           redactions := redactions m ++ [inst];
           number_of_redactions := number_of_redactions m |}
  end.

(** Lines 38-55: the loop over the sensitive values on one page. *)
Fixpoint mark_page (p : page) (sensitive_values : list string) (m : marks) : marks :=
  match sensitive_values with
  | [] => m
  | sensitive_value :: rest =>
      if negb (truthy (PStr sensitive_value)) || (len sensitive_value <? 2)%Z
      then mark_page p rest m
      else
        let text_instances := search_for p sensitive_value in
        let m := mark_instances text_instances m in
        let m :=
          match text_instances with
          | [] => m
          | _ => {| highlights := highlights m;
                    redactions := redactions m;
                    number_of_redactions :=
                      number_of_redactions m + Z.of_nat (List.length text_instances) |}
          end in
        mark_page p rest m
  end.

(** [redaction_summary], and with it what the two documents hold when
    they are saved: per page, the highlights of the preview copy and the
    regions [page.apply_redactions()] has removed from the removal copy. *)
Record summary : Type := {
  total_pages : Z;
  redacted_pages : list (Z * Z);       (* "page", "number_of_redactions" *)
  total_redactions : Z;
  doc_highlighted : list (list rect);
  doc_redacted : list (list rect)
}.

(** Lines 32-64: the loop over the pages, [number] being
    [page_redacted.number]. *)
Fixpoint redact_pages (pages : list (page * page)) (number : Z)
    (sensitive_values : list string) (acc : summary) : summary :=
  match pages with
  | [] => acc
  | (page_redacted, page_highlighted) :: rest =>
      let m := mark_page page_redacted sensitive_values no_marks in
      redact_pages rest (number + 1)%Z sensitive_values
        {| total_pages := total_pages acc;
           redacted_pages := redacted_pages acc ++ [((number + 1)%Z, number_of_redactions m)];
           total_redactions := total_redactions acc + number_of_redactions m;
           doc_highlighted := doc_highlighted acc ++ [highlights m];
           doc_redacted := doc_redacted acc ++ [redactions m] |}
  end.

(** Lines 21-64 of [apply_redactions], [doc] being what [fitz.open]
    gives for [pdf_path], both times. *)
Definition apply_redactions (doc : list page) (sensitive_values : list string) : summary :=
  redact_pages (combine doc doc) 0 sensitive_values
    {| total_pages := Z.of_nat (List.length doc);
       redacted_pages := [];
       total_redactions := 0;
       doc_highlighted := [];
       doc_redacted := [] |}.

End Engine.

End PdfRedactor.

(** ** server.py *)

Module Server.

(** *** Lines 749-765 of [redact_pdf_custom]: the user's overrides *)

Section Overrides.

(** [str.lower()]. *)
Variable lower : string -> string.

(** Lines 751-756: returns [sensitive_values] and [excluded_count]. *)
Definition remove_excluded (sensitive_values exclude_items : list string)
  : list string * Z :=
  match exclude_items with
  | [] => (sensitive_values, 0%Z)
  | _ =>
      let exclude_lower := map lower exclude_items in
      let original_count := Z.of_nat (List.length sensitive_values) in
      let kept := filter (fun v => negb (str_in (lower v) exclude_lower)) sensitive_values in
      (kept, (original_count - Z.of_nat (List.length kept))%Z)
  end.

(** Lines 759-765: the loop over [include_items]. *)
Fixpoint add_included (include_items sensitive_values : list string) (included_count : Z)
  : list string * Z :=
  match include_items with
  | [] => (sensitive_values, included_count)
  | item :: rest =>
      if truthy (PStr item) && negb (str_in item sensitive_values)
      then add_included rest (sensitive_values ++ [item]) (included_count + 1)%Z
      else add_included rest sensitive_values included_count
  end.

(** Lines 749-765: the final [sensitive_values], [excluded_count] and
    [included_count]. *)
Definition apply_user_preferences (sensitive_values exclude_items include_items : list string)
  : list string * Z * Z :=
  let '(sensitive_values, excluded_count) := remove_excluded sensitive_values exclude_items in
  let '(sensitive_values, included_count) := add_included include_items sensitive_values 0%Z in
  (sensitive_values, excluded_count, included_count).

End Overrides.

(** *** Lines 426-652: [redact_pdf] *)

(** The steps of the tracker are kept with their name and status; their
    timestamps and details, the logging, the size of the file and the check
    that [post_process_sensitive_data] returned a list are left out. *)

(** What the tool does to the outside world. *)
Inductive event : Type :=
| TempFileCreated (path : string)
| TempFileDeleted (path : string)
| DetectorCalled (text : string)
| RedactorCalled (pdf_path : string) (sensitive_values : list pyval)
| PdfOpened (path : string)
| FileEncoded (path : string).

(** The JSON object the tool returns, without its "progress" entry. *)
Inductive tool_response : Type :=
| ErrorResponse (error : string)
| CaughtError (error_type : exn)
| NoSensitiveData (message model_used : string)
| Success (total_redactions total_pages : Z) (masked_data : pydict)
          (model_used redacted highlighted : string) (pdf_opened : option bool).

(** What [apply_redactions] returns: the summary entries the server reads,
    and the highlighted path. *)
Record redaction_summary : Type := {
  total_redactions : Z;
  total_pages : Z;
  redacted_pdf_path : string;
  highlighted_path : string
}.

(** [ProgressTracker.steps], each step with its name and status, the
    events so far, and the local variable [temp_file] the [finally] reads. *)
Record state : Type := {
  steps : list (string * string);
  events : list event;
  temp_file : option string
}.

(** Lines 68-81: only the last step is touched, and only under its name. *)
Fixpoint set_last_status (steps : list (string * string)) (step_name status : string)
  : list (string * string) :=
  match steps with
  | [] => []
  | [(name, old)] => if String.eqb name step_name then [(name, status)] else [(name, old)]
  | step :: rest => step :: set_last_status rest step_name status
  end.

(** A statement of the tool either goes on, returns the response, or raises. *)
Inductive flow (A : Type) : Type :=
| Next (a : A)
| Return (r : tool_response)
| Throw (e : exn).
Arguments Next {A} a.
Arguments Return {A} r.
Arguments Throw {A} e.

Definition M (A : Type) : Type := state -> flow A * state.

Definition pure {A} (a : A) : M A := fun st => (Next a, st).
Definition then_ {A B} (c : M A) (k : A -> M B) : M B :=
  fun st =>
    match c st with
    | (Next a, st') => k a st'
    | (Return r, st') => (Return r, st')
    | (Throw e, st') => (Throw e, st')
    end.
Definition return_ {A} (r : tool_response) : M A := fun st => (Return r, st).
Definition call {A} (r : result A) : M A :=
  fun st => match r with Ok a => (Next a, st) | Raise e => (Throw e, st) end.
Definition emit (ev : event) : M unit :=
  fun st => (Next tt, {| steps := steps st; events := events st ++ [ev];
                         temp_file := temp_file st |}).
Definition set_temp_file (path : string) : M unit :=
  fun st => (Next tt, {| steps := steps st; events := events st;
                         temp_file := Some path |}).
Definition update_steps (f : list (string * string) -> list (string * string)) : M unit :=
  fun st => (Next tt, {| steps := f (steps st); events := events st;
                         temp_file := temp_file st |}).
Definition add_step (step_name status : string) : M unit :=
  update_steps (fun steps => steps ++ [(step_name, status)]).
Definition complete_step (step_name : string) : M unit :=
  update_steps (fun steps => set_last_status steps step_name "completed").
Definition fail_step (step_name : string) : M unit :=
  update_steps (fun steps => set_last_status steps step_name "failed").
Definition when (b : bool) (c : M unit) : M unit := if b then c else pure tt.

Declare Scope flow_scope.
Notation "x <~ c ;; k" := (then_ c (fun x => k))
  (at level 61, c at next level, right associativity) : flow_scope.
Notation "' pat <~ c ;; k" := (then_ c (fun x => match x with pat => k end))
  (at level 61, pat pattern, c at next level, right associativity) : flow_scope.
Notation "c ;;; k" := (then_ c (fun _ => k))
  (at level 61, right associativity) : flow_scope.
Local Open Scope flow_scope.

(** [len(v)]. *)
Definition py_len (v : pyval) : result Z :=
  match v with
  | PStr s => Ok (len s)
  | PList l => Ok (Z.of_nat (List.length l))
  | PDict d => Ok (Z.of_nat (List.length d))
  | _ => Raise TypeError
  end.

(** [all(len(v) == 0 for v in values)]. *)
Fixpoint all_empty (values : list pyval) : result bool :=
  match values with
  | [] => Ok true
  | v :: rest =>
      bind (py_len v) (fun n => if (n =? 0)%Z then all_empty rest else Ok false)
  end.

(** [sensitive_data.values()] and [sensitive_data.items()]. *)
Definition dict_values (v : pyval) : result (list pyval) :=
  match v with PDict d => Ok (map snd d) | _ => Raise AttributeError end.
Definition dict_items (v : pyval) : result pydict :=
  match v with PDict d => Ok d | _ => Raise AttributeError end.

(** Line 516: [sensitive_data is None or (isinstance(sensitive_data, dict)
    and len(sensitive_data) == 0)]. *)
Definition llm_returned_nothing (sensitive_data : pyval) : bool :=
  match sensitive_data with
  | PNone => true
  | PDict d => (Z.of_nat (List.length d) =? 0)%Z
  | _ => false
  end.

Section RedactPdf.

(** The collaborators of the tool: [llm_instance.check_connection()],
    [save_base64_to_temp], [os.path.exists], [get_pdf_text],
    [llm_instance.get_sensitive_data], [apply_redactions], [open_pdf],
    [file_to_base64] and [os.unlink]. *)
Variable check_connection : bool.
Variable save_base64_to_temp : string -> result string.
Variable path_exists : string -> bool.
Variable get_pdf_text : string -> result string.
Variable get_sensitive_data : string -> result pyval.
Variable apply_redactions : string -> list pyval -> result redaction_summary.
Variable open_pdf : string -> bool.
Variable file_to_base64 : string -> result string.
Variable os_unlink : string -> result unit.

(** Lines 465-508: steps 1 to 4; the path of the document and its text. *)
Definition prepare_input (pdf_path pdf_base64 : string) : M (string * string) :=
  add_step "Initialization" "in_progress" ;;;
  complete_step "Initialization" ;;;
  add_step "Ollama Connection Check" "in_progress" ;;;
  when (negb check_connection)
    (fail_step "Ollama Connection Check" ;;;
     return_ (ErrorResponse
       "Cannot connect to Ollama. Make sure it's running with 'ollama serve'")) ;;;
  complete_step "Ollama Connection Check" ;;;
  add_step "Input Processing" "in_progress" ;;;
  pdf_path <~ (if truthy (PStr pdf_base64) then
                 add_step "Base64 Decoding" "in_progress" ;;;
                 temp <~ call (save_base64_to_temp pdf_base64) ;;
                 set_temp_file temp ;;;
                 emit (TempFileCreated temp) ;;;
                 complete_step "Base64 Decoding" ;;;
                 pure temp
               else pure pdf_path) ;;
  when (negb (truthy (PStr pdf_path)))
    (fail_step "Input Processing" ;;;
     return_ (ErrorResponse "Either pdf_path or pdf_base64 must be provided")) ;;;
  when (negb (path_exists pdf_path))
    (fail_step "Input Processing" ;;;
     return_ (ErrorResponse ("PDF file not found: " +++ pdf_path))) ;;;
  complete_step "Input Processing" ;;;
  add_step "Text Extraction" "in_progress" ;;;
  text <~ call (get_pdf_text pdf_path) ;;
  complete_step "Text Extraction" ;;;
  pure (pdf_path, text).

(** Lines 511-556: steps 5 to 7; the values to redact. *)
Definition detect (model text : string) : M (pyval * list pyval) :=
  add_step "Sensitive Data Detection" "in_progress" ;;;
  emit (DetectorCalled text) ;;;
  sensitive_data <~ call (get_sensitive_data text) ;;
  when (llm_returned_nothing sensitive_data)
    (fail_step "Sensitive Data Detection" ;;;
     return_ (ErrorResponse
       "LLM failed to analyze the document. Please check Ollama logs.")) ;;;
  complete_step "Sensitive Data Detection" ;;;
  nothing_found <~ (if negb (truthy sensitive_data) then pure true
                    else call (bind (dict_values sensitive_data) all_empty)) ;;
  when nothing_found
    (add_step "Validation" "completed" ;;;
     return_ (NoSensitiveData "No sensitive data detected, nothing to redact" model)) ;;;
  add_step "Data Processing" "in_progress" ;;;
  sensitive_values <~
    call (bind (dict_items sensitive_data) DataProcessor.post_process_sensitive_data) ;;
  let total_values := Z.of_nat (List.length sensitive_values) in
  complete_step "Data Processing" ;;;
  when (total_values =? 0)%Z
    (add_step "Validation" "completed" ;;;
     return_ (NoSensitiveData "No sensitive data to redact after processing" model)) ;;;
  pure (sensitive_data, sensitive_values).

(** Lines 558-626: steps 8 to 11. *)
Definition redact_and_report (pdf_path model : string) (return_base64 auto_open : bool)
    (sensitive_data : pyval) (sensitive_values : list pyval) : M tool_response :=
  add_step "PDF Redaction" "in_progress" ;;;
  emit (RedactorCalled pdf_path sensitive_values) ;;;
  redaction_summary <~ call (apply_redactions pdf_path sensitive_values) ;;
  complete_step "PDF Redaction" ;;;
  add_step "Masking Data" "in_progress" ;;;
  masked_data <~
    call (bind (dict_items sensitive_data) DataProcessor.mask_sensitive_data) ;;
  complete_step "Masking Data" ;;;
  when (auto_open && negb return_base64)
    (add_step "Opening Original PDF" "in_progress" ;;;
     emit (PdfOpened pdf_path) ;;;
     (if open_pdf pdf_path then complete_step "Opening Original PDF"
      else fail_step "Opening Original PDF") ;;;
     add_step "Opening Redacted PDF" "in_progress" ;;;
     emit (PdfOpened (redacted_pdf_path redaction_summary)) ;;;
     (if open_pdf (redacted_pdf_path redaction_summary)
      then complete_step "Opening Redacted PDF"
      else fail_step "Opening Redacted PDF")) ;;;
  add_step "Output Preparation" "in_progress" ;;;
  result <~ (if return_base64 then
               add_step "Base64 Encoding" "in_progress" ;;;
               emit (FileEncoded (redacted_pdf_path redaction_summary)) ;;;
               redacted_base64 <~
                 call (file_to_base64 (redacted_pdf_path redaction_summary)) ;;
               complete_step "Base64 Encoding" ;;;
               add_step "Base64 Encoding Highlighted" "in_progress" ;;;
               emit (FileEncoded (highlighted_path redaction_summary)) ;;;
               highlighted_base64 <~
                 call (file_to_base64 (highlighted_path redaction_summary)) ;;
               complete_step "Base64 Encoding Highlighted" ;;;
               pure (Success (total_redactions redaction_summary)
                       (total_pages redaction_summary) masked_data model
                       redacted_base64 highlighted_base64 None)
             else
               pure (Success (total_redactions redaction_summary)
                       (total_pages redaction_summary) masked_data model
                       (redacted_pdf_path redaction_summary)
                       (highlighted_path redaction_summary) (Some auto_open))) ;;
  complete_step "Output Preparation" ;;;
  pure result.

(** Lines 464-627: the body of the [try]. *)
Definition try_body (pdf_path pdf_base64 model : string) (return_base64 auto_open : bool)
  : M tool_response :=
  '(pdf_path, text) <~ prepare_input pdf_path pdf_base64 ;;
  '(sensitive_data, sensitive_values) <~ detect model text ;;
  redact_and_report pdf_path model return_base64 auto_open sensitive_data sensitive_values.

(** Lines 645-651: the [finally].  The file is gone when [os.unlink]
    returns; when it raises an [Exception] the failure is logged and nothing
    else happens; anything else it raises leaves the tool. *)
Definition cleanup (st : state) : result unit * state :=
  match temp_file st with
  | Some path =>
      if truthy (PStr path) && path_exists path
      then
        match os_unlink path with
        | Ok _ =>
            (Ok tt, {| steps := steps st; events := events st ++ [TempFileDeleted path];
                       temp_file := temp_file st |})
        | Raise e => if is_Exception e then (Ok tt, st) else (Raise e, st)
        end
      else (Ok tt, st)
  | None => (Ok tt, st)
  end.

Definition initial_state : state := {| steps := []; events := []; temp_file := None |}.

(** Lines 464-643: the [try] with its handler. *)
Definition answer (pdf_path pdf_base64 model : string) (return_base64 auto_open : bool)
  : result tool_response * state :=
  match try_body pdf_path pdf_base64 model return_base64 auto_open initial_state with
  | (Next r, st) | (Return r, st) => (Ok r, st)
  | (Throw e, st) =>
      if is_Exception e then
        match fail_step "Redaction" st with
        | (_, st') => (Ok (CaughtError e), st')
        end
      else (Raise e, st)
  end.

(** Lines 426-652: what the [finally] raises takes the place of the answer. *)
Definition redact_pdf (pdf_path pdf_base64 model : string) (return_base64 auto_open : bool)
  : result tool_response * state :=
  let '(r, st) := answer pdf_path pdf_base64 model return_base64 auto_open in
  match cleanup st with
  | (Ok _, st') => (r, st')
  | (Raise e, st') => (Raise e, st')
  end.

End RedactPdf.

End Server.

(** ** Reading a report *)

(** A [dict] proper has each key once; a CategoryMap maps every key to a list. *)
Definition unique_keys (data : pydict) : Prop := NoDup (map fst data).
Definition list_valued (data : pydict) : Prop :=
  Forall (fun kv => is_list (snd kv) = true) data.

(** [data[category][i]], when there is such an entry. *)
Definition entry (data : pydict) (category : string) (i : nat) : option pyval :=
  match dict_get data category with
  | Some (PList values) => nth_error values i
  | _ => None
  end.

(** [mask_sensitive_data(data)[category][i]]. *)
Definition masked_entry (data : pydict) (category : string) (i : nat) : option pyval :=
  match DataProcessor.mask_sensitive_data data with
  | Ok masked => entry masked category i
  | Raise _ => None
  end.

(** ** Sample collaborators, for the examples *)

(** [str.lower()] on the letters A to Z. *)
Definition lower_char (c : ascii) : ascii :=
  let n := nat_of_ascii c in
  if (65 <=? n)%nat && (n <=? 90)%nat then ascii_of_nat (n + 32) else c.
Fixpoint ascii_lower (s : string) : string :=
  match s with
  | EmptyString => EmptyString
  | String c s' => String (lower_char c) (ascii_lower s')
  end.

(** A file of two pages whose second page cannot be read. *)
Definition every_path (path : string) : bool := true.
Definition damaged_pdf (path : string) : result PdfExtractor.document :=
  Ok [Ok "Jane Doe"; Raise FitzError].

(** An endpoint that answers 200 with an object holding nothing. *)
Definition empty_answer : OllamaLLM.http_response :=
  {| OllamaLLM.status_code := 200;
     OllamaLLM.json := Ok (PDict [("response", PDict [])]) |}.
Definition quiet_endpoint (text : string) : result OllamaLLM.http_response := Ok empty_answer.

(** [llm_instance.get_sensitive_data] as the server sees it: the dict is a
    Python value like any other. *)
Definition as_server_detector (get_sensitive_data : string -> result pydict) (text : string)
  : result pyval :=
  match get_sensitive_data text with
  | Ok data => Ok (PDict data)
  | Raise e => Raise e
  end.

Definition detector (endpoint : string -> result OllamaLLM.http_response)
  : string -> result pyval :=
  as_server_detector
    (OllamaLLM.get_sensitive_data OllamaLLM.sample_float_repr OllamaLLM.no_json
       OllamaLLM.unchanged OllamaLLM.no_match OllamaLLM.no_match
       OllamaLLM.unchanged OllamaLLM.unchanged OllamaLLM.unchanged endpoint).

(** The answer of line 519, and a step of the tool that does not return it. *)
Definition llm_failed : Server.tool_response :=
  Server.ErrorResponse "LLM failed to analyze the document. Please check Ollama logs.".
Definition never_llm_failed {A} (out : Server.flow A * Server.state) : Prop :=
  match fst out with
  | Server.Return r => r <> llm_failed
  | _ => True
  end.

(** The other collaborators of [redact_pdf], all working. *)
Definition no_temp (data : string) : result string := Raise ValueError.
Definition read_text (path : string) : result string := Ok "Jane Doe, jane@example.com".
Definition redactor (path : string) (values : list pyval) : result Server.redaction_summary :=
  Ok {| Server.total_redactions := Z.of_nat (List.length values);
        Server.total_pages := 1;
        Server.redacted_pdf_path := "doc_redacted.pdf";
        Server.highlighted_path := "doc_highlighted.pdf" |}.
Definition viewer (path : string) : bool := true.
Definition encoder (path : string) : result string := Ok "JVBERi0=".
Definition remover (path : string) : result unit := Ok tt.
(** An [os.unlink] that finds the file gone. *)
Definition already_gone (path : string) : result unit := Raise FileNotFoundError.

(** The occurrences the engine is to mark on a page: those of the literals of
    two characters or more, literal by literal. *)
Definition occurrences (page rect : Type) (search_for : page -> string -> list rect)
    (p : page) (sensitive_values : list string) : list rect :=
  flat_map (search_for p) (filter (fun v => 2 <=? len v)%Z sensitive_values).

(** [sum(l)]. *)
Definition zsum (l : list Z) : Z := fold_right Z.add 0%Z l.

(** ** Flattening, in the words of the specification *)

(** What a list of a CategoryMap may hold: strings, and [None] for a missing one. *)
Definition is_literal (v : pyval) : bool :=
  match v with PNone | PStr _ => true | _ => false end.
Definition category_map (data : pydict) : Prop :=
  Forall (fun kv => exists l, snd kv = PList l /\ forallb is_literal l = true) data.

(** "Iterate categories in a fixed, stable order, append every value". *)
Definition values_in_order (data : pydict) : list pyval :=
  flat_map (fun kv => match snd kv with PList l => l | _ => [] end) data.

(** "Empty/None values are skipped". *)
Definition literal_strings (values : list pyval) : list string :=
  flat_map (fun v => match v with
                     | PStr s => if String.eqb s "" then [] else [s]
                     | _ => []
                     end) values.

(** "Deduplicate while preserving first-seen order". *)
Fixpoint first_occurrences (l : list string) : list string :=
  match l with
  | [] => []
  | x :: rest => x :: filter (fun y => negb (String.eqb x y)) (first_occurrences rest)
  end.

(** A CategoryMap: the ten keys, each once and in order. *)
Definition ten_keys (data : pydict) : Prop := map fst data = OllamaLLM.required_keys.

(** A text that does not begin in the middle of a character. *)
Definition starts_char (t : string) : bool :=
  match t with
  | EmptyString => true
  | String c _ => negb (is_continuation c)
  end.

(** A list of characters: each entry is one character, and all but the first
    begin a character. *)
Definition char_list (l : list string) : Prop :=
  Forall (fun ch => chars ch = [ch]) l /\ Forall (fun ch => starts_char ch = true) (tl l).

(** The general rule for a long value, in the words of the specification:
    the masked form [w] has as many characters as [v], its first two and
    last two characters, and asterisks everywhere between. *)
Definition keeps_ends_stars_middle (v w : string) : Prop :=
  let n := List.length (chars v) in
  List.length (chars w) = n /\
  (forall i, i < 2 -> nth_error (chars w) i = nth_error (chars v) i) /\
  (forall i, n - 2 <= i -> nth_error (chars w) i = nth_error (chars v) i) /\
  (forall i, 2 <= i < n - 2 -> nth_error (chars w) i = Some "*").

(** The rule for the part of an email before the [@], and for the name of
    its domain: [w] has as many characters as [part], all of them asterisks
    when there are at most two, and otherwise the first two of [part]
    followed by asterisks. *)
Definition keeps_head (part w : string) : Prop :=
  let n := List.length (chars part) in
  chars w = if (n <=? 2)%nat then repeat "*" n
            else firstn 2 (chars part) ++ repeat "*" (n - 2).

(** The email rule: [v] is cut at its first [@]; the part before it is
    masked by [keeps_head]; what follows is cut at its last dot, the name
    before that dot masked by [keeps_head] and the suffix kept, or, when it
    holds no dot, reduced to its first two characters and three asterisks. *)
Definition email_masked (v w : string) : Prop :=
  exists username domain masked_username,
    v = username +++ "@" +++ domain /\ contains "@" username = false /\
    keeps_head username masked_username /\
    ((exists domain_name tld masked_domain,
        domain = domain_name +++ "." +++ tld /\ contains "." tld = false /\
        keeps_head domain_name masked_domain /\
        w = masked_username +++ "@" +++ masked_domain +++ "." +++ tld)
     \/ (contains "." domain = false /\
         w = masked_username +++ "@" +++ slice_to domain 2 +++ "***")).

(** A value that is its own masked form: every character the rule would
    replace is an asterisk already. *)
Definition all_stars (l : list string) : bool := forallb (String.eqb "*") l.
Definition head_is_masked (part : string) : bool :=
  let cs := chars part in
  if (List.length cs <=? 2)%nat then all_stars cs else all_stars (skipn 2 cs).
Definition already_masked (v : string) : bool :=
  if DataProcessor.looks_like_email v then
    match partition_first "@" v with
    | Some (username, domain) =>
        head_is_masked username &&
        match partition_last "." domain with
        | Some (domain_name, _) => head_is_masked domain_name
        | None =>
            (List.length (chars domain) =? 5)%nat && all_stars (skipn 2 (chars domain))
        end
    | None => false
    end
  else
    let cs := chars v in
    if (List.length cs <=? 4)%nat then all_stars cs
    else all_stars (firstn (List.length cs - 4) (skipn 2 cs)).

(** The texts of a [str]: UTF-8, each leading byte followed by as many
    continuation bytes as it announces. *)
Fixpoint utf8_from (pending : nat) (s : string) : bool :=
  match s with
  | EmptyString => (pending =? 0)%nat
  | String c s' =>
      let n := nat_of_ascii c in
      match pending with
      | S k => is_continuation c && utf8_from k s'
      | O =>
          if (n <? 128)%nat then utf8_from 0 s'
          else if (n <? 192)%nat then false
          else if (n <? 224)%nat then utf8_from 1 s'
          else if (n <? 240)%nat then utf8_from 2 s'
          else if (n <? 248)%nat then utf8_from 3 s'
          else false
      end
  end.
Definition utf8 (s : string) : bool := utf8_from 0 s.

(** ** server.py: the cache of detector clients, and [check_ollama_status] *)

Module LlmCache.

(** ollama_llm.py, lines 18-24: what an [OllamaLLM] holds. *)
Record OllamaLLM : Type := {
  model : string;
  base_url : string
}.

(** [llm_cache]: a dict from keys to clients, in insertion order. *)
Definition llm_cache : Type := list (string * OllamaLLM).

(** [llm_cache[key]] when [key in llm_cache]. *)
Fixpoint cache_get (cache : llm_cache) (key : string) : option OllamaLLM :=
  match cache with
  | [] => None
  | (k, llm) :: rest => if String.eqb k key then Some llm else cache_get rest key
  end.

(** server.py, line 104: [f"{model}:{base_url}"]. *)
Definition cache_key (model base_url : string) : string := model +++ ":" +++ base_url.

(** server.py, lines 93-110: the client returned and the cache afterwards. *)
Definition get_llm (model base_url : string) (cache : llm_cache) : OllamaLLM * llm_cache :=
  let key := cache_key model base_url in
  match cache_get cache key with
  | Some llm => (llm, cache)
  | None =>
      let llm := {| model := model; base_url := base_url |} in
      (llm, cache ++ [(key, llm)])
  end.

(** ollama_llm.py, lines 228-234, [requests_get] being the outcome of the
    request for the status code of [url]. *)
Definition check_connection (requests_get : string -> result Z) (llm : OllamaLLM)
  : result bool :=
  match requests_get (base_url llm +++ "/api/tags") with
  | Ok status_code => Ok (status_code =? 200)%Z
  | Raise e => if is_RequestException e then Ok false else Raise e
  end.



(** Every client is stored under the key of its own model and address. *)
Definition well_keyed (cache : llm_cache) : Prop :=
  Forall (fun entry => fst entry = cache_key (model (snd entry)) (base_url (snd entry))) cache.

End LlmCache.

(** ** tools/pdf_redactor.py, lines 66-94: writing the two documents *)

Module RedactorOutput.

(** What happens to the two documents and to the file system, in order. *)
Inductive event : Type :=
| Saved (path : string)
| TempFileCreated (path : string)
| ClosedRedacted
| ClosedHighlighted.

(** [s.replace(old, new)], for a non-empty [old]: what is left of a match
    just replaced, [skip] bytes, is still to be passed over.  The text is
    searched as it is kept; between two texts in UTF-8 a match can only
    begin where a character begins. *)
Fixpoint replace_from (old new : string) (skip : nat) (s : string) : string :=
  match s with
  | EmptyString => EmptyString
  | String c s' =>
      match skip with
      | S k => replace_from old new k s'
      | O =>
          if prefix old s
          then new +++ replace_from old new (String.length old - 1) s'
          else String c (replace_from old new 0 s')
      end
  end.
Definition replace (old new s : string) : string := replace_from old new 0 s.

Section Saving.

(** [str(Path(pdf_path).parent / f"{Path(pdf_path).stem}{suffix}")]. *)
Variable beside : string -> string -> string.
(** [doc_redacted.save(path, ...)] and [doc_highlighted.save(path, ...)]. *)
Variable save_redacted save_highlighted : string -> result unit.
(** The name of [tempfile.NamedTemporaryFile(suffix='_redacted.pdf', delete=False)]. *)
Variable named_temporary_file : result string.

(** Lines 67-73, the [try]: the paths as they stand when it ends or raises. *)
Definition save_beside (pdf_path : string) (log : list event)
  : result (string * string) * list event :=
  let redacted_path := beside pdf_path "_redacted.pdf" in
  let highlighted_path := beside pdf_path "_highlighted.pdf" in
  match save_redacted redacted_path with
  | Raise e => (Raise e, log)
  | Ok _ =>
      let log := log ++ [Saved redacted_path] in
      match save_highlighted highlighted_path with
      | Raise e => (Raise e, log)
      | Ok _ => (Ok (redacted_path, highlighted_path), log ++ [Saved highlighted_path])
      end
  end.

(** Lines 75-84, the handler. *)
Definition save_in_temp (log : list event) : result (string * string) * list event :=
  match named_temporary_file with
  | Raise e => (Raise e, log)
  | Ok redacted_path =>
      let log := log ++ [TempFileCreated redacted_path] in
      let highlighted_path := replace "_redacted.pdf" "_highlighted.pdf" redacted_path in
      match save_redacted redacted_path with
      | Raise e => (Raise e, log)
      | Ok _ =>
          let log := log ++ [Saved redacted_path] in
          match save_highlighted highlighted_path with
          | Raise e => (Raise e, log)
          | Ok _ => (Ok (redacted_path, highlighted_path), log ++ [Saved highlighted_path])
          end
      end
  end.

(** Lines 66-94: [redacted_pdf_path] and [highlighted_pdf_path] of the
    summary, and the trace. *)
Definition save_documents (pdf_path : string) : result (string * string) * list event :=
  let saved :=
    match save_beside pdf_path [] with
    | (Ok paths, log) => (Ok paths, log)
    | (Raise e, log) => if is_Exception e then save_in_temp log else (Raise e, log)
    end in
  match saved with
  | (Ok paths, log) => (Ok paths, log ++ [ClosedRedacted; ClosedHighlighted])
  | (Raise e, log) => (Raise e, log)
  end.

End Saving.

End RedactorOutput.

(** ** server.py, lines 146-159: [save_base64_to_temp] *)

Module Base64Input.

(** What happens to the file system. *)
Inductive event : Type :=
| Created (name : string)
| Written (name data : string).

(** Lines 149-150: [if ',' in base64_data: base64_data =
    base64_data.split(',', 1)[1]]; under its guard the split has a second
    part. *)
Definition payload (base64_data : string) : string :=
  if contains "," base64_data then nth 1 (split1 "," base64_data) "" else base64_data.

Section SaveBase64.

(** [tempfile.NamedTemporaryFile(delete=False, suffix=suffix)], which makes
    the file and gives its name, [base64.b64decode] and [tmp.write]. *)
Variable named_temporary_file : string -> result string.
Variable b64decode : string -> result string.
Variable write : string -> string -> result unit.

(** Lines 146-159; the handler logs the exception and raises it again. *)
Definition save_base64_to_temp (base64_data suffix : string) : result string * list event :=
  let base64_data := payload base64_data in
  match named_temporary_file suffix with
  | Raise e => (Raise e, [])
  | Ok tmp =>
      match b64decode base64_data with
      | Raise e => (Raise e, [Created tmp])
      | Ok data =>
          match write tmp data with
          | Raise e => (Raise e, [Created tmp])
          | Ok _ => (Ok tmp, [Created tmp; Written tmp data])
          end
      end
  end.

End SaveBase64.

End Base64Input.

(** ** server.py, lines 83-90: [ProgressTracker.get_summary] *)

Module Progress.


(** The "progress" entry of an answer as [json.dumps] writes it. *)
Record summary : Type := {
  steps_completed : Z;
  steps_failed : Z;
  steps : list (string * string)
}.



End Progress.

(** ** Further vocabulary for the properties *)

(** What [for value in values] refuses: a value that is neither a list, a
    string nor a dict. *)
Definition not_iterable (v : pyval) : bool :=
  match v with PList _ | PStr _ | PDict _ => false | _ => true end.

(** What the report holds for one entry of the input. *)
Definition masked_item (kv : string * pyval) : string * pyval :=
  (fst kv, match snd kv with
           | PList l => PList (map DataProcessor.mask_value l)
           | v => v
           end).

(** The texts of the pages, one after the other. *)
Definition join_all (texts : list string) : string := fold_right String.append "" texts.

(** Sample file system for the saving step: the siblings of "/in/doc.pdf",
    a directory that cannot be written, and a temporary name. *)
Definition next_to_doc (pdf_path suffix : string) : string := "/in/doc" +++ suffix.
Definition outside_in_only (path : string) : result unit :=
  if prefix "/in/" path then Raise FitzError else Ok tt.
Definition any_path (path : string) : result unit := Ok tt.
Definition tmp_name : result string := Ok "/tmp/tmpab12_redacted.pdf".

(** Sample collaborators of [save_base64_to_temp]: temporary names, a decoder
    that refuses wrong padding, and a disk that takes everything. *)
Definition tmp_with (suffix : string) : result string := Ok ("/tmp/tmpq1" +++ suffix).
Definition padded_only (data : string) : result string :=
  if (String.length data mod 4 =? 0)%nat then Ok data else Raise ValueError.
Definition any_data (name data : string) : result unit := Ok tt.

(** A [save_base64_to_temp] that works. *)
Definition temp_store (data : string) : result string := Ok "/tmp/tmpq1.pdf".

(** [b] comes after [a] in a list and is not equal to it, by Python's [==]. *)
Definition differs_from_earlier (a b : pyval) : Prop := py_eq b a = false.

(* ================================================================== *)
(** * Part II: properties *)
(* ================================================================== *)

(** ** The embedding at work *)

Example split_first_at : split1 "@" "a@b@c" = ["a"; "b@c"].
Proof. reflexivity. Qed.

Example rsplit_last_dot : rsplit1 "." "mail.example.com" = ["mail.example"; "com"].
Proof. reflexivity. Qed.

Example rsplit_without_dot : rsplit1 "." "localhost" = ["localhost"].
Proof. reflexivity. Qed.

Example slice_last_of_short : slice_last "a" 2 = "a" /\ slice_last "abcde" 2 = "de".
Proof. split; reflexivity. Qed.

Example characters_not_bytes :
  len "José" = 4%Z /\ len "李明" = 2%Z /\ String.length "李明" = 6 /\
  slice_to "élan" 2 = "él" /\ slice_last "José" 2 = "sé" /\
  iterate (PStr "né") = Ok [PStr "n"; PStr "é"].
Proof. repeat split. Qed.

Example negative_repeat : str_mul "*" (len "abc" - 4) = "".
Proof. reflexivity. Qed.

Example str_of_negative_int : str_of_int (-120) = "-120".
Proof. reflexivity. Qed.

Example one_equals_true : py_eq (PInt 1) (PBool true) = true /\ py_eq (PInt 1) (PStr "1") = false.
Proof. split; reflexivity. Qed.

Example dict_assign_keeps_place :
  dict_set [("a", PInt 1); ("b", PInt 2)] "a" PNone = [("a", PNone); ("b", PInt 2)].
Proof. reflexivity. Qed.

Example trim_to_braces :
  OllamaLLM._fix_json_formatting OllamaLLM.unchanged OllamaLLM.unchanged OllamaLLM.unchanged
    "Sure! {}} bye" = "{}}".
Proof. reflexivity. Qed.

Example mask_long_example :
  DataProcessor.mask_value (PStr "1234567890") = PStr "12******90".
Proof. reflexivity. Qed.

Example mask_email_example :
  DataProcessor.mask_value (PStr "jane@example.com") = PStr "ja**@ex*****.com".
Proof. reflexivity. Qed.

(** ** Strings *)

Section StringFacts.

Lemma length_append (s t : string) :
  String.length (s +++ t) = String.length s + String.length t.
Proof. induction s as [|a s IH]; simpl; [reflexivity | now rewrite IH]. Qed.

Lemma length_replicate (c : ascii) (n : nat) : String.length (replicate c n) = n.
Proof. induction n as [|n IH]; simpl; [reflexivity | now rewrite IH]. Qed.

Lemma get_replicate (c : ascii) (n i : nat) :
  i < n -> String.get i (replicate c n) = Some c.
Proof.
  revert i; induction n as [|n IH]; intros i Hi; [lia|].
  destruct i as [|i]; simpl; [reflexivity | apply IH; lia].
Qed.

Lemma length_substring (s : string) (n m : nat) :
  n + m <= String.length s -> String.length (substring n m s) = m.
Proof.
  revert n m; induction s as [|a s IH]; intros n m H; simpl in H.
  - assert (n = 0) by lia; assert (m = 0) by lia; subst; reflexivity.
  - destruct n as [|n].
    + destruct m as [|m]; simpl; [reflexivity|]. rewrite IH; [reflexivity | lia].
    + simpl. apply IH. lia.
Qed.

Lemma substring_all (s : string) (m : nat) :
  String.length s <= m -> substring 0 m s = s.
Proof.
  revert m; induction s as [|a s IH]; intros m H.
  - destruct m; reflexivity.
  - destruct m as [|m]; simpl in *; [lia|]. rewrite IH; [reflexivity | lia].
Qed.

Lemma contains_append (c : ascii) (s t : string) :
  contains c (s +++ t) = contains c s || contains c t.
Proof.
  induction s as [|a s IH]; simpl; [reflexivity|].
  destruct (Ascii.eqb a c); [reflexivity | apply IH].
Qed.

Lemma contains_replicate (c : ascii) (n : nat) :
  contains c (replicate c n) = negb (n =? 0)%nat.
Proof. destruct n; simpl; [reflexivity | now rewrite Ascii.eqb_refl]. Qed.

Lemma contains_get (c : ascii) (s : string) (i : nat) :
  String.get i s = Some c -> contains c s = true.
Proof.
  revert i; induction s as [|a s IH]; intros i H; simpl in *; [discriminate|].
  destruct i as [|i].
  - injection H as ->. now rewrite Ascii.eqb_refl.
  - destruct (Ascii.eqb a c); [reflexivity | eapply IH; eassumption].
Qed.

(** [s.split(c, 1)] finds the first [c] whenever [c in s]. *)
Lemma partition_first_contains (c : ascii) (s : string) :
  contains c s = true ->
  exists before after,
    partition_first c s = Some (before, after) /\ s = before +++ String c after.
Proof.
  induction s as [|a s IH]; simpl; [discriminate|].
  destruct (Ascii.eqb a c) eqn:E.
  - intros _. apply Ascii.eqb_eq in E; subst. now exists EmptyString, s.
  - intros H. destruct (IH H) as (b & r & Hp & Hs).
    rewrite Hp. exists (String a b), r. split; [reflexivity|]. simpl. now rewrite <- Hs.
Qed.

Lemma partition_last_spec (c : ascii) (s before after : string) :
  partition_last c s = Some (before, after) -> s = before +++ String c after.
Proof.
  revert before; induction s as [|a s IH]; intros before; simpl; [discriminate|].
  destruct (partition_last c s) as [[b r]|].
  - intros H; injection H as <- <-. simpl. now rewrite (IH b eq_refl).
  - destruct (Ascii.eqb a c) eqn:E; [|discriminate].
    intros H; injection H as <- <-. apply Ascii.eqb_eq in E. now subst.
Qed.

Lemma rsplit1_shape (c : ascii) (s : string) :
  (exists before after, rsplit1 c s = [before; after] /\ s = before +++ String c after)
  \/ rsplit1 c s = [s].
Proof.
  unfold rsplit1. destruct (partition_last c s) as [[b r]|] eqn:E.
  - left. exists b, r. split; [reflexivity | now apply partition_last_spec].
  - now right.
Qed.

Lemma len_nat (s : string) : len s = Z.of_nat (List.length (chars s)).
Proof. reflexivity. Qed.

Lemma str_mul_nat (c : ascii) (n : nat) : str_mul c (Z.of_nat n) = replicate c n.
Proof. unfold str_mul. now rewrite Nat2Z.id. Qed.

Lemma str_mul_sub (c : ascii) (n k : nat) :
  str_mul c (Z.of_nat n - Z.of_nat k) = replicate c (n - k).
Proof. unfold str_mul. f_equal. lia. Qed.

End StringFacts.

(** ** Characters *)

Section CharFacts.

Lemma chars_step (c c' : ascii) (s : string) :
  chars (String c (String c' s))
  = if is_continuation c'
    then match chars (String c' s) with
         | following :: rest => String c following :: rest
         | [] => [String c EmptyString]
         end
    else String c EmptyString :: chars (String c' s).
Proof. reflexivity. Qed.

Lemma chars_cons (c : ascii) (s : string) :
  exists following rest, chars (String c s) = String c following :: rest.
Proof.
  destruct s as [|c' s]; [exists EmptyString, nil; reflexivity|].
  rewrite chars_step. destruct (is_continuation c').
  - destruct (chars (String c' s)) as [|f r];
      [exists EmptyString, nil | exists f, r]; reflexivity.
  - exists EmptyString, (chars (String c' s)). reflexivity.
Qed.

Lemma chars_nil (s : string) : chars s = [] -> s = "".
Proof.
  destruct s as [|c s]; [reflexivity|].
  destruct (chars_cons c s) as (f & r & ->). discriminate.
Qed.

Lemma join_chars (s : string) : join (chars s) = s.
Proof.
  induction s as [|c s IH]; [reflexivity|].
  destruct s as [|c' s]; [reflexivity|].
  rewrite chars_step. destruct (is_continuation c').
  - destruct (chars (String c' s)) as [|f r] eqn:E.
    + apply chars_nil in E. discriminate.
    + change (join (String c f :: r)) with (String c (join (f :: r))). now rewrite IH.
  - change (join (String c "" :: chars (String c' s)))
      with (String c (join (chars (String c' s)))).
    now rewrite IH.
Qed.

Lemma chars_inj (s t : string) : chars s = chars t -> s = t.
Proof. intros H. rewrite <- (join_chars s), <- (join_chars t). now rewrite H. Qed.

Lemma chars_app (s t : string) :
  starts_char t = true -> chars (s +++ t) = chars s ++ chars t.
Proof.
  intros Ht. induction s as [|c s IH]; [reflexivity|].
  destruct s as [|c' s].
  - simpl append. destruct t as [|d t]; [reflexivity|].
    rewrite chars_step. simpl in Ht. apply negb_true_iff in Ht. now rewrite Ht.
  - change (String c (String c' s) +++ t) with (String c (String c' (s +++ t))).
    rewrite !chars_step. change (String c' (s +++ t)) with (String c' s +++ t). rewrite IH.
    destruct (is_continuation c'); [|reflexivity].
    destruct (chars_cons c' s) as (f & r & ->). reflexivity.
Qed.

Lemma chars_replicate (c : ascii) (n : nat) :
  is_continuation c = false -> chars (replicate c n) = repeat (String c "") n.
Proof.
  intros Hc. induction n as [|n IH]; [reflexivity|].
  cbn [replicate repeat]. destruct n as [|n]; [reflexivity|].
  cbn [replicate] in *. rewrite chars_step, Hc. now rewrite IH.
Qed.

Lemma chars_char_list (s : string) : char_list (chars s).
Proof.
  unfold char_list. induction s as [|c s IH]; [split; constructor|].
  destruct s as [|c' s]; [split; repeat constructor|].
  destruct IH as [IH1 IH2].
  destruct (chars_cons c' s) as (f & r & E).
  rewrite chars_step. rewrite E in *. cbn [tl] in IH2.
  inversion IH1 as [|x xs Hf Hr]; subst.
  destruct (is_continuation c') eqn:Hc.
  - split; [|exact IH2]. constructor; [|exact Hr].
    rewrite chars_step, Hc, Hf. reflexivity.
  - split.
    + constructor; [reflexivity | exact IH1].
    + cbn [tl]. constructor; [simpl; now rewrite Hc | exact IH2].
Qed.

Lemma chars_join (l : list string) : char_list l -> chars (join l) = l.
Proof.
  unfold char_list. induction l as [|ch l IH]; [reflexivity|].
  intros [H1 H2]. inversion H1 as [|x xs Hch Hl]; subst. cbn [tl] in H2.
  cbn [join fold_right]. fold (join l). rewrite chars_app.
  - rewrite Hch, IH; [reflexivity|]. split; [exact Hl|].
    destruct l; [constructor | now inversion H2].
  - destruct l as [|ch' l]; [reflexivity|].
    inversion H2 as [|x xs Hs _]; subst. inversion Hl as [|x xs Hc' _]; subst.
    destruct ch' as [|d ch']; [discriminate Hc' | exact Hs].
Qed.

Lemma Forall_firstn {A} (P : A -> Prop) (k : nat) (l : list A) :
  Forall P l -> Forall P (firstn k l).
Proof.
  revert k; induction l as [|a l IH]; intros k H; [destruct k; constructor|].
  destruct k as [|k]; [constructor|]. inversion H; subst. constructor; auto.
Qed.

Lemma Forall_skipn {A} (P : A -> Prop) (k : nat) (l : list A) :
  Forall P l -> Forall P (skipn k l).
Proof.
  revert k; induction l as [|a l IH]; intros k H; [destruct k; constructor|].
  destruct k as [|k]; [exact H|]. inversion H; subst. simpl. auto.
Qed.

Lemma char_list_firstn (l : list string) (k : nat) : char_list l -> char_list (firstn k l).
Proof.
  unfold char_list. intros [H1 H2]. split; [now apply Forall_firstn|].
  destruct k as [|k]; [constructor|]. destruct l as [|ch l]; [constructor|].
  cbn [firstn tl] in *. now apply Forall_firstn.
Qed.

Lemma char_list_skipn (l : list string) (k : nat) : char_list l -> char_list (skipn k l).
Proof.
  unfold char_list. intros [H1 H2]. split; [now apply Forall_skipn|].
  destruct l as [|ch l]; [destruct k; constructor|].
  cbn [tl] in H2. destruct k as [|k]; [exact H2|].
  cbn [skipn]. destruct (skipn k l) as [|x xs] eqn:E; [constructor|].
  cbn [tl]. assert (Hx : Forall (fun ch => starts_char ch = true) (x :: xs)).
  { rewrite <- E. now apply Forall_skipn. }
  now inversion Hx.
Qed.

Lemma chars_slice_to (s : string) (k : nat) : chars (slice_to s k) = firstn k (chars s).
Proof. apply chars_join, char_list_firstn, chars_char_list. Qed.

Lemma chars_slice_last (s : string) (k : nat) :
  chars (slice_last s k) = skipn (List.length (chars s) - k) (chars s).
Proof. apply chars_join, char_list_skipn, chars_char_list. Qed.

Lemma join_app (l1 l2 : list string) : join (l1 ++ l2) = join l1 +++ join l2.
Proof.
  induction l1 as [|x l1 IH]; [reflexivity|].
  simpl. fold (join (l1 ++ l2)) (join l1). rewrite IH.
  induction x as [|c x IHx]; [reflexivity | simpl; now rewrite IHx].
Qed.

Lemma slice_to_rest (s : string) (k : nat) :
  s = slice_to s k +++ join (skipn k (chars s)).
Proof.
  unfold slice_to. rewrite <- join_app, firstn_skipn. symmetry. apply join_chars.
Qed.

(** What follows the first characters of a text begins a character. *)
Lemma starts_char_skipn (s : string) (k : nat) :
  0 < k -> starts_char (join (skipn k (chars s))) = true.
Proof.
  intros Hk. destruct (chars_char_list s) as [H1 H2].
  destruct (chars s) as [|ch l]; [now destruct k|].
  destruct k as [|k]; [lia|]. cbn [skipn tl] in *.
  destruct (skipn k l) as [|x xs] eqn:E; [reflexivity|].
  assert (Hx : Forall (fun ch => starts_char ch = true) (x :: xs))
    by (rewrite <- E; now apply Forall_skipn).
  assert (Hc : Forall (fun ch => chars ch = [ch]) (x :: xs)).
  { rewrite <- E. apply Forall_skipn. now inversion H1. }
  inversion Hx as [|? ? Hs _]; subst. inversion Hc as [|? ? Hc' _]; subst.
  destruct x as [|d x]; [discriminate Hc' | exact Hs].
Qed.

Lemma len_app (s t : string) : starts_char t = true -> len (s +++ t) = (len s + len t)%Z.
Proof. intros H. unfold len. rewrite chars_app, length_app by exact H. lia. Qed.

Lemma length_chars_zero (s : string) : List.length (chars s) = 0 <-> s = "".
Proof.
  split; [|now intros ->]. intros H. apply chars_nil. now destruct (chars s).
Qed.

End CharFacts.

(** ** Dictionaries *)

Section DictFacts.

Lemma dict_get_set_same (d : pydict) (k : string) (v : pyval) :
  dict_get (dict_set d k v) k = Some v.
Proof.
  induction d as [|[k0 w] d IH]; simpl.
  - now rewrite String.eqb_refl.
  - destruct (String.eqb k0 k) eqn:E; simpl; rewrite E; [reflexivity | apply IH].
Qed.

Lemma dict_get_set_other (d : pydict) (k k' : string) (v : pyval) :
  k <> k' -> dict_get (dict_set d k v) k' = dict_get d k'.
Proof.
  intros Hne. induction d as [|[k0 w] d IH]; simpl.
  - destruct (String.eqb k k') eqn:E; [apply String.eqb_eq in E; contradiction | reflexivity].
  - destruct (String.eqb k0 k) eqn:E; simpl.
    + apply String.eqb_eq in E; subst k0.
      destruct (String.eqb k k') eqn:E'; [|reflexivity].
      apply String.eqb_eq in E'; contradiction.
    + now rewrite IH.
Qed.

Lemma dict_get_absent (d : pydict) (k : string) :
  ~ In k (map fst d) -> dict_get d k = None.
Proof.
  induction d as [|[k0 w] d IH]; simpl; [reflexivity|].
  intros H. destruct (String.eqb k0 k) eqn:E.
  - apply String.eqb_eq in E. tauto.
  - apply IH. tauto.
Qed.

Lemma map_fst_dict_set_absent (d : pydict) (k : string) (v : pyval) :
  ~ In k (map fst d) -> map fst (dict_set d k v) = map fst d ++ [k].
Proof.
  induction d as [|[k0 w] d IH]; simpl; [reflexivity|].
  intros H. destruct (String.eqb k0 k) eqn:E.
  - apply String.eqb_eq in E. tauto.
  - simpl. rewrite IH; [reflexivity | tauto].
Qed.

End DictFacts.

(** ** The masking reporter *)

Section MaskFacts.

Import DataProcessor.

Lemma mask_loop_get (items acc : pydict) :
  unique_keys items -> list_valued items ->
  exists masked,
    mask_loop items acc = Ok masked /\
    (forall k l, dict_get items k = Some (PList l) ->
                 dict_get masked k = Some (PList (map mask_value l))) /\
    (forall k, dict_get items k = None -> dict_get masked k = dict_get acc k).
Proof.
  revert acc; induction items as [|[k0 v0] items IH]; intros acc Hu Hl.
  - exists acc. split; [reflexivity|]. split; [discriminate | reflexivity].
  - inversion Hl as [|x xs Hv Hrest]; subst. simpl in Hv.
    inversion Hu as [|x xs Hnotin Hnodup]; subst.
    destruct v0 as [| | | | |l0|]; try discriminate.
    destruct (IH (dict_set acc k0 (PList (map mask_value l0))) Hnodup Hrest)
      as (masked & Hm & Hsome & Hnone).
    exists masked. split; [exact Hm|]. split.
    + intros k l. simpl. destruct (String.eqb k0 k) eqn:E.
      * apply String.eqb_eq in E; subst k0. intros H; injection H as <-.
        rewrite Hnone by now apply dict_get_absent.
        apply dict_get_set_same.
      * apply Hsome.
    + intros k. simpl. destruct (String.eqb k0 k) eqn:E; [discriminate|].
      intros H. rewrite (Hnone k H). apply dict_get_set_other.
      intros ->. now rewrite String.eqb_refl in E.
Qed.

(** The report of a CategoryMap holds, entry for entry, [mask_value] of what
    the map holds. *)
Lemma masked_entry_spec (data : pydict) (category : string) (i : nat) (v : pyval) :
  unique_keys data -> list_valued data ->
  entry data category i = Some v ->
  masked_entry data category i = Some (mask_value v).
Proof.
  intros Hu Hl He. unfold masked_entry, mask_sensitive_data.
  destruct (mask_loop_get data [] Hu Hl) as (masked & -> & Hsome & _).
  unfold entry in *. destruct (dict_get data category) as [[| | | | |l|]|] eqn:G;
    try discriminate.
  rewrite (Hsome _ _ G). rewrite nth_error_map, He. reflexivity.
Qed.

Lemma partition_first_spec (c : ascii) (s before after : string) :
  partition_first c s = Some (before, after) -> s = before +++ String c after.
Proof.
  revert before; induction s as [|a s IH]; intros before; simpl; [discriminate|].
  destruct (Ascii.eqb a c) eqn:E.
  - intros H; injection H as <- <-. apply Ascii.eqb_eq in E. now subst.
  - destruct (partition_first c s) as [[b r]|]; [|discriminate].
    intros H; injection H as <- <-. simpl. now rewrite (IH b eq_refl).
Qed.

Lemma partition_first_notin (c : ascii) (s before after : string) :
  partition_first c s = Some (before, after) -> contains c before = false.
Proof.
  revert before; induction s as [|a s IH]; intros before; simpl; [discriminate|].
  destruct (Ascii.eqb a c) eqn:E.
  - intros H; injection H as <- <-. reflexivity.
  - destruct (partition_first c s) as [[b r]|]; [|discriminate].
    intros H; injection H as <- <-. simpl. rewrite E. now apply IH.
Qed.

Lemma partition_last_notin (c : ascii) (s before after : string) :
  partition_last c s = Some (before, after) -> contains c after = false.
Proof.
  revert before; induction s as [|a s IH]; intros before; simpl; [discriminate|].
  destruct (partition_last c s) as [[b r]|] eqn:P.
  - intros H; injection H as <- <-. now apply (IH b).
  - destruct (Ascii.eqb a c); [|discriminate].
    intros H; injection H as <- <-.
    clear IH. induction s as [|a' s IH]; [reflexivity|].
    simpl in *. destruct (partition_last c s) as [[b r]|]; [discriminate|].
    destruct (Ascii.eqb a' c); [discriminate | now apply IH].
Qed.

Lemma partition_last_absent (c : ascii) (s : string) :
  partition_last c s = None -> contains c s = false.
Proof.
  induction s as [|a s IH]; simpl; [reflexivity|].
  destruct (partition_last c s) as [[b r]|]; [discriminate|].
  destruct (Ascii.eqb a c); [discriminate | now intros _; apply IH].
Qed.

Lemma partition_first_at (c : ascii) (before after : string) :
  contains c before = false ->
  partition_first c (before +++ String c after) = Some (before, after).
Proof.
  induction before as [|a before IH]; simpl.
  - intros _. now rewrite Ascii.eqb_refl.
  - destruct (Ascii.eqb a c); [discriminate|]. intros H. now rewrite IH.
Qed.

Lemma partition_last_at (c : ascii) (before after : string) :
  contains c after = false ->
  partition_last c (before +++ String c after) = Some (before, after).
Proof.
  intros Hafter.
  assert (Hnone : partition_last c after = None).
  { clear before. induction after as [|a after IH]; simpl in *; [reflexivity|].
    destruct (Ascii.eqb a c); [discriminate|]. now rewrite IH. }
  induction before as [|a before IH]; simpl.
  - now rewrite Hnone, Ascii.eqb_refl.
  - now rewrite IH.
Qed.

Lemma contains_replicate_other (c d : ascii) (n : nat) :
  Ascii.eqb d c = false -> contains c (replicate d n) = false.
Proof. intros H. induction n as [|n IH]; simpl; [reflexivity | now rewrite H]. Qed.

Lemma starts_char_replicate (c : ascii) (n : nat) :
  is_continuation c = false -> starts_char (replicate c n) = true.
Proof. intros H. destruct n; simpl; [reflexivity | now rewrite H]. Qed.

Lemma starts_char_app (s t : string) :
  starts_char (s +++ t) = if String.eqb s "" then starts_char t else starts_char s.
Proof. destruct s; reflexivity. Qed.

(** What a slice holds, the text holds. *)
Lemma contains_slice_to (c : ascii) (s : string) (k : nat) :
  contains c s = false -> contains c (slice_to s k) = false.
Proof.
  intros H. rewrite (slice_to_rest s k), contains_append in H.
  now apply orb_false_iff in H.
Qed.

Lemma all_stars_is_repeat (n : nat) : all_stars (repeat "*" n) = true.
Proof. induction n; [reflexivity | exact IHn]. Qed.

Lemma all_stars_repeat (l : list string) :
  all_stars l = true <-> l = repeat "*" (List.length l).
Proof.
  split.
  - unfold all_stars. intros H. apply Forall_eq_repeat. rewrite forallb_forall in H.
    apply Forall_forall. intros x Hx. apply String.eqb_eq, H, Hx.
  - intros E. rewrite E. apply all_stars_is_repeat.
Qed.

(** Lines 57-60 and 65-68 in terms of characters. *)
Lemma mask_head_shape (part : string) : keeps_head part (mask_head part).
Proof.
  unfold keeps_head, mask_head. rewrite len_nat. cbv zeta.
  set (n := List.length (chars part)).
  destruct (Nat.leb_spec n 2) as [H | H].
  - destruct (Z.leb_spec (Z.of_nat n) 2); [|lia].
    rewrite str_mul_nat. now apply chars_replicate.
  - destruct (Z.leb_spec (Z.of_nat n) 2); [lia|].
    change 2%Z with (Z.of_nat 2). rewrite str_mul_sub.
    rewrite chars_app by now apply starts_char_replicate.
    rewrite chars_slice_to. f_equal. now apply chars_replicate.
Qed.

Lemma len_mask_head (part : string) : len (mask_head part) = len part.
Proof.
  unfold len. f_equal. rewrite (mask_head_shape part). cbv zeta.
  set (n := List.length (chars part)).
  destruct (Nat.leb_spec n 2) as [H | H]; [apply repeat_length|].
  rewrite length_app, repeat_length, length_firstn. fold n. lia.
Qed.

(** A masked part shows an asterisk unless the part is empty. *)
Lemma mask_head_star (part : string) :
  contains "*" (mask_head part) = negb (String.eqb part "").
Proof.
  assert (Hn : (List.length (chars part) =? 0)%nat = String.eqb part "").
  { destruct (String.eqb_spec part "") as [-> | Hne]; [reflexivity|].
    apply Nat.eqb_neq. intros H. now apply length_chars_zero in H. }
  unfold mask_head. rewrite len_nat.
  destruct (Z.leb_spec (Z.of_nat (List.length (chars part))) 2).
  - rewrite str_mul_nat, contains_replicate. now rewrite Hn.
  - rewrite contains_append. change 2%Z with (Z.of_nat 2). rewrite str_mul_sub.
    rewrite contains_replicate, <- Hn.
    replace (List.length (chars part) - 2 =? 0)%nat with false
      by (symmetry; apply Nat.eqb_neq; lia).
    replace (List.length (chars part) =? 0)%nat with false
      by (symmetry; apply Nat.eqb_neq; lia).
    apply orb_true_r.
Qed.

(** A masked part holds no character that the part does not hold, the
    asterisk apart. *)
Lemma mask_head_holds (c : ascii) (part : string) :
  Ascii.eqb "*" c = false -> contains c part = false ->
  contains c (mask_head part) = false.
Proof.
  intros Hc Hp. unfold mask_head, str_mul.
  destruct (len part <=? 2)%Z; [now apply contains_replicate_other|].
  rewrite contains_append, contains_slice_to by exact Hp.
  now apply contains_replicate_other.
Qed.

(** A part is its own masked form when the characters to be starred are
    asterisks already. *)
Lemma mask_head_fixed (part : string) :
  mask_head part = part <-> head_is_masked part = true.
Proof.
  pose proof (mask_head_shape part) as Hs. unfold keeps_head in Hs. cbv zeta in Hs.
  unfold head_is_masked. cbv zeta.
  set (cs := chars part) in *. set (n := List.length cs) in *.
  destruct (Nat.leb_spec n 2) as [H | H].
  - rewrite all_stars_repeat. fold n. split.
    + intros E. rewrite E in Hs. exact Hs.
    + intros E. apply chars_inj. fold cs. now rewrite Hs.
  - rewrite all_stars_repeat, length_skipn. fold n. split.
    + intros E. rewrite E in Hs. fold cs in Hs.
      rewrite <- (firstn_skipn 2 cs) in Hs at 1. now apply app_inv_head in Hs.
    + intros E. apply chars_inj. fold cs. rewrite Hs, <- E. apply firstn_skipn.
Qed.

(** Lines 73 and 79 on a value of four characters or more. *)
Lemma chars_mask_middle (v : string) :
  4 <= List.length (chars v) ->
  chars (mask_middle v)
  = firstn 2 (chars v) ++ repeat "*" (List.length (chars v) - 4)
    ++ skipn (List.length (chars v) - 2) (chars v).
Proof.
  intros Hlen. unfold mask_middle. rewrite len_nat.
  change 4%Z with (Z.of_nat 4). rewrite str_mul_sub.
  assert (Hlast : starts_char (slice_last v 2) = true)
    by (apply starts_char_skipn; lia).
  rewrite chars_app.
  - rewrite chars_app by exact Hlast.
    rewrite chars_slice_to, chars_slice_last. f_equal. f_equal. now apply chars_replicate.
  - rewrite starts_char_app.
    destruct (String.eqb _ ""); [exact Hlast | now apply starts_char_replicate].
Qed.

Lemma mask_middle_shape (v : string) :
  4 <= List.length (chars v) -> keeps_ends_stars_middle v (mask_middle v).
Proof.
  intros Hlen. unfold keeps_ends_stars_middle. cbv zeta.
  rewrite (chars_mask_middle v Hlen).
  set (cs := chars v) in *. set (n := List.length cs) in *.
  assert (L1 : List.length (firstn 2 cs) = 2) by (rewrite length_firstn; fold n; lia).
  assert (L2 : List.length (repeat "*" (n - 4)) = n - 4) by apply repeat_length.
  assert (L3 : List.length (skipn (n - 2) cs) = 2) by (rewrite length_skipn; fold n; lia).
  repeat split.
  - rewrite !length_app, L1, L2, L3. lia.
  - intros i Hi. rewrite nth_error_app1 by lia. rewrite nth_error_firstn.
    destruct (Nat.ltb_spec i 2); [reflexivity | lia].
  - intros i Hi. rewrite nth_error_app2 by lia. rewrite nth_error_app2 by lia.
    rewrite nth_error_skipn, L1, L2. f_equal. lia.
  - intros i Hi. rewrite nth_error_app2 by lia. rewrite nth_error_app1 by lia.
    apply nth_error_repeat. lia.
Qed.

(** A value of five characters or more is its own general mask when all that
    lies between its first two and last two characters is asterisks. *)
Lemma mask_middle_fixed (v : string) :
  4 <= List.length (chars v) ->
  (mask_middle v = v
   <-> all_stars (firstn (List.length (chars v) - 4) (skipn 2 (chars v))) = true).
Proof.
  intros Hlen. pose proof (chars_mask_middle v Hlen) as Hs.
  set (cs := chars v) in *. set (n := List.length cs) in *.
  assert (Hsplit : cs = firstn 2 cs ++ firstn (n - 4) (skipn 2 cs) ++ skipn (n - 2) cs).
  { rewrite <- (firstn_skipn 2 cs) at 1. f_equal.
    rewrite <- (firstn_skipn (n - 4) (skipn 2 cs)) at 1. f_equal.
    rewrite skipn_skipn. f_equal. lia. }
  assert (Hmid : List.length (firstn (n - 4) (skipn 2 cs)) = n - 4).
  { rewrite length_firstn, length_skipn. fold n. lia. }
  rewrite all_stars_repeat, Hmid. split.
  - intros E. rewrite E in Hs. fold cs in Hs. rewrite Hsplit in Hs at 1.
    apply app_inv_head, app_inv_tail in Hs. exact Hs.
  - intros E. apply chars_inj. fold cs. rewrite Hs.
    etransitivity; [|symmetry; exact Hsplit]. now rewrite E.
Qed.

(** The general masking of lines 76-79 on a value of three characters or
    more: when it gives the value back. *)
Lemma mask_general_fixed (v : string) :
  3 <= List.length (chars v) ->
  (mask_general v = v
   <-> (if (List.length (chars v) <=? 4)%nat then all_stars (chars v)
        else all_stars (firstn (List.length (chars v) - 4) (skipn 2 (chars v)))) = true).
Proof.
  intros Hlen. unfold mask_general. rewrite len_nat.
  destruct (Nat.leb_spec (List.length (chars v)) 4) as [H | H].
  - destruct (Z.leb_spec (Z.of_nat (List.length (chars v))) 4); [|lia].
    rewrite str_mul_nat, all_stars_repeat.
    pose proof (chars_replicate "*" (List.length (chars v)) eq_refl) as Hr. split.
    + intros E. now rewrite E in Hr.
    + intros E. apply chars_inj. now rewrite Hr.
  - destruct (Z.leb_spec (Z.of_nat (List.length (chars v))) 4); [lia|].
    apply mask_middle_fixed. lia.
Qed.

(** The email branch raises nothing of its own: a value that holds an [@]
    splits in two, and the domain is only unpacked when it split in two.
    What it returns is the masked part before the first [@], the [@], and
    the domain masked around its last dot. *)
Lemma mask_email_spec (value : string) :
  contains "@" value = true ->
  exists username domain,
    partition_first "@" value = Some (username, domain) /\
    value = username +++ "@" +++ domain /\
    contains "@" username = false /\
    mask_email value
    = Ok (mask_head username +++ "@" +++
          match partition_last "." domain with
          | Some (domain_name, tld) => mask_head domain_name +++ "." +++ tld
          | None => slice_to domain 2 +++ "***"
          end).
Proof.
  intros H. unfold mask_email, split1, rsplit1.
  destruct (partition_first_contains _ _ H) as (username & domain & Hp & Hv).
  rewrite Hp. exists username, domain.
  split; [reflexivity|]. split; [exact Hv|].
  split; [exact (partition_first_notin _ _ _ _ Hp)|].
  simpl. destruct (partition_last "." domain) as [[domain_name tld]|]; reflexivity.
Qed.

Lemma mask_email_returns (value : string) :
  contains "@" value = true -> exists masked, mask_email value = Ok masked.
Proof.
  intros H. destruct (mask_email_spec value H) as (u & d & _ & _ & _ & Hm). eauto.
Qed.

(** So the handler of line 73 never runs on a string. *)
Lemma email_handler_never_runs (value : string) (handler : exn -> string) :
  contains "@" value = true ->
  exists masked, mask_email value = Ok masked /\ try_except (mask_email value) handler = masked.
Proof.
  intros H. destruct (mask_email_returns value H) as (masked & Hm).
  exists masked. now rewrite Hm.
Qed.

Lemma partition_last_spec' (c : ascii) (s before after : string) :
  partition_last c s = Some (before, after) ->
  s = before +++ String c after /\ contains c after = false.
Proof.
  intros H. split; [now apply partition_last_spec | now apply (partition_last_notin c s before)].
Qed.

(** The email branch gives a value back when its two masked parts are the
    parts themselves; a domain without dot must be two characters and three
    asterisks. *)
Lemma mask_email_fixed (value masked : string) :
  looks_like_email value = true ->
  mask_email value = Ok masked ->
  (masked = value <-> already_masked value = true).
Proof.
  intros Hmail Hm. unfold already_masked. rewrite Hmail.
  apply andb_true_iff in Hmail as [Hat _].
  destruct (mask_email_spec value Hat) as (u & d & Hp & Hv & Hu & Hm').
  set (x := match partition_last "." d with
            | Some (domain_name, tld) => mask_head domain_name +++ "." +++ tld
            | None => slice_to d 2 +++ "***"
            end) in Hm'.
  rewrite Hm in Hm'.
  assert (Em : masked = mask_head u +++ "@" +++ x) by congruence.
  clear Hm'. rewrite Em, Hp.
  assert (Hmu : contains "@" (mask_head u) = false) by now apply mask_head_holds.
  assert (Hparts : mask_head u +++ "@" +++ x = value <-> mask_head u = u /\ x = d).
  { split.
    - intros E. rewrite Hv in E.
      apply (f_equal (partition_first "@")) in E.
      change (mask_head u +++ "@" +++ x) with (mask_head u +++ String "@" x) in E.
      change (u +++ "@" +++ d) with (u +++ String "@" d) in E.
      rewrite !partition_first_at in E by assumption.
      injection E as E1 E2. now split.
    - intros [E1 E2]. now rewrite E1, E2, Hv. }
  rewrite Hparts, andb_true_iff, <- mask_head_fixed. subst x.
  destruct (partition_last "." d) as [[name tld]|] eqn:Pl.
  - destruct (partition_last_spec' _ _ _ _ Pl) as [Hd Htld].
    rewrite <- mask_head_fixed. split.
    + intros [E1 E2]. split; [exact E1|]. rewrite Hd in E2.
      apply (f_equal (partition_last ".")) in E2.
      change (mask_head name +++ "." +++ tld) with (mask_head name +++ String "." tld) in E2.
      rewrite !partition_last_at in E2 by assumption.
      now injection E2.
    + intros [E1 E2]. split; [exact E1|]. now rewrite E2, Hd.
  - assert (Hc : chars (slice_to d 2 +++ "***") = firstn 2 (chars d) ++ ["*"; "*"; "*"]).
    { rewrite chars_app by reflexivity. now rewrite chars_slice_to. }
    rewrite andb_true_iff, Nat.eqb_eq, all_stars_repeat, length_skipn.
    split.
    + intros [E1 E2]. split; [exact E1|]. rewrite E2 in Hc.
      assert (Hlen : List.length (chars d) = 5).
      { apply (f_equal (@List.length string)) in Hc.
        rewrite length_app, length_firstn in Hc. cbn [List.length] in Hc. lia. }
      split; [exact Hlen|]. rewrite Hlen. simpl.
      rewrite <- (firstn_skipn 2 (chars d)) in Hc at 1. now apply app_inv_head in Hc.
    + intros [E1 [Hlen E2]]. split; [exact E1|]. apply chars_inj.
      rewrite Hc. rewrite Hlen in E2. simpl in E2. rewrite <- E2. apply firstn_skipn.
Qed.

(** The email branch gives back a value without asterisk only for ["@." + tld]. *)
Lemma mask_email_star (value masked : string) :
  mask_email value = Ok masked -> contains "*" masked = false ->
  exists tld, value = "@." +++ tld.
Proof.
  unfold mask_email, split1.
  destruct (partition_first "@" value) as [[username domain]|] eqn:P; simpl; [|discriminate].
  apply partition_first_spec in P.
  destruct (rsplit1_shape "." domain) as [(name & tld & -> & Hd) | ->]; simpl.
  - intros H; injection H as <-.
    rewrite contains_append. simpl. rewrite contains_append, !mask_head_star.
    destruct (String.eqb_spec username ""); [|discriminate].
    destruct (String.eqb_spec name ""); [|discriminate].
    intros _. subst. now exists tld.
  - intros H; injection H as <-.
    rewrite contains_append. simpl. rewrite contains_append. simpl.
    rewrite !orb_true_r. discriminate.
Qed.

Lemma mask_general_star (value : string) :
  3 <= List.length (chars value) -> contains "*" (mask_general value) = true.
Proof.
  intros H. unfold mask_general, mask_middle. rewrite len_nat.
  destruct (Z.leb_spec (Z.of_nat (List.length (chars value))) 4).
  - rewrite str_mul_nat, contains_replicate.
    apply negb_true_iff, Nat.eqb_neq. lia.
  - rewrite !contains_append. change 4%Z with (Z.of_nat 4).
    rewrite str_mul_sub, contains_replicate.
    replace (List.length (chars value) - 4 =? 0)%nat with false
      by (symmetry; apply Nat.eqb_neq; lia).
    simpl. apply orb_true_r.
Qed.

Lemma mask_value_short (v : string) :
  (len v < 3)%Z -> mask_value (PStr v) = PStr v.
Proof.
  intros H. unfold mask_value.
  destruct (Z.ltb_spec (len v) 3); [reflexivity | lia].
Qed.

Lemma mask_value_long (v : string) :
  (3 <= len v)%Z ->
  mask_value (PStr v) =
    if looks_like_email v
    then PStr (try_except (mask_email v) (fun _ => mask_middle v))
    else PStr (mask_general v).
Proof.
  intros H. unfold mask_value.
  destruct (Z.ltb_spec (len v) 3); [lia | reflexivity].
Qed.

(** A value of three characters or more is reported as itself exactly when
    it is masked already. *)
Lemma mask_value_fixed (v : string) :
  (3 <= len v)%Z -> (mask_value (PStr v) = PStr v <-> already_masked v = true).
Proof.
  intros Hlen. rewrite (mask_value_long v Hlen).
  destruct (looks_like_email v) eqn:Hmail.
  - pose proof Hmail as Hat. apply andb_true_iff in Hat as [Hat _].
    destruct (mask_email_returns v Hat) as (masked & Hm). rewrite Hm. simpl.
    rewrite <- (mask_email_fixed v masked Hmail Hm).
    split; [now intros E; injection E | now intros ->].
  - unfold already_masked. rewrite Hmail. cbv zeta.
    rewrite <- mask_general_fixed by (unfold len in Hlen; lia).
    split; [now intros E; injection E | now intros ->].
Qed.

(** The email rule in the words of the specification. *)
Lemma mask_email_shape (v masked : string) :
  contains "@" v = true -> mask_email v = Ok masked -> email_masked v masked.
Proof.
  intros Hat Hm. destruct (mask_email_spec v Hat) as (u & d & _ & Hv & Hu & Hm').
  rewrite Hm in Hm'. assert (Em : masked = _) by (injection Hm'; intros E; exact E).
  clear Hm'. rewrite Em.
  exists u, d, (mask_head u). split; [exact Hv|]. split; [exact Hu|].
  split; [apply mask_head_shape|].
  destruct (partition_last "." d) as [[name tld]|] eqn:Pl.
  - left. destruct (partition_last_spec' _ _ _ _ Pl) as [Hd Htld].
    exists name, tld, (mask_head name).
    split; [exact Hd|]. split; [exact Htld|]. split; [apply mask_head_shape | reflexivity].
  - right. split; [now apply partition_last_absent | reflexivity].
Qed.

End MaskFacts.

(** *** The claims about masking *)

(** C1, as stated, fails: a value of one or two characters is reported in
    full, here the name ["Al"], and so is a longer value whose middle is
    asterisks already. *)
Lemma short_value_reported_in_full :
  ((1 <= len "Al")%Z /\
   entry [("names", PList [PStr "Al"])] "names" 0 = Some (PStr "Al") /\
   DataProcessor.mask_sensitive_data [("names", PList [PStr "Al"])]
     = Ok [("names", PList [PStr "Al"])] /\
   masked_entry [("names", PList [PStr "Al"])] "names" 0 = Some (PStr "Al")) /\
  ((1 <= len "ab***yz")%Z /\
   masked_entry [("ids", PList [PStr "ab***yz"])] "ids" 0 = Some (PStr "ab***yz")).
Proof. repeat split; discriminate. Qed.

(** C1, amended: in the report of a CategoryMap a value is reported as
    itself exactly when it is shorter than three characters or is masked
    already, every character the rule would replace being an asterisk; so a
    value of three characters or more that holds no asterisk and is not
    ["@."] followed by a suffix is never reported as itself. *)
Theorem masked_entry_differs_from_value
    (data : pydict) (category : string) (i : nat) (v : string) :
  unique_keys data -> list_valued data ->
  entry data category i = Some (PStr v) ->
  (masked_entry data category i = Some (PStr v)
   <-> (len v < 3)%Z \/ already_masked v = true) /\
  ((3 <= len v)%Z -> contains "*" v = false -> (forall tld, v <> "@." +++ tld) ->
   masked_entry data category i <> Some (PStr v)).
Proof.
  intros Hu Hl He.
  rewrite (masked_entry_spec _ _ _ _ Hu Hl He). split.
  - split.
    + intros Hm. destruct (Z.lt_ge_cases (len v) 3) as [|Hlong]; [now left|].
      right. apply (mask_value_fixed v Hlong). congruence.
    + intros [Hshort | Hmasked].
      * now rewrite mask_value_short.
      * destruct (Z.lt_ge_cases (len v) 3) as [Hshort | Hlong];
          [now rewrite mask_value_short|].
        f_equal. now apply (mask_value_fixed v Hlong).
  - intros Hlong Hstar Hshape Hm'.
    assert (Hm : DataProcessor.mask_value (PStr v) = PStr v) by congruence. clear Hm'.
    rewrite (mask_value_long _ Hlong) in Hm.
    destruct (DataProcessor.looks_like_email v) eqn:Hmail.
    + apply andb_true_iff in Hmail as [Hat _].
      destruct (mask_email_returns _ Hat) as (masked & Hok).
      rewrite Hok in Hm. simpl in Hm. injection Hm as Hm. subst masked.
      destruct (mask_email_star _ _ Hok Hstar) as (tld & Htld).
      exact (Hshape tld Htld).
    + injection Hm as Hm.
      pose proof (mask_general_star v ltac:(unfold len in Hlong; lia)) as Hc.
      rewrite Hm in Hc. congruence.
Qed.

Lemma masked_entry_differs_from_value_witness :
  (masked_entry [("names", PList [PStr "José"]); ("emails", PList [PStr "jane@example.com"])]
     "emails" 0 = Some (PStr "jane@example.com")
   <-> (len "jane@example.com" < 3)%Z \/ already_masked "jane@example.com" = true) /\
  ((3 <= len "jane@example.com")%Z -> contains "*" "jane@example.com" = false ->
   (forall tld, "jane@example.com" <> "@." +++ tld) ->
   masked_entry [("names", PList [PStr "José"]); ("emails", PList [PStr "jane@example.com"])]
     "emails" 0 <> Some (PStr "jane@example.com")).
Proof.
  apply (masked_entry_differs_from_value
           [("names", PList [PStr "José"]); ("emails", PList [PStr "jane@example.com"])]
           "emails" 0 "jane@example.com").
  - repeat constructor; simpl; intuition discriminate.
  - repeat constructor.
  - reflexivity.
Defined.

(** Values that are their own masked form: one of two characters that are
    six bytes, one that is masked already, one whose asterisk stands where
    the rule keeps a character and which is therefore not, and one whose
    local part and domain name are both empty. *)
Example two_wide_characters_pass_through :
  DataProcessor.mask_value (PStr "李明") = PStr "李明".
Proof. reflexivity. Qed.

Example starred_value_is_its_own_mask :
  DataProcessor.mask_value (PStr "ab***yz") = PStr "ab***yz" /\
  already_masked "ab***yz" = true.
Proof. split; reflexivity. Qed.

Example kept_asterisk_is_no_mask :
  DataProcessor.mask_value (PStr "a*bcdef") = PStr "a****ef" /\
  already_masked "a*bcdef" = false.
Proof. split; reflexivity. Qed.

Example bare_at_dot_value_is_its_own_mask :
  DataProcessor.mask_value (PStr "@.io") = PStr "@.io" /\ already_masked "@.io" = true.
Proof. split; reflexivity. Qed.

(** C3, as stated, fails: a value of two characters is not replaced by two
    asterisks, and a value of five characters with [@] and [.] in it does not
    keep its first two characters. *)
Lemma two_letter_value_not_starred :
  ((len "Al" <= 4)%Z /\
   masked_entry [("names", PList [PStr "Al"])] "names" 0 = Some (PStr "Al") /\
   "Al" <> str_mul "*" (len "Al")) /\
  ((4 < len "a@b.c")%Z /\
   masked_entry [("emails", PList [PStr "a@b.c"])] "emails" 0 = Some (PStr "*@*.c") /\
   slice_to "*@*.c" 2 <> slice_to "a@b.c" 2).
Proof. repeat split; discriminate. Qed.

(** C3, amended: in the report of a CategoryMap a value shorter than three
    characters is unchanged; a longer value that does not hold both [@] and
    [.] is all asterisks, as many as it has characters, when it has three or
    four, and otherwise keeps its first two and last two characters around
    asterisks that fill the gap exactly; a longer value that holds both is
    masked by the email rule. *)
Theorem general_masking_rule
    (data : pydict) (category : string) (i : nat) (v : string) :
  unique_keys data -> list_valued data ->
  entry data category i = Some (PStr v) ->
  exists w,
    masked_entry data category i = Some (PStr w) /\
    ((len v < 3)%Z -> w = v) /\
    (DataProcessor.looks_like_email v = false -> (3 <= len v <= 4)%Z ->
     w = str_mul "*" (len v)) /\
    (DataProcessor.looks_like_email v = false -> (4 < len v)%Z ->
     keeps_ends_stars_middle v w) /\
    (DataProcessor.looks_like_email v = true -> (3 <= len v)%Z -> email_masked v w).
Proof.
  intros Hu Hl He.
  rewrite (masked_entry_spec _ _ _ _ Hu Hl He).
  destruct (Z.lt_ge_cases (len v) 3) as [Hshort | Hlong].
  - exists v. rewrite mask_value_short by assumption.
    split; [reflexivity|]. repeat split; intros; lia || reflexivity.
  - rewrite (mask_value_long _ Hlong).
    destruct (DataProcessor.looks_like_email v) eqn:Hmail.
    + pose proof Hmail as Hat. apply andb_true_iff in Hat as [Hat _].
      destruct (mask_email_returns v Hat) as (masked & Hm). rewrite Hm. simpl.
      exists masked. split; [reflexivity|].
      split; [intros; lia|]. split; [discriminate|]. split; [discriminate|].
      intros _ _. now apply mask_email_shape.
    + exists (DataProcessor.mask_general v). split; [reflexivity|].
      split; [intros; lia|]. unfold DataProcessor.mask_general.
      destruct (Z.leb_spec (len v) 4) as [H4 | H4].
      * split; [|split; [intros; lia | discriminate]].
        intros _ _. reflexivity.
      * split; [intros; lia|]. split; [|discriminate].
        intros _ _. apply mask_middle_shape. unfold len in H4. lia.
Qed.

Lemma general_masking_rule_witness :
  exists w,
    masked_entry [("names", PList [PStr "José Álvarez"])] "names" 0 = Some (PStr w) /\
    ((len "José Álvarez" < 3)%Z -> w = "José Álvarez") /\
    (DataProcessor.looks_like_email "José Álvarez" = false ->
     (3 <= len "José Álvarez" <= 4)%Z -> w = str_mul "*" (len "José Álvarez")) /\
    (DataProcessor.looks_like_email "José Álvarez" = false -> (4 < len "José Álvarez")%Z ->
     keeps_ends_stars_middle "José Álvarez" w) /\
    (DataProcessor.looks_like_email "José Álvarez" = true -> (3 <= len "José Álvarez")%Z ->
     email_masked "José Álvarez" w).
Proof.
  apply (general_masking_rule [("names", PList [PStr "José Álvarez"])] "names" 0
           "José Álvarez").
  - repeat constructor; simpl; intuition.
  - repeat constructor.
  - reflexivity.
Defined.

Example accented_name_is_all_asterisks :
  DataProcessor.mask_value (PStr "José") = PStr "****" /\
  DataProcessor.mask_value (PStr "José Álvarez") = PStr "Jo********ez".
Proof. split; reflexivity. Qed.

Example email_value_keeps_no_tail :
  DataProcessor.mask_value (PStr "a@b.c") = PStr "*@*.c" /\
  DataProcessor.mask_value (PStr "é@b.c") = PStr "*@*.c".
Proof. split; reflexivity. Qed.

(** The expression of line 73 is the long-value line of the general rule
    alone: it agrees with the general rule on more than four characters, and
    not below. *)
Lemma handler_is_general_rule_on_long_values (v : string) :
  (4 < len v)%Z -> DataProcessor.mask_middle v = DataProcessor.mask_general v.
Proof.
  intros H. unfold DataProcessor.mask_general.
  destruct (Z.leb_spec (len v) 4); [lia | reflexivity].
Qed.

Example handler_expression_on_four_characters :
  DataProcessor.mask_middle "a@.b" = "a@.b" /\ DataProcessor.mask_general "a@.b" = "****".
Proof. split; reflexivity. Qed.

(** ** The sensitive-span detector *)

Section ValidationFacts.

Import OllamaLLM.
Variable float_repr : float -> string.

Lemma required_keys_distinct : NoDup required_keys.
Proof. repeat constructor; simpl; intuition discriminate. Qed.

Lemma validate_loop_spec (keys : list string) (data acc : pydict) :
  NoDup keys ->
  (forall k, In k keys -> ~ In k (map fst acc)) ->
  let validated := validate_loop float_repr keys data acc in
  map fst validated = map fst acc ++ keys /\
  (forall k, In k keys ->
     dict_get validated k
     = Some (validate_value float_repr (dict_get_default data k (PList [])))) /\
  (forall k, ~ In k keys -> dict_get validated k = dict_get acc k).
Proof.
  revert acc; induction keys as [|k0 keys IH]; intros acc Hnd Hfresh; simpl.
  - rewrite app_nil_r. repeat split; tauto.
  - inversion Hnd as [|x xs Hk0 Hnd']; subst.
    set (x := validate_value float_repr (dict_get_default data k0 (PList []))).
    assert (Hkeys : map fst (dict_set acc k0 x) = map fst acc ++ [k0]).
    { apply map_fst_dict_set_absent. apply Hfresh. now left. }
    destruct (IH (dict_set acc k0 x) Hnd') as (Hmap & Hin & Hout).
    { intros k Hk. rewrite Hkeys, in_app_iff. simpl.
      intros [H | [-> | []]]; [exact (Hfresh k (or_intror Hk) H) | contradiction]. }
    split; [|split].
    + rewrite Hmap, Hkeys, <- app_assoc. reflexivity.
    + intros k [<- | Hk].
      * rewrite (Hout k0 Hk0). apply dict_get_set_same.
      * apply Hin, Hk.
    + intros k Hk. simpl in Hk.
      rewrite Hout by tauto. apply dict_get_set_other. tauto.
Qed.

(** The keys of a validated map are the ten categories, in their order. *)
Lemma validate_structure_keys (data : pydict) :
  map fst (_validate_structure float_repr data) = required_keys.
Proof.
  apply (validate_loop_spec required_keys data [] required_keys_distinct).
  intros k _ [].
Qed.

End ValidationFacts.

(** C5, as stated, fails: a number given in place of a list is a single
    non-empty value, kept as ["42"] when it stands in a list, and the
    validated map holds an empty list for it. *)
Lemma bare_number_is_dropped :
  is_list (PInt 42) = false /\ truthy (PInt 42) = true /\
  dict_get (OllamaLLM._validate_structure OllamaLLM.sample_float_repr [("ids", PInt 42)]) "ids"
    = Some (PList []) /\
  dict_get (OllamaLLM._validate_structure OllamaLLM.sample_float_repr [("ids", PList [PInt 42])]) "ids"
    = Some (PList [PStr "42"]).
Proof. repeat split. Qed.

(** C5, amended: whatever object is validated, the keys of the result are
    exactly the ten categories and any other key is gone; under each
    category stands what validation makes of the value found there ([[]]
    when there is none): a list is filtered to its truthy entries that are
    strings or numbers ([True] counting as a number), each turned into its
    string; a non-empty string becomes the list of itself; anything else,
    a number included, becomes the empty list. *)
Theorem validate_structure_shape (float_repr : float -> string) (data : pydict) :
  let validated := OllamaLLM._validate_structure float_repr data in
  map fst validated = OllamaLLM.required_keys /\
  (forall key, ~ In key OllamaLLM.required_keys -> dict_get validated key = None) /\
  (forall key, In key OllamaLLM.required_keys ->
     exists strings,
       dict_get validated key = Some (PList (map PStr strings)) /\
       match dict_get_default data key (PList []) with
       | PList items =>
           strings = map (OllamaLLM.str_item float_repr) (filter OllamaLLM.keep_item items)
       | PStr s => strings = if String.eqb s "" then [] else [s]
       | _ => strings = []
       end).
Proof.
  pose proof (validate_loop_spec float_repr OllamaLLM.required_keys data []
                required_keys_distinct (fun k _ H => H)) as (Hkeys & Hin & Hout).
  cbv zeta. unfold OllamaLLM._validate_structure. split; [exact Hkeys|]. split.
  - intros key Hkey. exact (Hout key Hkey).
  - intros key Hkey. rewrite (Hin key Hkey).
    destruct (dict_get_default data key (PList [])) as [| | | |s|items|]; simpl;
      try (exists []; split; reflexivity).
    + destruct (String.eqb s "").
      * exists []; split; reflexivity.
      * exists [s]; split; reflexivity.
    + exists (map (OllamaLLM.str_item float_repr) (filter OllamaLLM.keep_item items)).
      split; [|reflexivity]. now rewrite map_map.
Qed.

Example validate_mixed_list :
  dict_get (OllamaLLM._validate_structure OllamaLLM.sample_float_repr
              [("names", PList [PStr "Bob"; PStr ""; PNone; PInt 0; PInt 7; PBool true;
                                PList [PStr "x"]]);
               ("color", PStr "red"); ("emails", PStr "b@x.io")]) "names"
  = Some (PList [PStr "Bob"; PStr "7"; PStr "True"]).
Proof. reflexivity. Qed.

Section DetectorFacts.

Import OllamaLLM.

Variable float_repr : float -> string.
Variable json_loads : string -> option pyval.
Variable strip : string -> string.
Variables search_code_block search_json_object : string -> option string.
Variables sub_trailing_commas sub_quoted_keys sub_quoted_values : string -> string.
Variable requests_post : string -> result http_response.

Local Abbreviation validate := (_validate_structure float_repr).
Local Abbreviation fix_json :=
  (_fix_json_formatting sub_trailing_commas sub_quoted_keys sub_quoted_values).
Local Abbreviation candidate := (find_candidate search_code_block search_json_object).
Local Abbreviation extract_body' :=
  (extract_body float_repr json_loads strip search_code_block search_json_object
     sub_trailing_commas sub_quoted_keys sub_quoted_values).
Local Abbreviation extract :=
  (_extract_and_fix_json float_repr json_loads strip search_code_block search_json_object
     sub_trailing_commas sub_quoted_keys sub_quoted_values).
Local Abbreviation detect_body' :=
  (detect_body float_repr json_loads strip search_code_block search_json_object
     sub_trailing_commas sub_quoted_keys sub_quoted_values requests_post).
Local Abbreviation detect :=
  (get_sensitive_data float_repr json_loads strip search_code_block search_json_object
     sub_trailing_commas sub_quoted_keys sub_quoted_values requests_post).
Local Abbreviation failure :=
  (detection_failure json_loads strip search_code_block search_json_object
     sub_trailing_commas sub_quoted_keys sub_quoted_values requests_post).

Lemma empty_structure_ten_keys : ten_keys _empty_structure.
Proof. reflexivity. Qed.

(** The body of [_extract_and_fix_json] raises at most [JSONDecodeError]
    or [AttributeError]. *)
Lemma extract_body_cases (response_text : pyval) :
  (exists data, extract_body' response_text = Ok data /\ ten_keys data)
  \/ extract_body' response_text = Raise JSONDecodeError
  \/ extract_body' response_text = Raise AttributeError.
Proof.
  unfold extract_body.
  destruct response_text as [| | | |text| |]; try (right; right; reflexivity).
  destruct (json_loads (strip text)) as [[| | | | | |data]|];
    try (left; eexists; split; [reflexivity | apply validate_structure_keys]);
    (destruct (candidate text) as [json_str|];
     [ destruct (json_loads (fix_json json_str)) as [[| | | | | |data]|];
       try (left; eexists; split; [reflexivity | apply empty_structure_ten_keys]);
       try (left; eexists; split; [reflexivity | apply validate_structure_keys]);
       right; left; reflexivity
     | left; eexists; split; [reflexivity | apply empty_structure_ten_keys] ]).
Qed.

Lemma extract_returns (response_text : pyval) :
  exists data, extract response_text = Ok data /\ ten_keys data.
Proof.
  unfold _extract_and_fix_json.
  destruct (extract_body_cases response_text) as [(data & -> & Hk) | [-> | ->]]; simpl.
  - now exists data.
  - exists _empty_structure. split; [reflexivity | apply empty_structure_ten_keys].
  - exists _empty_structure. split; [reflexivity | apply empty_structure_ten_keys].
Qed.

(** When no object is parsed directly and the candidate, if any, does not
    parse to an object either, the answer is the empty structure. *)
Lemma extract_nothing (answer : string) :
  (forall data, json_loads (strip answer) <> Some (PDict data)) ->
  (forall c, candidate answer = Some c ->
     forall data, json_loads (fix_json c) <> Some (PDict data)) ->
  extract (PStr answer) = Ok _empty_structure.
Proof.
  intros Hdirect Hcand. unfold _extract_and_fix_json, extract_body.
  assert (Hnone : match json_loads (strip answer) with
                  | Some (PDict data) => Some (validate data)
                  | _ => None
                  end = None).
  { destruct (json_loads (strip answer)) as [[| | | | | |data]|]; try reflexivity.
    now destruct (Hdirect data). }
  rewrite Hnone.
  destruct (candidate answer) as [c|] eqn:Hc; [|reflexivity].
  specialize (Hcand c eq_refl).
  destruct (json_loads (fix_json c)) as [[| | | | | |data]|]; try reflexivity.
  now destruct (Hcand data).
Qed.

(** What the body of [get_sensitive_data] can raise is raised by the
    library, or is the [AttributeError] of a [get] on a non-dict. *)
Lemma detect_body_cases (text : string) :
  (exists data, detect_body' text = Ok data /\ ten_keys data)
  \/ (exists e, detect_body' text = Raise e /\ requests_post text = Raise e)
  \/ (exists e response, detect_body' text = Raise e /\
        requests_post text = Ok response /\ json response = Raise e)
  \/ detect_body' text = Raise AttributeError.
Proof.
  unfold detect_body.
  destruct (requests_post text) as [response|e]; simpl; [|right; left; now exists e].
  destruct (negb (status_code response =? 200)%Z).
  { left. exists _empty_structure. split; [reflexivity | apply empty_structure_ten_keys]. }
  destruct (json response) as [result|e] eqn:J; simpl;
    [|right; right; left; now exists e, response].
  destruct result as [| | | | | |d]; simpl; try (right; right; right; reflexivity).
  destruct (dict_get_default d "response" (PStr "")) as [| | | |s|l|data] eqn:G;
    try (left; apply extract_returns).
  left. exists (validate data). split; [reflexivity | apply validate_structure_keys].
Qed.

(** Provided [requests] raises nothing but [Exception]s, one of the three
    handlers catches whatever the body raises. *)
Lemma detect_returns (text : string) :
  (forall e, requests_post text = Raise e -> is_Exception e = true) ->
  (forall response e, requests_post text = Ok response ->
                      json response = Raise e -> is_Exception e = true) ->
  exists data, detect text = Ok data /\ ten_keys data.
Proof.
  intros Hpost Hjson. unfold get_sensitive_data.
  destruct (detect_body_cases text)
    as [(data & -> & Hk) | [(e & -> & He) | [(e & r & -> & Hr & He) | ->]]].
  - now exists data.
  - exists _empty_structure. split; [|apply empty_structure_ten_keys].
    specialize (Hpost e He).
    destruct e; try reflexivity; discriminate.
  - exists _empty_structure. split; [|apply empty_structure_ten_keys].
    specialize (Hjson r e Hr He).
    destruct e; try reflexivity; discriminate.
  - exists _empty_structure. split; [reflexivity | apply empty_structure_ten_keys].
Qed.

Lemma detect_failure_empty (text : string) :
  failure text -> detect text = Ok _empty_structure.
Proof.
  intros Hfail. unfold get_sensitive_data, detect_body.
  destruct Hfail as [H | H | r H Hs | r body answer H Hs Hj Hg Hd Hc
                     | r body answer c parsed H Hs Hj Hg Hd Hc Hp Hn].
  - now rewrite H.
  - now rewrite H.
  - rewrite H. simpl.
    destruct (Z.eqb_spec (status_code r) 200); [contradiction | reflexivity].
  - rewrite H. simpl. rewrite Hs, Hj. simpl. rewrite Hg.
    rewrite extract_nothing; [reflexivity | exact Hd |].
    intros c Hcand data. rewrite (Hc c Hcand). discriminate.
  - rewrite H. simpl. rewrite Hs, Hj. simpl. rewrite Hg.
    rewrite extract_nothing; [reflexivity | exact Hd |].
    intros c' Hcand data. rewrite Hc in Hcand. injection Hcand as <-.
    rewrite Hp. intros E; injection E as ->. discriminate.
Qed.

(** C2: provided [requests] raises nothing but [Exception]s, the detector
    returns for every text, and what it returns has the ten keys; when the
    request times out, the endpoint is unreachable or answers with another
    status than 200, every parse attempt fails, or the value parsed last is
    not an object, it returns the empty structure, whose ten keys all map to
    the empty list. *)
Theorem get_sensitive_data_never_raises (text : string) :
  (forall e, requests_post text = Raise e -> is_Exception e = true) ->
  (forall response e, requests_post text = Ok response ->
                      json response = Raise e -> is_Exception e = true) ->
  (exists data, detect text = Ok data /\ ten_keys data) /\
  (failure text -> detect text = Ok _empty_structure) /\
  ten_keys _empty_structure /\
  Forall (fun kv => snd kv = PList []) _empty_structure.
Proof.
  intros Hpost Hjson. split; [|split; [|split]].
  - now apply detect_returns.
  - apply detect_failure_empty.
  - apply empty_structure_ten_keys.
  - repeat constructor.
Qed.

End DetectorFacts.

Lemma get_sensitive_data_never_raises_witness :
  (exists data,
     OllamaLLM.get_sensitive_data OllamaLLM.sample_float_repr OllamaLLM.no_json
       OllamaLLM.unchanged OllamaLLM.no_match OllamaLLM.no_match
       OllamaLLM.unchanged OllamaLLM.unchanged OllamaLLM.unchanged
       OllamaLLM.slow_endpoint "Jane Doe, jane@example.com" = Ok data /\
     ten_keys data) /\
  OllamaLLM.get_sensitive_data OllamaLLM.sample_float_repr OllamaLLM.no_json
    OllamaLLM.unchanged OllamaLLM.no_match OllamaLLM.no_match
    OllamaLLM.unchanged OllamaLLM.unchanged OllamaLLM.unchanged
    OllamaLLM.slow_endpoint "Jane Doe, jane@example.com" = Ok OllamaLLM._empty_structure.
Proof.
  destruct (get_sensitive_data_never_raises OllamaLLM.sample_float_repr OllamaLLM.no_json
              OllamaLLM.unchanged OllamaLLM.no_match OllamaLLM.no_match
              OllamaLLM.unchanged OllamaLLM.unchanged OllamaLLM.unchanged
              OllamaLLM.slow_endpoint "Jane Doe, jane@example.com")
    as (Hreturns & Hempty & _).
  - intros e H. injection H as <-. reflexivity.
  - intros response e H. discriminate H.
  - split; [exact Hreturns|]. apply Hempty. apply OllamaLLM.TimedOut. reflexivity.
Defined.

(** ** The value normalizer *)

Section FlattenFacts.

Import DataProcessor.

Lemma collect_values_spec (items : pydict) (all_values : list pyval) :
  collect_values items all_values = all_values ++ values_in_order items.
Proof.
  revert all_values; induction items as [|[k v] items IH]; intros all_values; simpl.
  - now rewrite app_nil_r.
  - destruct v; rewrite IH; try reflexivity. now rewrite app_assoc.
Qed.

Lemma category_map_literals (data : pydict) :
  category_map data -> forallb is_literal (values_in_order data) = true.
Proof.
  induction 1 as [|[k v] data (l & Hv & Hl) _ IH]; [reflexivity|].
  simpl in *. subst v. now rewrite forallb_app, Hl, IH.
Qed.

Lemma seen_strings (x : string) (u : list string) :
  existsb (py_eq (PStr x)) (map PStr u) = str_in x u.
Proof. unfold str_in. induction u as [|y u IH]; simpl; [reflexivity | now rewrite IH]. Qed.

Lemma filter_not_in_already (x : string) (u l : list string) :
  str_in x u = true ->
  filter (fun y => negb (str_in y u)) (filter (fun y => negb (String.eqb x y)) l)
  = filter (fun y => negb (str_in y u)) l.
Proof.
  intros Hx. induction l as [|y l IH]; simpl; [reflexivity|].
  destruct (String.eqb_spec x y) as [<- | Hne]; simpl.
  - now rewrite Hx.
  - now rewrite IH.
Qed.

Lemma existsb_rev {A} (f : A -> bool) (l : list A) : existsb f (rev l) = existsb f l.
Proof.
  induction l as [|a l IH]; simpl; [reflexivity|].
  rewrite existsb_app, IH. simpl. rewrite orb_false_r. apply orb_comm.
Qed.

Lemma str_in_snoc (y x : string) (u : list string) :
  str_in y (u ++ [x]) = str_in y u || String.eqb x y.
Proof.
  unfold str_in. rewrite existsb_app. simpl.
  now rewrite orb_false_r, (String.eqb_sym y x).
Qed.

Lemma filter_not_in_snoc (x : string) (u l : list string) :
  filter (fun y => negb (str_in y (u ++ [x]))) l
  = filter (fun y => negb (str_in y u)) (filter (fun y => negb (String.eqb x y)) l).
Proof.
  induction l as [|y l IH]; simpl; [reflexivity|].
  rewrite str_in_snoc, IH.
  destruct (String.eqb x y); simpl.
  - now rewrite orb_true_r.
  - now rewrite orb_false_r.
Qed.

(** The loop of lines 25-28, with [seen] holding what [unique_values] holds. *)
Lemma dedup_loop_spec (values : list pyval) (u : list string) :
  forallb is_literal values = true ->
  dedup_loop values (map PStr (rev u)) (map PStr u)
  = Ok (map PStr (u ++ filter (fun y => negb (str_in y u))
                         (first_occurrences (literal_strings values)))).
Proof.
  revert u; induction values as [|v values IH]; intros u Hlit; simpl.
  - now rewrite app_nil_r.
  - simpl in Hlit. apply andb_true_iff in Hlit as [Hv Hlit].
    destruct v as [| | | |x| |]; try discriminate; simpl.
    + apply IH, Hlit.
    + destruct (String.eqb_spec x "") as [-> | Hne]; simpl; [apply IH, Hlit|].
      rewrite seen_strings. unfold str_in at 1. rewrite existsb_rev.
      fold (str_in x u).
      destruct (str_in x u) eqn:Hin; simpl.
      * rewrite IH by exact Hlit. now rewrite filter_not_in_already.
      * change (PStr x :: map PStr (rev u)) with (map PStr (x :: rev u)).
        replace (x :: rev u) with (rev (u ++ [x])) by now rewrite rev_app_distr.
        replace (map PStr u ++ [PStr x]) with (map PStr (u ++ [x]))
          by now rewrite map_app.
        rewrite IH by exact Hlit. rewrite <- app_assoc. simpl.
        rewrite filter_not_in_snoc. reflexivity.
Qed.

Lemma first_occurrences_In (x : string) (l : list string) :
  In x (first_occurrences l) <-> In x l.
Proof.
  induction l as [|y l IH]; simpl; [tauto|].
  rewrite filter_In, IH. destruct (String.eqb_spec y x); intuition congruence.
Qed.

Lemma first_occurrences_NoDup (l : list string) : NoDup (first_occurrences l).
Proof.
  induction l as [|x l IH]; simpl; constructor.
  - rewrite filter_In, String.eqb_refl. simpl. intros [_ H]; discriminate.
  - now apply NoDup_filter.
Qed.

Lemma first_occurrences_fixed (l : list string) :
  NoDup l -> first_occurrences l = l.
Proof.
  induction 1 as [|x l Hx _ IH]; simpl; [reflexivity|].
  rewrite IH. f_equal. apply forallb_filter_id, forallb_forall.
  intros y Hy. destruct (String.eqb_spec x y); [subst; contradiction | reflexivity].
Qed.

Lemma literal_strings_nonempty (values : list pyval) : ~ In "" (literal_strings values).
Proof.
  unfold literal_strings. rewrite in_flat_map. intros (v & _ & Hv).
  destruct v as [| | | |s| |]; simpl in Hv; try contradiction.
  destruct (String.eqb_spec s ""); simpl in Hv; intuition congruence.
Qed.

Lemma literal_strings_of_strings (l : list string) :
  ~ In "" l -> literal_strings (map PStr l) = l.
Proof.
  induction l as [|x l IH]; simpl; [reflexivity|].
  intros H. destruct (String.eqb_spec x ""); [subst; tauto|].
  simpl. rewrite IH; tauto.
Qed.

Lemma filter_not_in_nil (l : list string) :
  filter (fun y => negb (str_in y [])) l = l.
Proof. apply forallb_filter_id, forallb_forall. reflexivity. Qed.

(** [post_process_sensitive_data] on a CategoryMap, in one equation. *)
Lemma post_process_category_map (m : pydict) :
  category_map m ->
  post_process_sensitive_data m
  = Ok (map PStr (first_occurrences (literal_strings (values_in_order m)))).
Proof.
  intros Hm. unfold post_process_sensitive_data.
  rewrite collect_values_spec. simpl app.
  pose proof (dedup_loop_spec (values_in_order m) [] (category_map_literals m Hm)) as H.
  simpl in H. rewrite filter_not_in_nil in H. exact H.
Qed.

End FlattenFacts.

(** C7: flattening a CategoryMap gives the strings of its lists, read in
    the order of the categories, without the empty ones and without [None],
    each at its first occurrence only, so no string comes twice; and
    flattening any CategoryMap whose lists hold, in some arrangement, just
    the strings of that result gives those strings back and nothing else. *)
Theorem flatten_dedups_in_first_seen_order (m : pydict) :
  category_map m ->
  exists out,
    DataProcessor.post_process_sensitive_data m = Ok (map PStr out) /\
    out = first_occurrences (literal_strings (values_in_order m)) /\
    NoDup out /\
    ~ In "" out /\
    (forall m' l',
       category_map m' -> values_in_order m' = map PStr l' -> Permutation l' out ->
       DataProcessor.post_process_sensitive_data m' = Ok (map PStr l')).
Proof.
  intros Hm. exists (first_occurrences (literal_strings (values_in_order m))).
  assert (Hnonempty : ~ In "" (first_occurrences (literal_strings (values_in_order m)))).
  { rewrite first_occurrences_In. apply literal_strings_nonempty. }
  split; [now apply post_process_category_map|].
  split; [reflexivity|].
  split; [apply first_occurrences_NoDup|].
  split; [exact Hnonempty|].
  intros m' l' Hm' Hvals Hperm.
  rewrite (post_process_category_map m' Hm'), Hvals.
  rewrite literal_strings_of_strings.
  - rewrite first_occurrences_fixed; [reflexivity|].
    apply (Permutation_NoDup (Permutation_sym Hperm)), first_occurrences_NoDup.
  - intros Hin. apply Hnonempty. exact (Permutation_in _ Hperm Hin).
Qed.

Lemma flatten_dedups_in_first_seen_order_witness :
  exists out,
    DataProcessor.post_process_sensitive_data
      [("names", PList [PStr "Jane Doe"; PStr ""; PStr "Bob"]);
       ("emails", PList [PStr "jane@example.com"; PNone; PStr "Jane Doe"])]
    = Ok (map PStr out) /\
    out = first_occurrences (literal_strings (values_in_order
            [("names", PList [PStr "Jane Doe"; PStr ""; PStr "Bob"]);
             ("emails", PList [PStr "jane@example.com"; PNone; PStr "Jane Doe"])])) /\
    NoDup out /\
    ~ In "" out /\
    (forall m' l',
       category_map m' -> values_in_order m' = map PStr l' -> Permutation l' out ->
       DataProcessor.post_process_sensitive_data m' = Ok (map PStr l')).
Proof.
  apply (flatten_dedups_in_first_seen_order
           [("names", PList [PStr "Jane Doe"; PStr ""; PStr "Bob"]);
            ("emails", PList [PStr "jane@example.com"; PNone; PStr "Jane Doe"])]).
  repeat constructor; simpl; eexists; (split; [reflexivity | reflexivity]).
Defined.

Example flatten_example :
  DataProcessor.post_process_sensitive_data
    [("names", PList [PStr "Jane Doe"; PStr ""; PStr "Bob"]);
     ("emails", PList [PStr "jane@example.com"; PNone; PStr "Jane Doe"])]
  = Ok [PStr "Jane Doe"; PStr "Bob"; PStr "jane@example.com"].
Proof. reflexivity. Qed.

(** ** The overrides of [redact_pdf_custom] *)

Lemma str_in_In (x : string) (l : list string) : str_in x l = true <-> In x l.
Proof.
  unfold str_in. rewrite existsb_exists. split.
  - intros (y & Hy & E). apply String.eqb_eq in E. now subst.
  - intros H. exists x. split; [exact H | apply String.eqb_refl].
Qed.

Lemma str_in_not_In (x : string) (l : list string) : str_in x l = false <-> ~ In x l.
Proof. rewrite <- str_in_In. destruct (str_in x l); intuition congruence. Qed.

(** Lines 759-765: what the loop appends. *)
Lemma add_included_spec (include current : list string) (n : Z) :
  exists added,
    Server.add_included include current n
    = (current ++ added, (n + Z.of_nat (List.length added))%Z) /\
    NoDup added /\
    (forall y, In y added <-> In y include /\ y <> "" /\ ~ In y current).
Proof.
  revert current n; induction include as [|item include IH]; intros current n.
  - exists []. simpl. rewrite app_nil_r, Z.add_0_r. repeat split; try constructor; tauto.
  - simpl. destruct (String.eqb_spec item "") as [-> | Hne]; simpl.
    + destruct (IH current n) as (added & -> & Hnd & Hin).
      exists added. split; [reflexivity|]. split; [exact Hnd|].
      intros y. rewrite Hin. simpl. intuition congruence.
    + destruct (str_in item current) eqn:Hpresent; simpl.
      * apply str_in_In in Hpresent.
        destruct (IH current n) as (added & -> & Hnd & Hin).
        exists added. split; [reflexivity|]. split; [exact Hnd|].
        intros y. rewrite Hin. simpl. intuition congruence.
      * apply str_in_not_In in Hpresent.
        destruct (IH (current ++ [item]) (n + 1)%Z) as (added & -> & Hnd & Hin).
        exists (item :: added). split; [|split].
        -- rewrite <- app_assoc. simpl. f_equal. lia.
        -- constructor; [|exact Hnd]. intros H. apply Hin in H as (_ & _ & H).
           apply H, in_or_app. right. now left.
        -- intros y. simpl. rewrite Hin, in_app_iff. simpl.
           destruct (String.eqb_spec item y) as [<- | Hy]; intuition congruence.
Qed.

(** Including an entry that is already there changes nothing. *)
Lemma add_included_present (y : string) (current : list string) (n : Z) :
  In y current -> Server.add_included [y] current n = (current, n).
Proof.
  intros H. simpl. apply str_in_In in H. rewrite H. now rewrite andb_false_r.
Qed.

Section OverrideFacts.

Import Server.
Variable lower : string -> string.

(** Line 756: nothing that is kept matches an excluded item once both are
    lowered. *)
Lemma remove_excluded_spec (values exclude : list string) (v x : string) :
  In v (fst (remove_excluded lower values exclude)) -> In x exclude ->
  lower v <> lower x.
Proof.
  unfold remove_excluded. destruct exclude as [|x0 exclude]; [intros _ []|].
  cbn [fst]. rewrite filter_In. intros [_ Hv] Hx Heq.
  apply negb_true_iff, str_in_not_In in Hv. apply Hv.
  rewrite Heq. now apply in_map.
Qed.

Lemma remove_excluded_sublist (values exclude : list string) (v : string) :
  In v (fst (remove_excluded lower values exclude)) -> In v values.
Proof.
  unfold remove_excluded. destruct exclude; cbn [fst]; [tauto|].
  rewrite filter_In. tauto.
Qed.

End OverrideFacts.

(** C6, as stated, fails: an include entry that is the empty string is not
    present by exact match, and it is not appended. *)
Lemma empty_include_entry_not_appended :
  str_in "" ["Jane Doe"] = false /\
  Server.apply_user_preferences ascii_lower ["Jane Doe"] [] [""] = (["Jane Doe"], 0%Z, 0%Z).
Proof. split; reflexivity. Qed.

(** C6, amended: after the exclusion no kept literal equals an exclude entry
    once both are lowered; then the include entries that are non-empty and
    not already present by exact match are appended, each exactly once and
    nothing else, and including an entry that is present changes nothing. *)
Theorem overrides_contract (lower : string -> string)
    (values exclude include : list string) :
  let kept := fst (Server.remove_excluded lower values exclude) in
  let final := fst (fst (Server.apply_user_preferences lower values exclude include)) in
  (forall v x, In v kept -> In x exclude -> lower v <> lower x) /\
  (forall v, In v kept -> In v values) /\
  (exists added,
     final = kept ++ added /\ NoDup added /\
     snd (Server.apply_user_preferences lower values exclude include)
       = Z.of_nat (List.length added) /\
     forall y, In y added <-> In y include /\ y <> "" /\ ~ In y kept) /\
  (forall y n, In y final -> Server.add_included [y] final n = (final, n)).
Proof.
  cbv zeta. unfold Server.apply_user_preferences.
  destruct (Server.remove_excluded lower values exclude) as [kept excluded_count] eqn:E.
  assert (Hkept : kept = fst (Server.remove_excluded lower values exclude)) by now rewrite E.
  destruct (add_included_spec include kept 0) as (added & Hadd & Hnd & Hin).
  rewrite Hadd. cbn [fst snd]. split; [|split; [|split]].
  - intros v x Hv Hx. subst kept. now apply (remove_excluded_spec lower values exclude).
  - intros v Hv. subst kept. now apply (remove_excluded_sublist lower values exclude).
  - exists added. split; [reflexivity|]. split; [exact Hnd|]. split; [lia | exact Hin].
  - intros y n Hy. now apply add_included_present.
Qed.

Example exclusion_ignores_case :
  Server.apply_user_preferences ascii_lower ["Jane Doe"; "Bob"] ["JANE DOE"] []
  = (["Bob"], 1%Z, 0%Z).
Proof. reflexivity. Qed.

Example inclusion_is_exact :
  Server.apply_user_preferences ascii_lower ["Jane Doe"] [] ["jane doe"; "jane doe"; "Jane Doe"]
  = (["Jane Doe"; "jane doe"], 0%Z, 1%Z).
Proof. reflexivity. Qed.

(** ** The redaction engine *)

Section EngineFacts.

Import PdfRedactor.
Variables page rect : Type.
Variable search_for : page -> string -> list rect.

Local Abbreviation occurrences := (occurrences page rect search_for).

Lemma mark_instances_spec (text_instances : list rect) (m : marks rect) :
  mark_instances rect text_instances m
  = {| highlights := highlights rect m ++ text_instances;
       redactions := redactions rect m ++ text_instances;
       number_of_redactions := number_of_redactions rect m |}.
Proof.
  revert m; induction text_instances as [|inst rest IH]; intros m; simpl.
  - rewrite !app_nil_r. now destruct m.
  - rewrite IH. simpl. now rewrite <- !app_assoc.
Qed.

(** Line 39: an empty literal has no character, so the test on the length
    decides alone. *)
Lemma skipped_iff_short (v : string) :
  negb (truthy (PStr v)) || (len v <? 2)%Z = negb (2 <=? len v)%Z.
Proof.
  rewrite (Z.ltb_antisym 2 (len v)).
  destruct v as [|a v]; [reflexivity|]. simpl truthy. reflexivity.
Qed.

Lemma mark_page_spec (p : page) (sensitive_values : list string) (m : marks rect) :
  mark_page page rect search_for p sensitive_values m
  = {| highlights := highlights rect m ++ occurrences p sensitive_values;
       redactions := redactions rect m ++ occurrences p sensitive_values;
       number_of_redactions :=
         (number_of_redactions rect m
          + Z.of_nat (List.length (occurrences p sensitive_values)))%Z |}.
Proof.
  unfold occurrences.
  revert m; induction sensitive_values as [|v rest IH]; intros m.
  - simpl. rewrite !app_nil_r, Z.add_0_r. now destruct m.
  - cbn [mark_page filter]. rewrite skipped_iff_short.
    destruct (2 <=? len v)%Z; cbn [negb flat_map].
    + rewrite mark_instances_spec.
      destruct (search_for p v) as [|inst insts] eqn:S.
      * rewrite IH. simpl. now rewrite !app_nil_r.
      * rewrite IH. cbn [highlights redactions number_of_redactions].
        rewrite <- !app_assoc, length_app. f_equal. lia.
    + apply IH.
Qed.

Lemma redact_pages_spec (pages : list (page * page)) (number : Z)
    (sensitive_values : list string) (acc : summary rect) :
  let s := redact_pages page rect search_for pages number sensitive_values acc in
  let found := fun pp : page * page => occurrences (fst pp) sensitive_values in
  let count := fun pp => Z.of_nat (List.length (found pp)) in
  total_pages rect s = total_pages rect acc /\
  doc_highlighted rect s = doc_highlighted rect acc ++ map found pages /\
  doc_redacted rect s = doc_redacted rect acc ++ map found pages /\
  map snd (redacted_pages rect s) = map snd (redacted_pages rect acc) ++ map count pages /\
  map fst (redacted_pages rect s)
    = map fst (redacted_pages rect acc)
      ++ map (fun i => (number + 1 + Z.of_nat i)%Z) (seq 0 (List.length pages)) /\
  total_redactions rect s = (total_redactions rect acc + zsum (map count pages))%Z.
Proof.
  cbv zeta. revert number acc; induction pages as [|[pr ph] pages IH]; intros number acc.
  - simpl. rewrite !app_nil_r, Z.add_0_r. tauto.
  - cbn [redact_pages]. rewrite mark_page_spec. cbn [highlights redactions number_of_redactions no_marks app].
    match goal with |- context [redact_pages _ _ _ _ _ _ ?a] =>
      destruct (IH (number + 1)%Z a) as (H1 & H2 & H3 & H4 & H5 & H6) end.
    rewrite H1, H2, H3, H4, H5, H6.
    cbn [total_pages doc_highlighted doc_redacted redacted_pages total_redactions
         map fst snd List.length seq zsum fold_right].
    rewrite !map_app, <- !app_assoc. cbn [map fst snd app].
    rewrite <- seq_shift, map_map.
    repeat split; try reflexivity.
    + do 2 f_equal. rewrite Z.add_0_r. f_equal. apply map_ext. intros i. lia.
    + fold (zsum (map (fun pp : page * page =>
                         Z.of_nat (List.length (occurrences (fst pp) sensitive_values))) pages)).
      lia.
Qed.

Lemma map_fst_combine_self {A B} (f : A -> B) (l : list A) :
  map (fun pp : A * A => f (fst pp)) (combine l l) = map f l.
Proof. induction l as [|a l IH]; simpl; [reflexivity | now rewrite IH]. Qed.

Lemma length_combine_self {A} (l : list A) : List.length (combine l l) = List.length l.
Proof. rewrite length_combine. apply Nat.min_id. Qed.

(** C9: on every page the highlights of the preview copy and the regions
    redacted on the removal copy are the same list, one region per occurrence
    found of every literal of two characters or more, literal by literal, and
    shorter literals add nothing to either; the count of the page is the
    length of that list, the pages are numbered from 1, and
    [total_redactions] is the sum of the counts of the pages. *)
Theorem highlights_match_redactions (doc : list page) (sensitive_values : list string) :
  let s := apply_redactions page rect search_for doc sensitive_values in
  let found := fun p => occurrences p sensitive_values in
  doc_highlighted rect s = map found doc /\
  doc_redacted rect s = map found doc /\
  map snd (redacted_pages rect s) = map (fun p => Z.of_nat (List.length (found p))) doc /\
  map fst (redacted_pages rect s) = map (fun i => Z.of_nat (S i)) (seq 0 (List.length doc)) /\
  total_redactions rect s = zsum (map snd (redacted_pages rect s)) /\
  total_pages rect s = Z.of_nat (List.length doc) /\
  (forall p short_value before after,
     (len short_value < 2)%Z ->
     occurrences p (before ++ short_value :: after) = occurrences p (before ++ after)).
Proof.
  cbv zeta. unfold apply_redactions.
  match goal with |- context [redact_pages _ _ _ _ ?n _ ?a] =>
    destruct (redact_pages_spec (combine doc doc) n sensitive_values a)
      as (H1 & H2 & H3 & H4 & H5 & H6) end.
  cbn [total_pages doc_highlighted doc_redacted redacted_pages total_redactions map app]
    in H1, H2, H3, H4, H5, H6.
  rewrite (map_fst_combine_self (fun p => occurrences p sensitive_values)) in H2, H3.
  rewrite (map_fst_combine_self
             (fun p => Z.of_nat (List.length (occurrences p sensitive_values)))) in H4, H6.
  rewrite length_combine_self in H5.
  split; [exact H2|]. split; [exact H3|]. split; [exact H4|].
  split; [rewrite H5; apply map_ext; intros i; lia|].
  split; [rewrite H6, H4; apply Z.add_0_l|].
  split; [exact H1|].
  intros p short_value before after Hshort. unfold occurrences.
  rewrite !filter_app. cbn [filter].
  destruct (Z.leb_spec 2 (len short_value)); [lia | reflexivity].
Qed.

End EngineFacts.

(** A literal of one character is skipped whatever its width in bytes, and
    one of two characters is searched. *)
Example one_wide_character_is_skipped :
  PdfRedactor.total_redactions nat
    (PdfRedactor.apply_redactions string nat (fun _ _ => [0; 1]) ["page"] ["é"; ""; "x"])
  = 0%Z /\
  PdfRedactor.total_redactions nat
    (PdfRedactor.apply_redactions string nat (fun _ _ => [0; 1]) ["page"] ["éa"])
  = 2%Z.
Proof. split; reflexivity. Qed.

(** ** The text extractor *)

Section ExtractorFacts.

Import PdfExtractor.
Variable path_exists : string -> bool.
Variable fitz_open : string -> result document.

Local Abbreviation extract := (get_pdf_text path_exists fitz_open).
Local Abbreviation extract_finally := (PdfToText.get_pdf_text path_exists fitz_open).

(** [FileNotFoundError] is raised exactly when the file does not exist, and
    then nothing has been opened. *)
Lemma not_found_iff_missing (file_path : string) (page_chunks : bool) (log : list event) :
  fst (extract file_path page_chunks log) = Raise FileNotFoundError
  <-> path_exists file_path = false.
Proof.
  unfold get_pdf_text. destruct (path_exists file_path); simpl; [|tauto].
  split; [|discriminate].
  destruct (try_body fitz_open file_path page_chunks log) as [[v | e] log']; simpl;
    [discriminate|].
  destruct e; simpl; discriminate.
Qed.

Lemma not_found_opens_nothing (file_path : string) (page_chunks : bool) (log : list event) :
  path_exists file_path = false ->
  extract file_path page_chunks log = (Raise FileNotFoundError, log).
Proof. intros H. unfold get_pdf_text. now rewrite H. Qed.

(** Whatever [fitz] raises comes out wrapped in a plain [Exception]. *)
Lemma failure_is_wrapped (file_path : string) (page_chunks : bool) (log : list event)
    (e : exn) (log' : list event) :
  path_exists file_path = true ->
  try_body fitz_open file_path page_chunks log = (Raise e, log') ->
  is_Exception e = true ->
  extract file_path page_chunks log = (Raise (PlainException e), log').
Proof. intros Hex Hbody He. unfold get_pdf_text. now rewrite Hex, Hbody, He. Qed.

Lemma open_handles_app (log1 log2 : list event) (handles : list string) :
  open_handles (log1 ++ log2) handles = open_handles log2 (open_handles log1 handles).
Proof.
  revert handles; induction log1 as [|[p | p] log1 IH]; intros handles; simpl;
    [reflexivity | apply IH | apply IH].
Qed.

(** The sibling in pdf_to_text.py closes in its [finally]: whatever happens,
    it leaves open what was open before. *)
Lemma sibling_releases_document (file_path : string) (page_chunks : bool) :
  open_handles (snd (extract_finally file_path page_chunks [])) [] = [].
Proof.
  unfold PdfToText.get_pdf_text, PdfToText.try_body.
  destruct (path_exists file_path); [|reflexivity].
  destruct (fitz_open file_path) as [doc | e]; [|reflexivity].
  destruct page_chunks.
  - destruct (read_pages doc []); simpl; now rewrite String.eqb_refl.
  - destruct (join_pages doc ""); simpl; now rewrite String.eqb_refl.
Qed.

(** A successful extraction closes what it opened. *)
Lemma success_releases_document (file_path : string) (page_chunks : bool) (v : pyval)
    (log : list event) :
  extract file_path page_chunks [] = (Ok v, log) -> open_handles log [] = [].
Proof.
  unfold get_pdf_text, try_body.
  destruct (path_exists file_path); [|discriminate].
  destruct (fitz_open file_path) as [doc | e]; [|destruct (is_Exception e); discriminate].
  destruct page_chunks.
  - destruct (read_pages doc []) as [texts | e];
      [|destruct (is_Exception e); discriminate].
    intros H; injection H as _ <-. simpl. now rewrite String.eqb_refl.
  - destruct (join_pages doc "") as [text | e];
      [|destruct (is_Exception e); discriminate].
    intros H; injection H as _ <-. simpl. now rewrite String.eqb_refl.
Qed.

Lemma read_pages_fails (doc : document) (texts : list string) :
  Exists (fun page => exists e, page = Raise e) doc ->
  exists e, read_pages doc texts = Raise e.
Proof.
  intros H. revert texts. induction H as [page doc (e & ->) | page doc _ IH]; intros texts.
  - now exists e.
  - simpl. destruct page as [text | e]; simpl; [apply IH | now exists e].
Qed.

Lemma join_pages_fails (doc : document) (text : string) :
  Exists (fun page => exists e, page = Raise e) doc ->
  exists e, join_pages doc text = Raise e.
Proof.
  intros H. revert text. induction H as [page doc (e & ->) | page doc _ IH]; intros text.
  - now exists e.
  - simpl. destruct page as [t | e]; simpl; [apply IH | now exists e].
Qed.

(** When a page of an existing, opened file cannot be read, pdf_extractor.py
    raises with the document still open. *)
Lemma page_failure_leaves_document_open (file_path : string) (page_chunks : bool)
    (doc : document) :
  path_exists file_path = true ->
  fitz_open file_path = Ok doc ->
  Exists (fun page => exists e, page = Raise e) doc ->
  exists e,
    fst (extract file_path page_chunks []) = Raise e /\
    open_handles (snd (extract file_path page_chunks [])) [] = [file_path].
Proof.
  intros Hex Hopen Hbad. unfold get_pdf_text, try_body. rewrite Hex, Hopen. simpl.
  destruct page_chunks.
  - destruct (read_pages_fails doc [] Hbad) as (e & ->).
    destruct (is_Exception e); eexists; split; reflexivity.
  - destruct (join_pages_fails doc "" Hbad) as (e & ->).
    destruct (is_Exception e); eexists; split; reflexivity.
Qed.

End ExtractorFacts.

(** C10 at its failing input: on an existing file whose second page cannot
    be read, [get_pdf_text] of pdf_extractor.py raises the wrapped error and
    leaves the document open, whichever form of result was asked for; the
    [get_pdf_text] of pdf_to_text.py closes it. *)
Theorem failed_extraction_leaves_document_open :
  PdfExtractor.get_pdf_text every_path damaged_pdf "scan.pdf" false []
    = (Raise (PlainException FitzError), [PdfExtractor.Opened "scan.pdf"]) /\
  PdfExtractor.get_pdf_text every_path damaged_pdf "scan.pdf" true []
    = (Raise (PlainException FitzError), [PdfExtractor.Opened "scan.pdf"]) /\
  PdfExtractor.open_handles [PdfExtractor.Opened "scan.pdf"] [] = ["scan.pdf"] /\
  PdfToText.get_pdf_text every_path damaged_pdf "scan.pdf" false []
    = (Raise (PlainException FitzError),
       [PdfExtractor.Opened "scan.pdf"; PdfExtractor.Closed "scan.pdf"]).
Proof. repeat split. Qed.

(** ** The [redact_pdf] tool *)

(** What the detector returns always has ten keys, so the check of line 516
    never fires on it. *)
Lemma failure_branch_unreachable (data : pydict) :
  ten_keys data -> Server.llm_returned_nothing (PDict data) = false.
Proof.
  unfold ten_keys. intros H. simpl.
  replace (List.length data) with (List.length (map fst data)) by apply length_map.
  now rewrite H.
Qed.

Ltac flow_unfold :=
  unfold never_llm_failed, Server.then_, Server.when, Server.call, Server.pure,
    Server.return_, Server.add_step, Server.complete_step, Server.fail_step,
    Server.update_steps, Server.emit, Server.set_temp_file.

Ltac flow_step :=
  match goal with
  | |- context [match ?x with _ => _ end] =>
      lazymatch x with
      | context [match _ with _ => _ end] => fail
      | _ => destruct x eqn:?
      end
  end.

Ltac flow_crush :=
  flow_unfold; repeat (cbn; try flow_step); cbn; try exact I; try discriminate.

Section ToolFacts.

Variable check_connection : bool.
Variable save_base64_to_temp : string -> result string.
Variable path_exists : string -> bool.
Variable get_pdf_text : string -> result string.
Variable get_sensitive_data : string -> result pyval.
Variable apply_redactions : string -> list pyval -> result Server.redaction_summary.
Variable open_pdf : string -> bool.
Variable file_to_base64 : string -> result string.
Variable os_unlink : string -> result unit.

Lemma prepare_never_llm_failed (pdf_path pdf_base64 : string) (st : Server.state) :
  never_llm_failed (Server.prepare_input check_connection save_base64_to_temp path_exists
                      get_pdf_text pdf_path pdf_base64 st).
Proof. unfold Server.prepare_input. flow_crush. Qed.

Lemma report_never_llm_failed (pdf_path model : string) (return_base64 auto_open : bool)
    (sensitive_data : pyval) (sensitive_values : list pyval) (st : Server.state) :
  never_llm_failed (Server.redact_and_report apply_redactions open_pdf file_to_base64
                      pdf_path model return_base64 auto_open sensitive_data
                      sensitive_values st).
Proof. unfold Server.redact_and_report. flow_crush. Qed.

Lemma detect_never_llm_failed (model text : string) (st : Server.state) :
  (forall v, get_sensitive_data text = Ok v -> exists data, v = PDict data /\ ten_keys data) ->
  never_llm_failed (Server.detect get_sensitive_data model text st).
Proof.
  intros Hdet. unfold Server.detect. flow_unfold. cbn.
  destruct (get_sensitive_data text) as [v|e] eqn:D; cbn; [|exact I].
  destruct (Hdet v eq_refl) as (data & -> & Hk).
  rewrite (failure_branch_unreachable data Hk).
  repeat (cbn; try flow_step); cbn; try exact I; try discriminate.
Qed.

(** With a detector that only ever returns maps of ten keys, no run of the
    tool ends in the answer of line 519. *)
Lemma answer_never_llm_failed
    (pdf_path pdf_base64 model : string) (return_base64 auto_open : bool) :
  (forall text v, get_sensitive_data text = Ok v ->
                  exists data, v = PDict data /\ ten_keys data) ->
  fst (Server.answer check_connection save_base64_to_temp path_exists get_pdf_text
         get_sensitive_data apply_redactions open_pdf file_to_base64
         pdf_path pdf_base64 model return_base64 auto_open)
  <> Ok llm_failed.
Proof.
  intros Hdet. unfold Server.answer, Server.try_body, Server.then_.
  pose proof (prepare_never_llm_failed pdf_path pdf_base64 Server.initial_state) as Hp.
  destruct (Server.prepare_input _ _ _ _ _ _ _) as [[[path text] | r | e] st1];
    unfold never_llm_failed in Hp; cbn in Hp.
  - pose proof (detect_never_llm_failed model text st1 (Hdet text)) as Hd.
    destruct (Server.detect _ _ _ _) as [[[sd sv] | r | e] st2];
      unfold never_llm_failed in Hd; cbn in Hd.
    + pose proof (report_never_llm_failed path model return_base64 auto_open sd sv st2) as Hr.
      destruct (Server.redact_and_report _ _ _ _ _ _ _ _ _ _) as [[r | r | e] st3] eqn:R;
        unfold never_llm_failed in Hr; cbn in Hr.
      * cbn. revert R. unfold Server.redact_and_report. flow_unfold.
        repeat (cbn; try flow_step); cbn; try discriminate;
          intros R; injection R as <- _; discriminate.
      * cbn. congruence.
      * destruct (is_Exception e); cbn; discriminate.
    + cbn. congruence.
    + destruct (is_Exception e); cbn; discriminate.
  - cbn. congruence.
  - destruct (is_Exception e); cbn; discriminate.
Qed.

Lemma redact_pdf_never_llm_failed
    (pdf_path pdf_base64 model : string) (return_base64 auto_open : bool) :
  (forall text v, get_sensitive_data text = Ok v ->
                  exists data, v = PDict data /\ ten_keys data) ->
  fst (Server.redact_pdf check_connection save_base64_to_temp path_exists get_pdf_text
         get_sensitive_data apply_redactions open_pdf file_to_base64 os_unlink
         pdf_path pdf_base64 model return_base64 auto_open)
  <> Ok llm_failed.
Proof.
  intros Hdet. unfold Server.redact_pdf.
  pose proof (answer_never_llm_failed pdf_path pdf_base64 model return_base64 auto_open Hdet)
    as Ha.
  destruct (Server.answer _ _ _ _ _ _ _ _ _ _ _ _ _) as [r st].
  destruct (Server.cleanup path_exists os_unlink st) as [[[]|e] st']; cbn;
    [exact Ha | discriminate].
Qed.

End ToolFacts.

(** So it is with the detector of ollama_llm.py, whatever the endpoint does. *)
Lemma detection_failure_never_surfaces
    (float_repr : float -> string) (json_loads : string -> option pyval)
    (strip : string -> string) (search_code_block search_json_object : string -> option string)
    (sub_trailing_commas sub_quoted_keys sub_quoted_values : string -> string)
    (requests_post : string -> result OllamaLLM.http_response)
    (check_connection : bool) (save_base64_to_temp : string -> result string)
    (path_exists : string -> bool) (get_pdf_text : string -> result string)
    (apply_redactions : string -> list pyval -> result Server.redaction_summary)
    (open_pdf : string -> bool) (file_to_base64 : string -> result string)
    (os_unlink : string -> result unit)
    (pdf_path pdf_base64 model : string) (return_base64 auto_open : bool) :
  (forall text e, requests_post text = Raise e -> is_Exception e = true) ->
  (forall text response e, requests_post text = Ok response ->
                           OllamaLLM.json response = Raise e -> is_Exception e = true) ->
  fst (Server.redact_pdf check_connection save_base64_to_temp path_exists get_pdf_text
         (as_server_detector
            (OllamaLLM.get_sensitive_data float_repr json_loads strip search_code_block
               search_json_object sub_trailing_commas sub_quoted_keys sub_quoted_values
               requests_post))
         apply_redactions open_pdf file_to_base64 os_unlink
         pdf_path pdf_base64 model return_base64 auto_open)
  <> Ok llm_failed.
Proof.
  intros Hpost Hjson. apply redact_pdf_never_llm_failed.
  intros text v. unfold as_server_detector.
  destruct (detect_returns float_repr json_loads strip search_code_block
              search_json_object sub_trailing_commas sub_quoted_keys sub_quoted_values
              requests_post text (Hpost text) (Hjson text)) as (data & -> & Hk).
  intros H; injection H as <-. now exists data.
Qed.

(** C8 at its failing input: when the detection call times out, the tool
    answers with the status "no_sensitive_data" and the step "Sensitive Data
    Detection" completed, the very answer it gives when the endpoint replies
    with an object that holds nothing; the redactor is not called in either
    run. *)
Theorem timeout_reported_as_no_sensitive_data :
  let answer :=
    (Ok (Server.NoSensitiveData "No sensitive data detected, nothing to redact" "gemma3:1b"),
     {| Server.steps :=
          [("Initialization", "completed");
           ("Ollama Connection Check", "completed");
           ("Input Processing", "completed");
           ("Text Extraction", "completed");
           ("Sensitive Data Detection", "completed");
           ("Validation", "completed")];
        Server.events := [Server.DetectorCalled "Jane Doe, jane@example.com"];
        Server.temp_file := None |}) in
  detector OllamaLLM.slow_endpoint "Jane Doe, jane@example.com"
    = Ok (PDict OllamaLLM._empty_structure) /\
  Server.redact_pdf true no_temp every_path read_text (detector OllamaLLM.slow_endpoint)
    redactor viewer encoder remover "doc.pdf" "" "gemma3:1b" false true = answer /\
  Server.redact_pdf true no_temp every_path read_text (detector quiet_endpoint)
    redactor viewer encoder remover "doc.pdf" "" "gemma3:1b" false true = answer.
Proof. repeat split. Qed.

Example redact_pdf_success :
  fst (Server.redact_pdf true no_temp every_path read_text
         (fun _ => Ok (PDict [("names", PList [PStr "Jane Doe"]); ("emails", PList [])]))
         redactor viewer encoder remover "doc.pdf" "" "gemma3:1b" false false)
  = Ok (Server.Success 1 1 [("names", PList [PStr "Ja****oe"]); ("emails", PList [])]
          "gemma3:1b" "doc_redacted.pdf" "doc_highlighted.pdf" (Some false)).
Proof. reflexivity. Qed.

(* ================================================================== *)
(** * Part III: further properties of the code *)
(* ================================================================== *)

(** ** data_processor.py *)

Section ReporterShape.

Import DataProcessor.

Lemma dict_set_fresh (d : pydict) (k : string) (v : pyval) :
  ~ In k (map fst d) -> dict_set d k v = d ++ [(k, v)].
Proof.
  induction d as [|[k0 w] d IH]; simpl; [reflexivity|].
  intros H. destruct (String.eqb_spec k0 k); [tauto|]. rewrite IH; tauto.
Qed.

Lemma mask_loop_fresh (items acc : pydict) :
  NoDup (map fst items) -> list_valued items ->
  (forall k, In k (map fst items) -> ~ In k (map fst acc)) ->
  mask_loop items acc = Ok (acc ++ map masked_item items).
Proof.
  revert acc; induction items as [|[k v] items IH]; intros acc Hnd Hl Hfresh; simpl.
  - now rewrite app_nil_r.
  - inversion Hnd as [|x xs Hk Hnd']; subst. inversion Hl as [|x xs Hv Hl']; subst.
    simpl in Hv. destruct v as [| | | | |l|]; try discriminate. simpl.
    rewrite dict_set_fresh by (apply Hfresh; now left).
    rewrite IH; try assumption.
    + now rewrite <- app_assoc.
    + intros k' Hk'. rewrite map_app, in_app_iff. simpl.
      intros [H | [<- | []]]; [|contradiction].
      apply (Hfresh k'); [now right | exact H].
Qed.

Lemma mask_loop_raises (items acc : pydict) :
  (forall e, mask_loop items acc = Raise e -> e = TypeError) /\
  ((exists e, mask_loop items acc = Raise e)
   <-> Exists (fun kv => not_iterable (snd kv) = true) items).
Proof.
  revert acc; induction items as [|[k v] items IH]; intros acc; simpl.
  - split; [discriminate|]. split; [intros (e & H); discriminate | intros H; inversion H].
  - destruct v as [| | | |s|l|d]; simpl;
      try (split; [intros e H; now injection H as <- | split; [intros _; now left | now exists TypeError]]);
      (match goal with |- context [mask_loop items ?a] => destruct (IH a) as (H1 & H2) end;
       split; [exact H1|]; rewrite H2; split;
       [intros H; now right | intros H; inversion H as [x xs Hx | x xs Hx]; subst; [discriminate | exact Hx]]).
Qed.

End ReporterShape.

(** X1: the report of a dict whose values are lists has the keys of the
    input, in the order of the input, and under each key the input's list
    with every entry masked, so as many entries as the input has. *)
Theorem report_has_shape_of_input (data : pydict) :
  unique_keys data -> list_valued data ->
  DataProcessor.mask_sensitive_data data = Ok (map masked_item data) /\
  map fst (map masked_item data) = map fst data /\
  (forall category l, In (category, PList l) data ->
     exists l', In (category, PList l') (map masked_item data) /\
                List.length l' = List.length l).
Proof.
  intros Hu Hl. split; [|split].
  - unfold DataProcessor.mask_sensitive_data.
    rewrite (mask_loop_fresh data [] Hu Hl); [reflexivity | intros k _ []].
  - rewrite map_map. reflexivity.
  - intros category l Hin. exists (map DataProcessor.mask_value l). split.
    + apply (in_map masked_item) in Hin. exact Hin.
    + apply length_map.
Qed.

Lemma report_has_shape_of_input_witness :
  DataProcessor.mask_sensitive_data
    [("names", PList [PStr "Jane Doe"; PStr "Al"]); ("emails", PList [])]
  = Ok (map masked_item [("names", PList [PStr "Jane Doe"; PStr "Al"]); ("emails", PList [])]).
Proof.
  apply (report_has_shape_of_input
           [("names", PList [PStr "Jane Doe"; PStr "Al"]); ("emails", PList [])]).
  - repeat constructor; simpl; intuition discriminate.
  - repeat constructor.
Defined.

(** X2: [mask_sensitive_data] raises exactly when some category holds a
    value that cannot be iterated ([None], a boolean or a number), and what
    it raises then is a [TypeError]. *)
Theorem report_raises_on_scalar_category (data : pydict) :
  (forall e, DataProcessor.mask_sensitive_data data = Raise e -> e = TypeError) /\
  ((exists e, DataProcessor.mask_sensitive_data data = Raise e)
   <-> Exists (fun kv => not_iterable (snd kv) = true) data).
Proof. apply mask_loop_raises. Qed.

Example report_of_missing_list :
  DataProcessor.mask_sensitive_data [("names", PList [PStr "Jane Doe"]); ("emails", PNone)]
  = Raise TypeError.
Proof. reflexivity. Qed.

Section EmailShape.

Import DataProcessor.

Lemma partition_last_none (c : ascii) (s : string) :
  contains c s = false -> partition_last c s = None.
Proof.
  induction s as [|a s IH]; simpl; [reflexivity|].
  destruct (Ascii.eqb a c); [discriminate|]. intros H. now rewrite IH.
Qed.

(** In the text of a [str], a character begins after every byte below 128. *)
Lemma utf8_after_ascii (pending : nat) (before after : string) (c : ascii) :
  (nat_of_ascii c <? 128)%nat = true ->
  utf8_from pending (before +++ String c after) = true ->
  utf8_from 0 after = true.
Proof.
  intros Hc. assert (Hcont : is_continuation c = false).
  { unfold is_continuation. apply Nat.ltb_lt in Hc.
    destruct (Nat.leb_spec 128 (nat_of_ascii c)); [lia | reflexivity]. }
  revert pending; induction before as [|a before IH]; intros pending.
  - cbn [append utf8_from]. destruct pending as [|k].
    + now rewrite Hc.
    + rewrite Hcont. discriminate.
  - change (String a before +++ String c after)
      with (String a (before +++ String c after)).
    cbn [utf8_from]. destruct pending as [|k].
    + repeat match goal with
             | |- context [if ?b then _ else _] => destruct b
             end; try discriminate; apply IH.
    + intros H. apply andb_true_iff in H as [_ H]. now apply IH in H.
Qed.

Lemma utf8_starts_char (s : string) : utf8_from 0 s = true -> starts_char s = true.
Proof.
  destruct s as [|c s]; [reflexivity|]. cbn [utf8_from starts_char].
  unfold is_continuation.
  destruct (Nat.ltb_spec (nat_of_ascii c) 128) as [H | H].
  - intros _. destruct (Nat.leb_spec 128 (nat_of_ascii c)); [lia | reflexivity].
  - destruct (Nat.ltb_spec (nat_of_ascii c) 192) as [H' | H']; [discriminate|].
    intros _. now rewrite andb_false_r.
Qed.

(** The first character of a text is that of its masked form. *)
Lemma starts_char_chars (s : string) :
  starts_char s = match chars s with [] => true | ch :: _ => starts_char ch end.
Proof.
  destruct s as [|c s]; [reflexivity|].
  destruct (chars_cons c s) as (f & r & ->). reflexivity.
Qed.

Lemma starts_char_mask_head (part : string) :
  starts_char part = true -> starts_char (mask_head part) = true.
Proof.
  intros H. rewrite starts_char_chars in H |- *.
  rewrite (mask_head_shape part). cbv zeta.
  destruct (chars part) as [|ch [|ch' [|ch'' rest]]]; try reflexivity; exact H.
Qed.

(** Masking a text cut at an [@] and a dot keeps its number of characters. *)
Lemma len_around (a b c : string) :
  starts_char b = true -> starts_char c = true ->
  len (a +++ "@" +++ b +++ "." +++ c) = (len a + 1 + len b + 1 + len c)%Z.
Proof.
  intros Hb Hc.
  assert (H1 : len ("." +++ c) = (1 + len c)%Z).
  { change ("." +++ c) with ("." +++ c). rewrite (len_app "." c Hc). reflexivity. }
  assert (H2 : len (b +++ "." +++ c) = (len b + 1 + len c)%Z).
  { rewrite (len_app b ("." +++ c) eq_refl), H1. lia. }
  assert (H3 : starts_char (b +++ "." +++ c) = true).
  { rewrite starts_char_app. now destruct (String.eqb b ""). }
  assert (H4 : len ("@" +++ b +++ "." +++ c) = (1 + len b + 1 + len c)%Z).
  { rewrite (len_app "@" (b +++ "." +++ c) H3), H2. change (len "@") with 1%Z. lia. }
  rewrite (len_app a ("@" +++ b +++ "." +++ c) eq_refl), H4. lia.
Qed.

End EmailShape.

(** X3: a value [username@name.tld] of three characters or more, where
    [username] holds no [@] and [tld] no dot, is reported as the masked user
    name, [@], the masked domain name, a dot and the [tld] as it is, the two
    masked names keeping their first two characters before asterisks (all
    asterisks when they have at most two); the report has as many characters
    as the value. *)
Theorem email_mask_keeps_suffix (username name tld : string) :
  utf8 (username +++ "@" +++ name +++ "." +++ tld) = true ->
  contains "@" username = false ->
  contains "." tld = false ->
  (3 <= len (username +++ "@" +++ name +++ "." +++ tld))%Z ->
  exists masked_username masked_name,
    DataProcessor.mask_value (PStr (username +++ "@" +++ name +++ "." +++ tld))
    = PStr (masked_username +++ "@" +++ masked_name +++ "." +++ tld) /\
    keeps_head username masked_username /\
    keeps_head name masked_name /\
    len (masked_username +++ "@" +++ masked_name +++ "." +++ tld)
    = len (username +++ "@" +++ name +++ "." +++ tld).
Proof.
  intros Hutf Huser Htld Hlen.
  exists (DataProcessor.mask_head username), (DataProcessor.mask_head name).
  split; [|split; [apply mask_head_shape | split; [apply mask_head_shape|]]].
  - rewrite mask_value_long by exact Hlen.
    assert (Hmail : DataProcessor.looks_like_email
                      (username +++ "@" +++ name +++ "." +++ tld) = true).
    { unfold DataProcessor.looks_like_email.
      repeat (rewrite ?contains_append; simpl).
      repeat rewrite orb_true_r. reflexivity. }
    rewrite Hmail. unfold DataProcessor.mask_email, split1.
    change (username +++ "@" +++ name +++ "." +++ tld)
      with (username +++ String "@" (name +++ String "." tld)).
    rewrite (partition_first_at "@" username _ Huser). simpl.
    unfold rsplit1. rewrite (partition_last_at "." name tld Htld). reflexivity.
  - unfold utf8 in Hutf.
    change (username +++ "@" +++ name +++ "." +++ tld)
      with (username +++ String "@" (name +++ String "." tld)) in Hutf.
    pose proof (utf8_after_ascii 0 username _ "@" eq_refl Hutf) as Hrest.
    pose proof (utf8_after_ascii 0 name tld "." eq_refl Hrest) as Htail.
    pose proof (utf8_starts_char _ Htail) as Hst.
    assert (Hsn : starts_char name = true).
    { apply utf8_starts_char in Hrest. rewrite starts_char_app in Hrest.
      now destruct name. }
    rewrite !len_around, !len_mask_head;
      [reflexivity | exact Hsn | exact Hst | now apply starts_char_mask_head | exact Hst].
Qed.

Lemma email_mask_keeps_suffix_witness :
  exists masked_username masked_name,
    DataProcessor.mask_value (PStr ("zoé" +++ "@" +++ "é" +++ "." +++ "com"))
    = PStr (masked_username +++ "@" +++ masked_name +++ "." +++ "com") /\
    keeps_head "zoé" masked_username /\
    keeps_head "é" masked_name /\
    len (masked_username +++ "@" +++ masked_name +++ "." +++ "com")
    = len ("zoé" +++ "@" +++ "é" +++ "." +++ "com").
Proof.
  apply (email_mask_keeps_suffix "zoé" "é" "com").
  - reflexivity.
  - reflexivity.
  - reflexivity.
  - discriminate.
Defined.

Example email_with_accents :
  DataProcessor.mask_value (PStr "zoé@é.com") = PStr "zo*@*.com".
Proof. reflexivity. Qed.

(** X4: a value [username@domain] of three characters or more whose only
    dots stand before the [@] is reported as the masked user name, [@], the
    first two characters of the domain and three asterisks, whatever the
    length of the domain. *)
Theorem email_mask_without_domain_dot (username domain : string) :
  contains "@" username = false ->
  contains "." username = true ->
  contains "." domain = false ->
  (3 <= len (username +++ "@" +++ domain))%Z ->
  exists masked_username first_two,
    DataProcessor.mask_value (PStr (username +++ "@" +++ domain))
    = PStr (masked_username +++ "@" +++ first_two +++ "***") /\
    keeps_head username masked_username /\
    chars first_two = firstn 2 (chars domain).
Proof.
  intros Huser Hdot Hdomain Hlen.
  exists (DataProcessor.mask_head username), (slice_to domain 2).
  split; [|split; [apply mask_head_shape | apply chars_slice_to]].
  rewrite mask_value_long by exact Hlen.
  assert (Hmail : DataProcessor.looks_like_email (username +++ "@" +++ domain) = true).
  { unfold DataProcessor.looks_like_email.
    repeat (rewrite ?contains_append; simpl).
    rewrite Hdot. repeat rewrite orb_true_r. reflexivity. }
  rewrite Hmail. unfold DataProcessor.mask_email, split1.
  change (username +++ "@" +++ domain) with (username +++ String "@" domain).
  rewrite (partition_first_at "@" username _ Huser). simpl.
  unfold rsplit1. rewrite (partition_last_none "." domain Hdomain). reflexivity.
Qed.

Lemma email_mask_without_domain_dot_witness :
  exists masked_username first_two,
    DataProcessor.mask_value (PStr ("j.doe" +++ "@" +++ "élan"))
    = PStr (masked_username +++ "@" +++ first_two +++ "***") /\
    keeps_head "j.doe" masked_username /\
    chars first_two = firstn 2 (chars "élan").
Proof.
  apply (email_mask_without_domain_dot "j.doe" "élan").
  - reflexivity.
  - reflexivity.
  - reflexivity.
  - discriminate.
Defined.

Example domain_keeps_two_characters :
  DataProcessor.mask_value (PStr "j.doe@élan") = PStr "j.***@él***".
Proof. reflexivity. Qed.

Section FlattenAnyInput.

Import DataProcessor.

Lemma FOP_snoc {A} (R : A -> A -> Prop) (l : list A) (x : A) :
  ForallOrdPairs R l -> Forall (fun a => R a x) l -> ForallOrdPairs R (l ++ [x]).
Proof.
  induction 1 as [|a l Ha _ IH]; intros Hx; simpl.
  - repeat constructor.
  - inversion Hx as [|? ? Hax Hlx]; subst. constructor.
    + apply Forall_app. split; [exact Ha | now constructor].
    + apply IH, Hlx.
Qed.

Lemma not_among (val : pyval) (l : list pyval) :
  existsb (py_eq val) l = false -> Forall (fun a => differs_from_earlier a val) l.
Proof.
  induction l as [|a l IH]; simpl; [constructor|].
  intros H. apply orb_false_iff in H as [Ha Hl]. constructor; [exact Ha | apply IH, Hl].
Qed.

(** The loop of lines 25-28 on any values: what it appends is truthy, hashable
    and taken from the values, and differs from all that came before. *)
Lemma dedup_loop_any (values seen unique_values out : list pyval) :
  (forall x, existsb (py_eq x) seen = existsb (py_eq x) unique_values) ->
  dedup_loop values seen unique_values = Ok out ->
  exists added,
    out = unique_values ++ added /\
    Forall (fun v => truthy v = true /\ In v values) added /\
    (ForallOrdPairs differs_from_earlier unique_values ->
     ForallOrdPairs differs_from_earlier out).
Proof.
  revert seen unique_values; induction values as [|val values IH];
    intros seen unique_values Hseen; simpl.
  - intros H; injection H as <-. exists []. rewrite app_nil_r. repeat split; auto.
  - destruct (truthy val) eqn:Ht.
    + unfold set_mem. destruct (hashable val); simpl; [|discriminate].
      destruct (existsb (py_eq val) seen) eqn:Hin; simpl.
      * intros H. destruct (IH _ _ Hseen H) as (added & -> & Hadded & Hpairs).
        exists added. repeat split; [|exact Hpairs].
        eapply Forall_impl; [|exact Hadded]. simpl. intuition.
      * intros H.
        assert (Hseen' : forall x, existsb (py_eq x) (val :: seen)
                                   = existsb (py_eq x) (unique_values ++ [val])).
        { intros x. rewrite existsb_app. simpl. rewrite Hseen, orb_false_r. apply orb_comm. }
        destruct (IH _ _ Hseen' H) as (added & -> & Hadded & Hpairs).
        exists (val :: added). split; [now rewrite <- app_assoc|]. split.
        -- constructor; [split; [exact Ht | now left]|].
           eapply Forall_impl; [|exact Hadded]. simpl. intuition.
        -- intros Hu. apply Hpairs, FOP_snoc; [exact Hu|].
           apply not_among. now rewrite <- Hseen.
    + intros H. destruct (IH _ _ Hseen H) as (added & -> & Hadded & Hpairs).
      exists added. repeat split; [|exact Hpairs].
      eapply Forall_impl; [|exact Hadded]. simpl. intuition.
Qed.

Lemma dedup_loop_raises (values seen unique_values : list pyval) :
  (forall e, dedup_loop values seen unique_values = Raise e -> e = TypeError) /\
  ((exists e, dedup_loop values seen unique_values = Raise e)
   <-> Exists (fun v => truthy v && negb (hashable v) = true) values).
Proof.
  revert seen unique_values; induction values as [|val values IH];
    intros seen unique_values; simpl.
  - split; [discriminate|]. split; [intros (e & H); discriminate | intros H; inversion H].
  - destruct (truthy val) eqn:Ht; simpl.
    + unfold set_mem. destruct (hashable val) eqn:Hh; simpl.
      * destruct (negb (existsb (py_eq val) seen));
          (match goal with |- context [dedup_loop values ?a ?b] =>
             destruct (IH a b) as (H1 & H2) end;
           split; [exact H1|]; rewrite H2; split;
           [ intros H; now right
           | intros H; inversion H as [x xs Hx | x xs Hx]; subst;
             [rewrite Ht, Hh in Hx; discriminate | exact Hx] ]).
      * split; [intros e H; now injection H as <-|].
        split; [intros _; left; now rewrite Ht, Hh | now exists TypeError].
    + destruct (IH seen unique_values) as (H1 & H2).
      split; [exact H1|]. rewrite H2. split.
      * intros H; now right.
      * intros H; inversion H as [x xs Hx | x xs Hx]; subst;
          [rewrite Ht in Hx; discriminate | exact Hx].
Qed.

Lemma values_in_order_lists_only (data : pydict) :
  values_in_order (filter (fun kv => is_list (snd kv)) data) = values_in_order data.
Proof.
  unfold values_in_order. induction data as [|[k v] data IH]; simpl; [reflexivity|].
  destruct v; simpl; rewrite IH; reflexivity.
Qed.

End FlattenAnyInput.

(** X5: whatever dict is flattened, if [post_process_sensitive_data]
    returns, every value it returns is truthy and stands in one of the lists
    of the dict, and no value equals, by Python's [==], one returned before
    it. *)
Theorem flatten_of_any_dict (data : pydict) (out : list pyval) :
  DataProcessor.post_process_sensitive_data data = Ok out ->
  Forall (fun v => truthy v = true /\ In v (values_in_order data)) out /\
  ForallOrdPairs differs_from_earlier out.
Proof.
  unfold DataProcessor.post_process_sensitive_data. rewrite collect_values_spec. simpl.
  intros H. destruct (dedup_loop_any _ [] [] out (fun x => eq_refl) H)
    as (added & -> & Hadded & Hpairs).
  simpl. split; [exact Hadded | apply Hpairs; constructor].
Qed.

Lemma flatten_of_any_dict_witness :
  Forall (fun v => truthy v = true /\
                   In v (values_in_order [("ids", PList [PInt 7; PBool true; PInt 1; PInt 0]);
                                          ("note", PStr "x")]))
         [PInt 7; PBool true] /\
  ForallOrdPairs differs_from_earlier [PInt 7; PBool true].
Proof.
  apply (flatten_of_any_dict [("ids", PList [PInt 7; PBool true; PInt 1; PInt 0]);
                              ("note", PStr "x")]).
  reflexivity.
Defined.

(** X6: [post_process_sensitive_data] raises exactly when one of the lists
    holds a non-empty list or dict, which cannot be hashed, and what it
    raises then is a [TypeError]; a category whose value is not a list is
    passed over, as if it were not in the dict. *)
Theorem flatten_raises_on_unhashable (data : pydict) :
  (forall e, DataProcessor.post_process_sensitive_data data = Raise e -> e = TypeError) /\
  ((exists e, DataProcessor.post_process_sensitive_data data = Raise e)
   <-> Exists (fun v => truthy v && negb (hashable v) = true) (values_in_order data)) /\
  DataProcessor.post_process_sensitive_data (filter (fun kv => is_list (snd kv)) data)
  = DataProcessor.post_process_sensitive_data data.
Proof.
  unfold DataProcessor.post_process_sensitive_data. rewrite !collect_values_spec. simpl.
  rewrite values_in_order_lists_only.
  destruct (dedup_loop_raises (values_in_order data) [] []) as (H1 & H2).
  split; [exact H1|]. split; [exact H2 | reflexivity].
Qed.

Example flatten_of_nested_list :
  DataProcessor.post_process_sensitive_data [("names", PList [PStr "Bob"; PList [PStr "x"]])]
  = Raise TypeError /\
  DataProcessor.post_process_sensitive_data [("names", PList [PStr "Bob"; PList []]);
                                             ("emails", PNone)]
  = Ok [PStr "Bob"].
Proof. split; reflexivity. Qed.

(** ** ollama_llm.py *)

Section ValidationAgain.

Import OllamaLLM.
Variable float_repr : float -> string.

(** The validated map, written out key by key. *)
Lemma validate_loop_fresh (keys : list string) (data acc : pydict) :
  NoDup keys ->
  (forall k, In k keys -> ~ In k (map fst acc)) ->
  validate_loop float_repr keys data acc
  = acc ++ map (fun k => (k, validate_value float_repr (dict_get_default data k (PList []))))
               keys.
Proof.
  revert acc; induction keys as [|k keys IH]; intros acc Hnd Hfresh; simpl.
  - now rewrite app_nil_r.
  - inversion Hnd as [|x xs Hk Hnd']; subst.
    rewrite dict_set_fresh by (apply Hfresh; now left).
    rewrite IH; [now rewrite <- app_assoc | exact Hnd' |].
    intros k' Hk'. rewrite map_app, in_app_iff. simpl.
    intros [H | [<- | []]]; [|contradiction].
    apply (Hfresh k'); [now right | exact H].
Qed.

Lemma validate_structure_eq (data : pydict) :
  _validate_structure float_repr data
  = map (fun k => (k, validate_value float_repr (dict_get_default data k (PList []))))
        required_keys.
Proof.
  unfold _validate_structure.
  rewrite (validate_loop_fresh required_keys data [] required_keys_distinct);
    [reflexivity | intros k _ []].
Qed.

Lemma str_of_int_nonempty (z : Z) : str_of_int z <> "".
Proof.
  unfold str_of_int. destruct (Z.to_int z) as [d | d]; simpl.
  - destruct d; simpl; discriminate.
  - discriminate.
Qed.

(** What validation keeps of a list has a non-empty string form. *)
Lemma kept_item_nonempty (item : pyval) :
  (forall f, float_repr f <> "") ->
  keep_item item = true -> str_item float_repr item <> "".
Proof.
  intros Hrepr. unfold keep_item. destruct item as [|b|z|f|s|l|d]; simpl.
  - discriminate.
  - destruct b; intros H; discriminate.
  - intros _. apply str_of_int_nonempty.
  - intros _. apply Hrepr.
  - destruct (String.eqb_spec s ""); [discriminate | intros _; assumption].
  - rewrite andb_false_r. discriminate.
  - rewrite andb_false_r. discriminate.
Qed.

Lemma validate_strings_fixed (strings : list string) :
  Forall (fun s => s <> "") strings ->
  validate_value float_repr (PList (map PStr strings)) = PList (map PStr strings).
Proof.
  intros H. simpl. f_equal. induction H as [|s strings Hs _ IH]; simpl; [reflexivity|].
  unfold keep_item at 1. simpl.
  destruct (String.eqb_spec s ""); [contradiction|]. simpl. now rewrite IH.
Qed.

(** Every value of a validated map is a list of non-empty strings. *)
Lemma validate_value_strings (v : pyval) :
  (forall f, float_repr f <> "") ->
  exists strings,
    validate_value float_repr v = PList (map PStr strings) /\
    Forall (fun s => s <> "") strings.
Proof.
  intros Hrepr. destruct v as [| | | |s|l|d]; simpl;
    try (exists []; split; [reflexivity | constructor]).
  - destruct (String.eqb_spec s "").
    + exists []; split; [reflexivity | constructor].
    + exists [s]; split; [reflexivity | now repeat constructor].
  - exists (map (str_item float_repr) (filter keep_item l)). split.
    + now rewrite map_map.
    + apply Forall_map, Forall_forall. intros item Hin.
      apply filter_In in Hin as [_ Hkeep]. now apply kept_item_nonempty.
Qed.

Lemma validate_value_idempotent (v : pyval) :
  (forall f, float_repr f <> "") ->
  validate_value float_repr (validate_value float_repr v) = validate_value float_repr v.
Proof.
  intros Hrepr. destruct (validate_value_strings v Hrepr) as (strings & -> & Hs).
  now apply validate_strings_fixed.
Qed.

Lemma validated_get (data : pydict) (k : string) :
  In k required_keys ->
  dict_get_default (_validate_structure float_repr data) k (PList [])
  = validate_value float_repr (dict_get_default data k (PList [])).
Proof.
  intros Hk. unfold dict_get_default at 1.
  destruct (validate_loop_spec float_repr required_keys data [] required_keys_distinct
              (fun k _ H => H)) as (_ & Hin & _).
  unfold _validate_structure. now rewrite (Hin k Hk).
Qed.

Lemma validated_is_category_map (data : pydict) :
  category_map (_validate_structure float_repr data) /\
  unique_keys (_validate_structure float_repr data) /\
  list_valued (_validate_structure float_repr data).
Proof.
  split; [|split].
  - rewrite validate_structure_eq. apply Forall_map, Forall_forall. intros k _. simpl.
    destruct (dict_get_default data k (PList [])) as [| | | |s|l|d]; simpl;
      try (exists []; split; reflexivity).
    + destruct (negb (String.eqb s "")); eexists; split; reflexivity.
    + eexists; split; [reflexivity|]. apply forallb_forall. intros x Hx.
      apply in_map_iff in Hx as (item & <- & _). reflexivity.
  - unfold unique_keys. rewrite validate_structure_keys. apply required_keys_distinct.
  - rewrite validate_structure_eq. apply Forall_map, Forall_forall. intros k _. simpl.
    destruct (dict_get_default data k (PList [])) as [| | | |s|l|d]; simpl; try reflexivity.
    destruct (negb (String.eqb s "")); reflexivity.
Qed.

End ValidationAgain.

(** X7: validating a validated map changes nothing, provided [str] of a
    float is never the empty string: validation is idempotent. *)
Theorem validation_is_idempotent (float_repr : float -> string) (data : pydict) :
  (forall f, float_repr f <> "") ->
  OllamaLLM._validate_structure float_repr (OllamaLLM._validate_structure float_repr data)
  = OllamaLLM._validate_structure float_repr data.
Proof.
  intros Hrepr.
  rewrite (validate_structure_eq float_repr (OllamaLLM._validate_structure float_repr data)).
  etransitivity; [|symmetry; apply validate_structure_eq].
  apply map_ext_in. intros k Hk.
  rewrite validated_get by exact Hk.
  now rewrite validate_value_idempotent.
Qed.

Lemma validation_is_idempotent_witness :
  OllamaLLM._validate_structure OllamaLLM.sample_float_repr
    (OllamaLLM._validate_structure OllamaLLM.sample_float_repr
       [("names", PList [PStr "Bob"; PInt 7; PNone]); ("ids", PStr "A-1"); ("x", PInt 3)])
  = OllamaLLM._validate_structure OllamaLLM.sample_float_repr
      [("names", PList [PStr "Bob"; PInt 7; PNone]); ("ids", PStr "A-1"); ("x", PInt 3)].
Proof.
  apply (validation_is_idempotent OllamaLLM.sample_float_repr
           [("names", PList [PStr "Bob"; PInt 7; PNone]); ("ids", PStr "A-1"); ("x", PInt 3)]).
  intros f. discriminate.
Defined.

(** X8: whatever object the model returned, the validated map can be
    flattened and masked without an exception: flattening gives strings, no
    two alike and none empty, and the masked report has the ten keys in their
    order. *)
Theorem validated_map_feeds_pipeline (float_repr : float -> string) (data : pydict) :
  exists out masked,
    DataProcessor.post_process_sensitive_data (OllamaLLM._validate_structure float_repr data)
      = Ok (map PStr out) /\
    NoDup out /\ ~ In "" out /\
    DataProcessor.mask_sensitive_data (OllamaLLM._validate_structure float_repr data)
      = Ok masked /\
    ten_keys masked.
Proof.
  destruct (validated_is_category_map float_repr data) as (Hc & Hu & Hl).
  exists (first_occurrences (literal_strings
            (values_in_order (OllamaLLM._validate_structure float_repr data)))).
  exists (map masked_item (OllamaLLM._validate_structure float_repr data)).
  split; [now apply post_process_category_map|].
  split; [apply first_occurrences_NoDup|].
  split; [rewrite first_occurrences_In; apply literal_strings_nonempty|].
  split.
  - unfold DataProcessor.mask_sensitive_data.
    rewrite (mask_loop_fresh _ [] Hu Hl); [reflexivity | intros k _ []].
  - unfold ten_keys. rewrite map_map.
    rewrite (map_ext _ fst) by reflexivity. apply validate_structure_keys.
Qed.

Section BraceTrimming.

Import OllamaLLM.

Lemma find_spec (c : ascii) (s : string) (i : nat) :
  find c s = Some i -> i < String.length s /\ String.get i s = Some c.
Proof.
  revert i; induction s as [|a s IH]; intros i; simpl; [discriminate|].
  destruct (Ascii.eqb_spec a c) as [-> | Hne].
  - intros H; injection H as <-. split; [lia | reflexivity].
  - destruct (find c s) as [k|]; [|discriminate].
    intros H; injection H as <-. destruct (IH k eq_refl). split; [lia | assumption].
Qed.

Lemma rfind_spec (c : ascii) (s : string) (j : nat) :
  rfind c s = Some j -> j < String.length s /\ String.get j s = Some c.
Proof.
  revert j; induction s as [|a s IH]; intros j; simpl; [discriminate|].
  destruct (rfind c s) as [k|].
  - intros H; injection H as <-. destruct (IH k eq_refl). split; [lia | assumption].
  - destruct (Ascii.eqb_spec a c) as [-> | Hne]; [|discriminate].
    intros H; injection H as <-. split; [lia | reflexivity].
Qed.

Lemma substring_nothing (s : string) (n : nat) : substring n 0 s = "".
Proof.
  revert n; induction s as [|a s IH]; intros n; destruct n; simpl; try reflexivity.
  apply IH.
Qed.

End BraceTrimming.

(** X9: after its three substitutions [_fix_json_formatting] cuts the text
    down to what stands from the first opening brace to the last closing
    brace: the result then starts with the one and ends with the other and
    copies what lies between; when the last closing brace stands before the
    first opening one the result is empty, and when either brace is missing
    the text is left as the substitutions gave it. *)
Theorem fix_json_trims_to_braces
    (sub_trailing_commas sub_quoted_keys sub_quoted_values : string -> string)
    (json_str : string) :
  let s := sub_quoted_values (sub_quoted_keys (sub_trailing_commas json_str)) in
  let r := OllamaLLM._fix_json_formatting sub_trailing_commas sub_quoted_keys
             sub_quoted_values json_str in
  match OllamaLLM.find "{" s, OllamaLLM.rfind "}" s with
  | Some i, Some j =>
      if (i <=? j)%nat then
        String.length r = j + 1 - i /\
        String.get 0 r = Some "{"%char /\
        String.get (j - i) r = Some "}"%char /\
        (forall p, p < String.length r -> String.get p r = String.get (p + i) s)
      else r = ""
  | _, _ => r = s
  end.
Proof.
  cbv zeta. unfold OllamaLLM._fix_json_formatting.
  set (s := sub_quoted_values (sub_quoted_keys (sub_trailing_commas json_str))).
  destruct (OllamaLLM.find "{" s) as [i|] eqn:Hi; [|reflexivity].
  destruct (OllamaLLM.rfind "}" s) as [j|] eqn:Hj; [|reflexivity].
  destruct (find_spec _ _ _ Hi) as (Hilen & Higet).
  destruct (rfind_spec _ _ _ Hj) as (Hjlen & Hjget).
  destruct (Nat.leb_spec i j) as [Hle | Hlt].
  - assert (Hlen : String.length (substring i (j + 1 - i) s) = j + 1 - i)
      by (apply length_substring; lia).
    split; [exact Hlen|]. split; [|split].
    + rewrite substring_correct1 by lia. exact Higet.
    + rewrite substring_correct1 by lia. replace (j - i + i) with j by lia. exact Hjget.
    + intros p Hp. apply substring_correct1. lia.
  - replace (j + 1 - i) with 0 by lia. apply substring_nothing.
Qed.

(** ** pdf_extractor.py and pdf_to_text.py *)

Section ExtractorModes.

Import PdfExtractor.
Variable path_exists : string -> bool.
Variable fitz_open : string -> result document.

Lemma append_nil_r (s : string) : s +++ "" = s.
Proof. induction s as [|a s IH]; simpl; [reflexivity | now rewrite IH]. Qed.

Lemma append_assoc (s t u : string) : (s +++ t) +++ u = s +++ t +++ u.
Proof. induction s as [|a s IH]; simpl; [reflexivity | now rewrite IH]. Qed.

(** The two loops of lines 28-37 read the same pages: where one stops on a
    page, the other stops on it too. *)
Lemma read_join_agree (doc : document) (texts : list string) (text : string) :
  match read_pages doc texts with
  | Ok all_texts =>
      exists new, all_texts = texts ++ new /\ join_pages doc text = Ok (text +++ join_all new)
  | Raise e => join_pages doc text = Raise e
  end.
Proof.
  revert texts text; induction doc as [|page doc IH]; intros texts text; simpl.
  - exists []. now rewrite app_nil_r, append_nil_r.
  - destruct page as [page_text | e]; simpl; [|reflexivity].
    specialize (IH (texts ++ [page_text]) (text +++ page_text)).
    destruct (read_pages doc (texts ++ [page_text])) as [all_texts | e]; [|exact IH].
    destruct IH as (new & -> & Hjoin). exists (page_text :: new).
    split; [now rewrite <- app_assoc|]. rewrite Hjoin. simpl. now rewrite append_assoc.
Qed.

End ExtractorModes.

(** X10: [get_pdf_text] of pdf_extractor.py raises [FileNotFoundError]
    exactly when the file does not exist, and then it has opened nothing. *)
Theorem missing_file_raises_before_opening
    (path_exists : string -> bool) (fitz_open : string -> result PdfExtractor.document)
    (file_path : string) (page_chunks : bool) (log : list PdfExtractor.event) :
  (fst (PdfExtractor.get_pdf_text path_exists fitz_open file_path page_chunks log)
     = Raise FileNotFoundError
   <-> path_exists file_path = false) /\
  (fst (PdfExtractor.get_pdf_text path_exists fitz_open file_path page_chunks log)
     = Raise FileNotFoundError ->
   snd (PdfExtractor.get_pdf_text path_exists fitz_open file_path page_chunks log) = log).
Proof.
  split; [apply not_found_iff_missing|].
  intros H. apply not_found_iff_missing in H.
  now rewrite not_found_opens_nothing.
Qed.

(** X11: asked for the whole text, [get_pdf_text] returns the texts it
    returns page by page, joined in page order; when a page cannot be read
    both forms raise the same exception; and both leave the same trace of
    opening and closing. *)
Theorem whole_text_joins_page_texts
    (path_exists : string -> bool) (fitz_open : string -> result PdfExtractor.document)
    (file_path : string) (log : list PdfExtractor.event) :
  match fst (PdfExtractor.get_pdf_text path_exists fitz_open file_path true log) with
  | Ok pages =>
      exists texts,
        pages = PList (map PStr texts) /\
        fst (PdfExtractor.get_pdf_text path_exists fitz_open file_path false log)
        = Ok (PStr (join_all texts))
  | Raise e =>
      fst (PdfExtractor.get_pdf_text path_exists fitz_open file_path false log) = Raise e
  end /\
  snd (PdfExtractor.get_pdf_text path_exists fitz_open file_path true log)
  = snd (PdfExtractor.get_pdf_text path_exists fitz_open file_path false log).
Proof.
  unfold PdfExtractor.get_pdf_text, PdfExtractor.try_body.
  destruct (path_exists file_path); simpl; [|split; reflexivity].
  destruct (fitz_open file_path) as [doc | e]; simpl;
    [|destruct (is_Exception e); split; reflexivity].
  pose proof (read_join_agree doc [] "") as H.
  destruct (PdfExtractor.read_pages doc []) as [all_texts | e].
  - destruct H as (new & -> & ->). simpl. split; [|reflexivity]. now exists new.
  - rewrite H. destruct (is_Exception e); split; reflexivity.
Qed.

(** X12: when [get_pdf_text] of pdf_extractor.py returns a result, it has
    opened the document once and closed it. *)
Theorem returned_text_means_closed_document
    (path_exists : string -> bool) (fitz_open : string -> result PdfExtractor.document)
    (file_path : string) (page_chunks : bool) (log log' : list PdfExtractor.event)
    (v : pyval) :
  PdfExtractor.get_pdf_text path_exists fitz_open file_path page_chunks log = (Ok v, log') ->
  log' = log ++ [PdfExtractor.Opened file_path; PdfExtractor.Closed file_path].
Proof.
  unfold PdfExtractor.get_pdf_text, PdfExtractor.try_body.
  destruct (path_exists file_path); [|discriminate].
  destruct (fitz_open file_path) as [doc | e]; [|destruct (is_Exception e); discriminate].
  destruct page_chunks.
  - destruct (PdfExtractor.read_pages doc []) as [texts | e];
      [|destruct (is_Exception e); discriminate].
    intros H; injection H as _ <-. now rewrite <- app_assoc.
  - destruct (PdfExtractor.join_pages doc "") as [text | e];
      [|destruct (is_Exception e); discriminate].
    intros H; injection H as _ <-. now rewrite <- app_assoc.
Qed.

Lemma returned_text_means_closed_document_witness :
  [PdfExtractor.Opened "a.pdf"; PdfExtractor.Closed "a.pdf"]
  = [] ++ [PdfExtractor.Opened "a.pdf"; PdfExtractor.Closed "a.pdf"].
Proof.
  apply (returned_text_means_closed_document every_path
           (fun _ => Ok [Ok "Jane "; Ok "Doe"]) "a.pdf" false [] _ (PStr "Jane Doe")).
  reflexivity.
Defined.

(** X13: [get_pdf_text] of pdf_to_text.py closes the document it has opened
    on every path, a failing page included: its trace is either untouched,
    when the file is missing or cannot be opened, or one opening followed by
    one closing. *)
Theorem finally_closes_document
    (path_exists : string -> bool) (fitz_open : string -> result PdfExtractor.document)
    (file_path : string) (page_chunks : bool) (log : list PdfExtractor.event) :
  snd (PdfToText.get_pdf_text path_exists fitz_open file_path page_chunks log)
  = match path_exists file_path, fitz_open file_path with
    | true, Ok _ => log ++ [PdfExtractor.Opened file_path; PdfExtractor.Closed file_path]
    | _, _ => log
    end.
Proof.
  unfold PdfToText.get_pdf_text, PdfToText.try_body.
  destruct (path_exists file_path); [|reflexivity].
  destruct (fitz_open file_path) as [doc | e]; [|reflexivity].
  destruct page_chunks.
  - destruct (PdfExtractor.read_pages doc []); simpl; now rewrite <- app_assoc.
  - destruct (PdfExtractor.join_pages doc ""); simpl; now rewrite <- app_assoc.
Qed.

(** ** server.py: [get_llm] and [check_ollama_status] *)

Section CacheFacts.

Import LlmCache.

Lemma cache_get_app (cache more : llm_cache) (key : string) :
  cache_get (cache ++ more) key
  = match cache_get cache key with Some llm => Some llm | None => cache_get more key end.
Proof.
  induction cache as [|[k llm] cache IH]; simpl; [reflexivity|].
  destruct (String.eqb k key); [reflexivity | apply IH].
Qed.

Lemma cache_get_in (cache : llm_cache) (key : string) (llm : OllamaLLM) :
  cache_get cache key = Some llm -> In (key, llm) cache.
Proof.
  induction cache as [|[k l] cache IH]; simpl; [discriminate|].
  destruct (String.eqb_spec k key) as [-> | Hne].
  - intros H; injection H as ->. now left.
  - intros H. right. apply IH, H.
Qed.

Lemma append_same_suffix (s t u : string) : s +++ u = t +++ u -> s = t.
Proof.
  revert t; induction s as [|a s IH]; intros t H.
  - destruct t as [|b t]; [reflexivity|].
    apply (f_equal String.length) in H. simpl in H. rewrite length_append in H. lia.
  - destruct t as [|b t].
    + apply (f_equal String.length) in H. simpl in H. rewrite length_append in H. lia.
    + simpl in H. injection H as -> H. f_equal. apply IH, H.
Qed.

End CacheFacts.

(** X14: [get_llm] stores a new client under its key and leaves the rest of
    the cache alone; asked again for the same model and address, it returns
    the client of the first call and adds nothing; and it keeps every client
    filed under the key made of its own model and address. *)
Theorem get_llm_reuses_client (model base_url : string) (cache : LlmCache.llm_cache) :
  let '(llm, cache') := LlmCache.get_llm model base_url cache in
  LlmCache.cache_get cache' (LlmCache.cache_key model base_url) = Some llm /\
  LlmCache.get_llm model base_url cache' = (llm, cache') /\
  (forall key, key <> LlmCache.cache_key model base_url ->
               LlmCache.cache_get cache' key = LlmCache.cache_get cache key) /\
  (cache' = cache \/
   cache' = cache ++ [(LlmCache.cache_key model base_url,
                        {| LlmCache.model := model; LlmCache.base_url := base_url |})]) /\
  (LlmCache.well_keyed cache -> LlmCache.well_keyed cache').
Proof.
  unfold LlmCache.get_llm.
  destruct (LlmCache.cache_get cache (LlmCache.cache_key model base_url)) as [llm|] eqn:G.
  - rewrite G. repeat split; auto.
  - assert (Hnew : LlmCache.cache_get
                     (cache ++ [(LlmCache.cache_key model base_url,
                                 {| LlmCache.model := model; LlmCache.base_url := base_url |})])
                     (LlmCache.cache_key model base_url)
                   = Some {| LlmCache.model := model; LlmCache.base_url := base_url |}).
    { rewrite cache_get_app, G. simpl. now rewrite String.eqb_refl. }
    rewrite Hnew. repeat split; auto.
    + intros key Hkey. rewrite cache_get_app. simpl.
      destruct (String.eqb_spec (LlmCache.cache_key model base_url) key); [congruence|].
      now destruct (LlmCache.cache_get cache key).
    + intros Hw. apply Forall_app. split; [exact Hw|]. now repeat constructor.
Qed.

(** X15: when every cached client has the address asked for, as it is when
    all calls use the default address, [get_llm] returns a client with
    exactly the model and the address asked for. *)
Theorem get_llm_returns_requested_model (model base_url : string)
    (cache : LlmCache.llm_cache) :
  LlmCache.well_keyed cache ->
  Forall (fun entry => LlmCache.base_url (snd entry) = base_url) cache ->
  fst (LlmCache.get_llm model base_url cache)
  = {| LlmCache.model := model; LlmCache.base_url := base_url |}.
Proof.
  intros Hw Hb. unfold LlmCache.get_llm.
  destruct (LlmCache.cache_get cache (LlmCache.cache_key model base_url)) as [llm|] eqn:G;
    [|reflexivity].
  apply cache_get_in in G. simpl.
  unfold LlmCache.well_keyed in Hw. rewrite Forall_forall in Hw, Hb. specialize (Hw _ G). specialize (Hb _ G).
  simpl in Hw, Hb. destruct llm as [m b]. simpl in *. subst b.
  unfold LlmCache.cache_key in Hw.
  assert (Hm : model +++ ":" = m +++ ":").
  { apply (append_same_suffix _ _ base_url). now rewrite !append_assoc. }
  f_equal. symmetry. apply (append_same_suffix _ _ ":"). now symmetry.
Qed.

Lemma get_llm_returns_requested_model_witness :
  fst (LlmCache.get_llm "gemma3:1b" "http://localhost:11434"
         [("llama3.2:3b:http://localhost:11434",
           {| LlmCache.model := "llama3.2:3b";
              LlmCache.base_url := "http://localhost:11434" |})])
  = {| LlmCache.model := "gemma3:1b"; LlmCache.base_url := "http://localhost:11434" |}.
Proof.
  apply (get_llm_returns_requested_model "gemma3:1b" "http://localhost:11434").
  - repeat constructor.
  - repeat constructor.
Defined.

(** X16: the key of the cache does not tell a model from an address: after
    a client for the model [m:x] at address [b], asking for the model [m] at
    address [x:b] returns that first client, with the other model and the
    other address. *)
Theorem get_llm_confuses_colliding_keys (m x b : string) (cache : LlmCache.llm_cache) :
  LlmCache.cache_get cache (LlmCache.cache_key (m +++ ":" +++ x) b) = None ->
  fst (LlmCache.get_llm m (x +++ ":" +++ b)
         (snd (LlmCache.get_llm (m +++ ":" +++ x) b cache)))
  = {| LlmCache.model := m +++ ":" +++ x; LlmCache.base_url := b |}.
Proof.
  intros Hnone.
  assert (Hkey : LlmCache.cache_key m (x +++ ":" +++ b)
                 = LlmCache.cache_key (m +++ ":" +++ x) b).
  { unfold LlmCache.cache_key. rewrite !append_assoc. reflexivity. }
  unfold LlmCache.get_llm. rewrite Hnone. cbn [snd].
  rewrite Hkey, cache_get_app, Hnone. cbn [LlmCache.cache_get].
  now rewrite String.eqb_refl.
Qed.

Lemma get_llm_confuses_colliding_keys_witness :
  fst (LlmCache.get_llm "gemma3" ("1b" +++ ":" +++ "http://localhost:11434")
         (snd (LlmCache.get_llm ("gemma3" +++ ":" +++ "1b") "http://localhost:11434" [])))
  = {| LlmCache.model := "gemma3" +++ ":" +++ "1b";
       LlmCache.base_url := "http://localhost:11434" |}.
Proof.
  apply (get_llm_confuses_colliding_keys "gemma3" "1b" "http://localhost:11434" []).
  reflexivity.
Defined.


(** ** pdf_redactor.py: writing the two documents *)

Example replace_suffix_of_temp_name :
  RedactorOutput.replace "_redacted.pdf" "_highlighted.pdf" "/tmp/tmpk3_redacted.pdf"
  = "/tmp/tmpk3_highlighted.pdf".
Proof. reflexivity. Qed.

Example replace_does_not_overlap : RedactorOutput.replace "aa" "b" "aaaaa" = "bba".
Proof. reflexivity. Qed.

Section ReplaceFacts.

Import RedactorOutput.
Variables old new : string.
Hypothesis old_nonempty : 1 <= String.length old.
Hypothesis new_longer : String.length old < String.length new.

Lemma length_replace_from (s : string) (skip : nat) :
  String.length s <= String.length (replace_from old new skip s) + skip.
Proof.
  revert skip; induction s as [|c s IH]; intros skip; [simpl; lia|].
  cbn [replace_from]. change (String.length (String c s)) with (S (String.length s)).
  destruct skip as [|k].
  - destruct (prefix old (String c s)).
    + rewrite length_append. specialize (IH (String.length old - 1)). lia.
    + change (String.length (String c (replace_from old new 0 s)))
        with (S (String.length (replace_from old new 0 s))).
      specialize (IH 0). lia.
  - specialize (IH k). lia.
Qed.

Lemma prefix_append (s t : string) : prefix s (s +++ t) = true.
Proof.
  induction s as [|a s IH]; simpl; [now destruct t|].
  destruct (ascii_dec a a); [exact IH | contradiction].
Qed.

(** A text in which [old] occurs grows under the replacement. *)
Lemma replace_grows (before after : string) :
  String.length (before +++ old +++ after)
  < String.length (replace old new (before +++ old +++ after)).
Proof.
  unfold replace. induction before as [|c before IH].
  - change ("" +++ old +++ after) with (old +++ after).
    pose proof (prefix_append old after) as Hp.
    destruct (old +++ after) as [|a rest] eqn:E.
    { apply (f_equal String.length) in E. rewrite length_append in E. simpl in E. lia. }
    cbn [replace_from]. rewrite Hp, (length_append new).
    change (String.length (String a rest)) with (S (String.length rest)).
    pose proof (length_replace_from rest (String.length old - 1)). lia.
  - change (String c before +++ old +++ after) with (String c (before +++ old +++ after)).
    cbn [replace_from].
    change (String.length (String c (before +++ old +++ after)))
      with (S (String.length (before +++ old +++ after))).
    destruct (prefix old (String c (before +++ old +++ after))).
    + rewrite (length_append new).
      pose proof (length_replace_from (before +++ old +++ after) (String.length old - 1)).
      lia.
    + change (String.length (String c (replace_from old new 0 (before +++ old +++ after))))
        with (S (String.length (replace_from old new 0 (before +++ old +++ after)))).
      lia.
Qed.

End ReplaceFacts.

Section SavingFacts.

Import RedactorOutput.
Variable beside : string -> string -> string.
Variables save_redacted save_highlighted : string -> result unit.
Variable named_temporary_file : result string.

Local Abbreviation save_documents' :=
  (save_documents beside save_redacted save_highlighted named_temporary_file).

(** The three ways [save_documents] ends. *)
Lemma save_documents_cases (pdf_path : string) :
  let redacted_path := beside pdf_path "_redacted.pdf" in
  let highlighted_path := beside pdf_path "_highlighted.pdf" in
  (save_redacted redacted_path = Ok tt /\ save_highlighted highlighted_path = Ok tt /\
   save_documents' pdf_path
   = (Ok (redacted_path, highlighted_path),
      [Saved redacted_path; Saved highlighted_path; ClosedRedacted; ClosedHighlighted]))
  \/ (exists before temp,
        named_temporary_file = Ok temp /\
        (before = [] \/ before = [Saved redacted_path]) /\
        save_documents' pdf_path
        = (Ok (temp, replace "_redacted.pdf" "_highlighted.pdf" temp),
           before ++ [TempFileCreated temp; Saved temp;
                      Saved (replace "_redacted.pdf" "_highlighted.pdf" temp);
                      ClosedRedacted; ClosedHighlighted]))
  \/ (exists e log,
        save_documents' pdf_path = (Raise e, log) /\
        ~ In ClosedRedacted log /\ ~ In ClosedHighlighted log).
Proof.
  cbv zeta. unfold save_documents, save_beside, save_in_temp.
  repeat (flow_step; cbn [app fst snd]);
    repeat match goal with u : unit |- _ => destruct u end;
    first
      [ left; split; [reflexivity|]; split; reflexivity
      | right; right; eexists _, _; split; [reflexivity|]; simpl; intuition discriminate
      | right; left; eexists [], _; split; [reflexivity|]; split; [now left | reflexivity]
      | right; left; eexists [Saved _], _; split; [reflexivity|];
        split; [now right | reflexivity] ].
Qed.

(** X18: when the saving step of [apply_redactions] returns, the two paths
    it returns are the last two files saved, the redacted one before the
    highlighted one, and both documents are closed after that and not
    before. *)
Theorem returned_paths_are_last_saved (pdf_path redacted_path highlighted_path : string)
    (log : list event) :
  save_documents' pdf_path = (Ok (redacted_path, highlighted_path), log) ->
  exists before,
    log = before ++ [Saved redacted_path; Saved highlighted_path;
                     ClosedRedacted; ClosedHighlighted] /\
    ~ In ClosedRedacted before /\ ~ In ClosedHighlighted before.
Proof.
  intros H.
  destruct (save_documents_cases pdf_path)
    as [(_ & _ & E) | [(before & temp & _ & Hb & E) | (e & log' & E & _)]];
    cbv zeta in E; rewrite E in H; [| |discriminate].
  - injection H as <- <- <-. exists []. simpl. intuition discriminate.
  - injection H as <- <- <-. exists (before ++ [TempFileCreated temp]).
    rewrite <- app_assoc. split; [reflexivity|].
    destruct Hb as [-> | ->]; simpl; intuition discriminate.
Qed.

(** X19: when the saving step raises (the second attempt fails too, or the
    first fails with something that is no [Exception]), neither document has
    been closed. *)
Theorem failed_save_closes_nothing (pdf_path : string) (e : exn) (log : list event) :
  save_documents' pdf_path = (Raise e, log) ->
  ~ In ClosedRedacted log /\ ~ In ClosedHighlighted log.
Proof.
  intros H.
  destruct (save_documents_cases pdf_path)
    as [(_ & _ & E) | [(before & temp & _ & _ & E) | (e' & log' & E & Hc)]];
    cbv zeta in E; rewrite E in H; try discriminate.
  injection H as <- <-. exact Hc.
Qed.

(** X20: the highlighted copy never overwrites the redacted one: when the two
    sibling names differ and the temporary name ends in the suffix asked for,
    the two paths returned are different. *)
Theorem returned_paths_differ (pdf_path stem redacted_path highlighted_path : string)
    (log : list event) :
  beside pdf_path "_redacted.pdf" <> beside pdf_path "_highlighted.pdf" ->
  named_temporary_file = Ok (stem +++ "_redacted.pdf") ->
  save_documents' pdf_path = (Ok (redacted_path, highlighted_path), log) ->
  redacted_path <> highlighted_path.
Proof.
  intros Hsib Htmp H.
  destruct (save_documents_cases pdf_path)
    as [(_ & _ & E) | [(before & temp & Ht & _ & E) | (e & log' & E & _)]];
    cbv zeta in E; rewrite E in H; [| |discriminate].
  - injection H as <- <- <-. exact Hsib.
  - injection H as <- <- <-. rewrite Htmp in Ht. injection Ht as <-.
    intros Heq. apply (f_equal String.length) in Heq.
    pose proof (replace_grows "_redacted.pdf" "_highlighted.pdf"
                  ltac:(simpl; lia) ltac:(simpl; lia) stem "") as Hg.
    replace (stem +++ "_redacted.pdf" +++ "") with (stem +++ "_redacted.pdf") in Hg
      by now rewrite append_nil_r.
    lia.
Qed.

(** X21: when the redacted copy is written beside the original and the
    highlighted one is refused there, the copies returned are the temporary
    ones, and the redacted copy written first stays beside the original. *)
Theorem refused_highlight_leaves_sibling (pdf_path temp redacted_path highlighted_path : string)
    (e : exn) (log : list event) :
  save_redacted (beside pdf_path "_redacted.pdf") = Ok tt ->
  save_highlighted (beside pdf_path "_highlighted.pdf") = Raise e ->
  named_temporary_file = Ok temp ->
  save_documents' pdf_path = (Ok (redacted_path, highlighted_path), log) ->
  redacted_path = temp /\
  highlighted_path = replace "_redacted.pdf" "_highlighted.pdf" temp /\
  log = [Saved (beside pdf_path "_redacted.pdf"); TempFileCreated temp;
         Saved redacted_path; Saved highlighted_path; ClosedRedacted; ClosedHighlighted].
Proof.
  intros Hr Hh Ht. unfold save_documents, save_beside, save_in_temp.
  rewrite Hr, Hh, Ht. cbn [app fst snd].
  destruct (is_Exception e); [|cbn [app fst snd]; intros H; discriminate H].
  destruct (save_redacted temp) as [[]|]; [|cbn [app fst snd]; intros H; discriminate H].
  destruct (save_highlighted (replace "_redacted.pdf" "_highlighted.pdf" temp)) as [[]|];
    [|cbn [app fst snd]; intros H; discriminate H].
  cbn [app]. intros H; injection H as <- <- <-. repeat split.
Qed.

End SavingFacts.

Lemma returned_paths_are_last_saved_witness :
  exists before,
    [RedactorOutput.Saved "/in/doc_redacted.pdf"; RedactorOutput.Saved "/in/doc_highlighted.pdf";
     RedactorOutput.ClosedRedacted; RedactorOutput.ClosedHighlighted]
    = before ++ [RedactorOutput.Saved "/in/doc_redacted.pdf";
                 RedactorOutput.Saved "/in/doc_highlighted.pdf";
                 RedactorOutput.ClosedRedacted; RedactorOutput.ClosedHighlighted] /\
    ~ In RedactorOutput.ClosedRedacted before /\ ~ In RedactorOutput.ClosedHighlighted before.
Proof.
  apply (returned_paths_are_last_saved next_to_doc any_path any_path tmp_name "/in/doc.pdf").
  reflexivity.
Defined.

Lemma failed_save_closes_nothing_witness :
  ~ In RedactorOutput.ClosedRedacted [RedactorOutput.TempFileCreated "/tmp/tmpab12_redacted.pdf"] /\
  ~ In RedactorOutput.ClosedHighlighted
       [RedactorOutput.TempFileCreated "/tmp/tmpab12_redacted.pdf"].
Proof.
  apply (failed_save_closes_nothing next_to_doc (fun _ => Raise FitzError) any_path tmp_name
           "/in/doc.pdf" FitzError).
  reflexivity.
Defined.

Lemma returned_paths_differ_witness :
  "/tmp/tmpab12_redacted.pdf" <> "/tmp/tmpab12_highlighted.pdf".
Proof.
  apply (returned_paths_differ next_to_doc outside_in_only outside_in_only tmp_name
           "/in/doc.pdf" "/tmp/tmpab12"
           "/tmp/tmpab12_redacted.pdf" "/tmp/tmpab12_highlighted.pdf"
           [RedactorOutput.TempFileCreated "/tmp/tmpab12_redacted.pdf";
            RedactorOutput.Saved "/tmp/tmpab12_redacted.pdf";
            RedactorOutput.Saved "/tmp/tmpab12_highlighted.pdf";
            RedactorOutput.ClosedRedacted; RedactorOutput.ClosedHighlighted]).
  - discriminate.
  - reflexivity.
  - reflexivity.
Defined.

Lemma refused_highlight_leaves_sibling_witness :
  "/tmp/tmpab12_redacted.pdf" = "/tmp/tmpab12_redacted.pdf" /\
  "/tmp/tmpab12_highlighted.pdf"
  = RedactorOutput.replace "_redacted.pdf" "_highlighted.pdf" "/tmp/tmpab12_redacted.pdf" /\
  [RedactorOutput.Saved "/in/doc_redacted.pdf";
   RedactorOutput.TempFileCreated "/tmp/tmpab12_redacted.pdf";
   RedactorOutput.Saved "/tmp/tmpab12_redacted.pdf";
   RedactorOutput.Saved "/tmp/tmpab12_highlighted.pdf";
   RedactorOutput.ClosedRedacted; RedactorOutput.ClosedHighlighted]
  = [RedactorOutput.Saved (next_to_doc "/in/doc.pdf" "_redacted.pdf");
     RedactorOutput.TempFileCreated "/tmp/tmpab12_redacted.pdf";
     RedactorOutput.Saved "/tmp/tmpab12_redacted.pdf";
     RedactorOutput.Saved "/tmp/tmpab12_highlighted.pdf";
     RedactorOutput.ClosedRedacted; RedactorOutput.ClosedHighlighted].
Proof.
  apply (refused_highlight_leaves_sibling next_to_doc any_path outside_in_only tmp_name
           "/in/doc.pdf" "/tmp/tmpab12_redacted.pdf" _ _ FitzError).
  - reflexivity.
  - reflexivity.
  - reflexivity.
  - reflexivity.
Defined.

(** ** server.py: what every run of [redact_pdf] does *)

Lemma flatten_truthy (data : pydict) (out : list pyval) :
  DataProcessor.post_process_sensitive_data data = Ok out ->
  Forall (fun v => truthy v = true) out.
Proof.
  unfold DataProcessor.post_process_sensitive_data. intros H.
  destruct (dedup_loop_any _ [] [] out (fun x => eq_refl) H) as (added & -> & Hadded & _).
  simpl. eapply Forall_impl; [|exact Hadded]. now intros v [Hv _].
Qed.

Lemma detected_values_truthy (sensitive_data : pyval) (sensitive_values : list pyval) :
  (x <- Server.dict_items sensitive_data ;; DataProcessor.post_process_sensitive_data x)
  = Ok sensitive_values ->
  Forall (fun v => truthy v = true) sensitive_values.
Proof.
  destruct sensitive_data; simpl; try discriminate. apply flatten_truthy.
Qed.

Ltac run_unfold :=
  unfold Server.redact_pdf, Server.answer, Server.try_body, Server.prepare_input,
    Server.detect, Server.redact_and_report, Server.cleanup, Server.initial_state.

Ltac absurd_branch :=
  match goal with
  | H : ?a && negb true = true |- _ => rewrite andb_false_r in H; discriminate H
  | H : negb ?b = true, H' : negb ?b = false |- _ => rewrite H in H'; discriminate H'
  end.

Ltac in_cases H :=
  simpl in H;
  repeat match type of H with _ \/ _ => destruct H as [H | H] end;
  try contradiction; try discriminate H.

Section RunFacts.

Variable check_connection : bool.
Variable save_base64_to_temp : string -> result string.
Variable path_exists : string -> bool.
Variable get_pdf_text : string -> result string.
Variable get_sensitive_data : string -> result pyval.
Variable apply_redactions : string -> list pyval -> result Server.redaction_summary.
Variable open_pdf : string -> bool.
Variable file_to_base64 : string -> result string.
Variable os_unlink : string -> result unit.

(** X22: in every run, a temporary file made for base64 input and still
    there when the tool ends is handed to [os.unlink] by the [finally]: it
    is removed exactly when that call returns, and stays when the call
    raises, which the tool only logs. *)
Theorem created_temp_file_is_removed
    (pdf_path pdf_base64 model : string) (return_base64 auto_open : bool) (temp : string) :
  let st := snd (Server.redact_pdf check_connection save_base64_to_temp path_exists
        get_pdf_text get_sensitive_data apply_redactions open_pdf file_to_base64
        os_unlink pdf_path pdf_base64 model return_base64 auto_open) in
  In (Server.TempFileCreated temp) (Server.events st) ->
  temp <> "" -> path_exists temp = true ->
  (In (Server.TempFileDeleted temp) (Server.events st) <-> os_unlink temp = Ok tt).
Proof.
  cbv zeta. run_unfold. flow_crush.
  all: try absurd_branch.
  all: intros Hin Hne Hex; in_cases Hin; injection Hin as <-.
  all: repeat match goal with u : unit |- _ => destruct u end.
  all: try (split; [intros _; assumption | intros _; simpl; tauto]).
  all: try (split; [intros Hdel; in_cases Hdel | intros Hok; congruence]).
  all: rewrite Hex in *; apply String.eqb_neq in Hne; rewrite Hne in *; discriminate.
Qed.

(** What is removed was stored by [save_base64_to_temp] in this run. *)
Lemma deleted_file_was_stored
    (pdf_path pdf_base64 model : string) (return_base64 auto_open : bool) (path : string) :
  In (Server.TempFileDeleted path)
     (Server.events (snd (Server.redact_pdf check_connection save_base64_to_temp path_exists
        get_pdf_text get_sensitive_data apply_redactions open_pdf file_to_base64
        os_unlink pdf_path pdf_base64 model return_base64 auto_open))) ->
  pdf_base64 <> "" /\ save_base64_to_temp pdf_base64 = Ok path.
Proof.
  run_unfold. flow_crush.
  all: try absurd_branch.
  all: intros Hin; in_cases Hin; injection Hin as <-.
  all: split; [|first [assumption | reflexivity]].
  all: intros ->; simpl in *; discriminate.
Qed.

(** X23: the only file the tool removes is the temporary file it made from
    the base64 input; with a path as input nothing is removed. *)
Theorem only_own_temp_file_is_removed
    (pdf_path pdf_base64 model : string) (return_base64 auto_open : bool) (path : string) :
  let st := snd (Server.redact_pdf check_connection save_base64_to_temp path_exists
        get_pdf_text get_sensitive_data apply_redactions open_pdf file_to_base64
        os_unlink pdf_path pdf_base64 model return_base64 auto_open) in
  In (Server.TempFileDeleted path) (Server.events st) ->
  pdf_base64 <> "" /\ save_base64_to_temp pdf_base64 = Ok path.
Proof. cbv zeta. apply deleted_file_was_stored. Qed.

(** X24: when the tool answers with an exception it caught, no step of its
    progress is marked failed: the handler marks a step named "Redaction",
    and no step has that name. *)
Theorem caught_exception_marks_no_step
    (pdf_path pdf_base64 model : string) (return_base64 auto_open : bool)
    (e : exn) (st : Server.state) :
  Server.redact_pdf check_connection save_base64_to_temp path_exists
        get_pdf_text get_sensitive_data apply_redactions open_pdf file_to_base64
        os_unlink pdf_path pdf_base64 model return_base64 auto_open = (Ok (Server.CaughtError e), st) ->
  Forall (fun step => snd step <> "failed") (Server.steps st).
Proof.
  run_unfold. flow_crush.
  all: try absurd_branch.
  all: intros H; injection H as <- <-.
  all: repeat (apply Forall_cons; [simpl; discriminate|]); apply Forall_nil.
Qed.

(** X25: with base64 input the step "Input Processing" is neither completed
    nor failed in any run: the step "Base64 Decoding" is added after it, and
    only the last step can be marked. *)
Theorem base64_input_step_stays_open
    (pdf_path pdf_base64 model : string) (return_base64 auto_open : bool) (status : string) :
  let st := snd (Server.redact_pdf check_connection save_base64_to_temp path_exists
        get_pdf_text get_sensitive_data apply_redactions open_pdf file_to_base64
        os_unlink pdf_path pdf_base64 model return_base64 auto_open) in
  pdf_base64 <> "" ->
  In ("Input Processing", status) (Server.steps st) ->
  status = "in_progress".
Proof.
  cbv zeta. run_unfold. flow_crush.
  all: try absurd_branch.
  all: intros Hne Hin; in_cases Hin; try (injection Hin as <-; reflexivity).
  all: exfalso; apply Hne; now apply String.eqb_eq, negb_false_iff.
Qed.

(** X26: the redactor is only ever called with a list that is not empty and
    holds truthy values only. *)
Theorem redactor_gets_values
    (pdf_path pdf_base64 model : string) (return_base64 auto_open : bool)
    (path : string) (sensitive_values : list pyval) :
  let st := snd (Server.redact_pdf check_connection save_base64_to_temp path_exists
        get_pdf_text get_sensitive_data apply_redactions open_pdf file_to_base64
        os_unlink pdf_path pdf_base64 model return_base64 auto_open) in
  In (Server.RedactorCalled path sensitive_values) (Server.events st) ->
  sensitive_values <> [] /\ Forall (fun v => truthy v = true) sensitive_values.
Proof.
  cbv zeta. run_unfold. flow_crush.
  all: try absurd_branch.
  all: intros Hin; in_cases Hin; injection Hin as <- <-.
  all: split; [intros ->; discriminate | eapply detected_values_truthy; eassumption].
Qed.

(** X27: the entry "pdf_opened" of a success answer is the argument
    [auto_open] when paths are returned, and is absent when base64 is
    returned: it does not say whether a viewer could be started. *)
Theorem pdf_opened_echoes_auto_open
    (pdf_path pdf_base64 model : string) (return_base64 auto_open : bool)
    (total_redactions total_pages : Z) (masked_data : pydict)
    (model_used redacted highlighted : string) (pdf_opened : option bool) (st : Server.state) :
  Server.redact_pdf check_connection save_base64_to_temp path_exists
        get_pdf_text get_sensitive_data apply_redactions open_pdf file_to_base64
        os_unlink pdf_path pdf_base64 model return_base64 auto_open
  = (Ok (Server.Success total_redactions total_pages masked_data model_used
           redacted highlighted pdf_opened), st) ->
  pdf_opened = if return_base64 then None else Some auto_open.
Proof.
  run_unfold. flow_crush.
  all: try absurd_branch.
  all: intros H; injection H as <- <- <- <- <- <- <- <-; reflexivity.
Qed.


End RunFacts.

Lemma created_temp_file_is_removed_witness :
  In (Server.TempFileDeleted "/tmp/tmpq1.pdf")
     (Server.events
        (snd (Server.redact_pdf true temp_store every_path read_text (detector quiet_endpoint)
                redactor viewer encoder already_gone "" "JVBERi0=" "gemma3:1b" false true)))
  <-> already_gone "/tmp/tmpq1.pdf" = Ok tt.
Proof.
  apply (created_temp_file_is_removed true temp_store every_path read_text
           (detector quiet_endpoint) redactor viewer encoder already_gone
           "" "JVBERi0=" "gemma3:1b" false true "/tmp/tmpq1.pdf").
  - vm_compute. tauto.
  - discriminate.
  - vm_compute. reflexivity.
Defined.

Example temp_file_removed_or_left :
  Server.events
    (snd (Server.redact_pdf true temp_store every_path read_text (detector quiet_endpoint)
            redactor viewer encoder remover "" "JVBERi0=" "gemma3:1b" false true))
  = [Server.TempFileCreated "/tmp/tmpq1.pdf";
     Server.DetectorCalled "Jane Doe, jane@example.com";
     Server.TempFileDeleted "/tmp/tmpq1.pdf"] /\
  Server.events
    (snd (Server.redact_pdf true temp_store every_path read_text (detector quiet_endpoint)
            redactor viewer encoder already_gone "" "JVBERi0=" "gemma3:1b" false true))
  = [Server.TempFileCreated "/tmp/tmpq1.pdf";
     Server.DetectorCalled "Jane Doe, jane@example.com"].
Proof. split; vm_compute; reflexivity. Qed.

Lemma only_own_temp_file_is_removed_witness :
  "JVBERi0=" <> "" /\ temp_store "JVBERi0=" = Ok "/tmp/tmpq1.pdf".
Proof.
  apply (only_own_temp_file_is_removed true temp_store every_path read_text
           (detector quiet_endpoint) redactor viewer encoder remover
           "" "JVBERi0=" "gemma3:1b" false true "/tmp/tmpq1.pdf").
  vm_compute. tauto.
Defined.

Lemma caught_exception_marks_no_step_witness :
  Forall (fun step => snd step <> "failed")
    (Server.steps
       (snd (Server.redact_pdf true no_temp every_path read_text (detector quiet_endpoint)
               redactor viewer encoder remover "" "JVBERi0=" "gemma3:1b" false true))).
Proof.
  apply (caught_exception_marks_no_step true no_temp every_path read_text
           (detector quiet_endpoint) redactor viewer encoder remover
           "" "JVBERi0=" "gemma3:1b" false true ValueError).
  vm_compute. reflexivity.
Defined.

Lemma base64_input_step_stays_open_witness : "in_progress" = "in_progress".
Proof.
  apply (base64_input_step_stays_open true temp_store every_path read_text
           (detector quiet_endpoint) redactor viewer encoder remover
           "" "JVBERi0=" "gemma3:1b" false true "in_progress").
  - discriminate.
  - vm_compute. tauto.
Defined.

Lemma redactor_gets_values_witness :
  [PStr "Jane Doe"] <> [] /\ Forall (fun v => truthy v = true) [PStr "Jane Doe"].
Proof.
  apply (redactor_gets_values true no_temp every_path read_text
           (fun _ => Ok (PDict [("names", PList [PStr "Jane Doe"; PStr ""; PStr "Jane Doe"])]))
           redactor viewer encoder remover "doc.pdf" "" "gemma3:1b" false false "doc.pdf").
  vm_compute. tauto.
Defined.

Lemma pdf_opened_echoes_auto_open_witness : Some true = if false then None else Some true.
Proof.
  apply (pdf_opened_echoes_auto_open true no_temp every_path read_text
           (fun _ => Ok (PDict [("names", PList [PStr "Jane Doe"])]))
           redactor (fun _ => false) encoder remover "doc.pdf" "" "gemma3:1b" false true
           1%Z 1%Z [("names", PList [PStr "Ja****oe"])] "gemma3:1b"
           "doc_redacted.pdf" "doc_highlighted.pdf" (Some true)
           (snd (Server.redact_pdf true no_temp every_path read_text
                   (fun _ => Ok (PDict [("names", PList [PStr "Jane Doe"])]))
                   redactor (fun _ => false) encoder remover "doc.pdf" "" "gemma3:1b" false true))).
  vm_compute. reflexivity.
Defined.


(** ** server.py: [save_base64_to_temp] *)

Lemma payload_of_data_url (header data : string) :
  contains "," header = false ->
  Base64Input.payload (header +++ "," +++ data) = data.
Proof.
  intros H. unfold Base64Input.payload, split1.
  change (header +++ "," +++ data) with (header +++ String "," data).
  rewrite contains_append, H. simpl.
  now rewrite (partition_first_at "," header data H).
Qed.

Lemma payload_of_bare_data (data : string) :
  contains "," data = false -> Base64Input.payload data = data.
Proof. intros H. unfold Base64Input.payload. now rewrite H. Qed.

Section StoreFacts.

Variable named_temporary_file : string -> result string.
Variable b64decode : string -> result string.
Variable write : string -> string -> result unit.

Local Abbreviation store :=
  (Base64Input.save_base64_to_temp named_temporary_file b64decode write).

(** X29: a data URL and its bare payload are stored alike: what stands
    before the first comma is dropped, whatever it is. *)
Theorem data_url_header_is_dropped (header data suffix : string) :
  contains "," header = false -> contains "," data = false ->
  store (header +++ "," +++ data) suffix = store data suffix.
Proof.
  intros Hh Hd. unfold Base64Input.save_base64_to_temp.
  now rewrite (payload_of_data_url header data Hh), (payload_of_bare_data data Hd).
Qed.

(** X30: when the base64 text cannot be decoded, [save_base64_to_temp] has
    already made the temporary file and raises without removing it, and
    [redact_pdf], which never learns its name, does not remove it either. *)
Theorem failed_decode_leaves_temp_file
    (check_connection : bool) (path_exists : string -> bool)
    (get_pdf_text : string -> result string) (get_sensitive_data : string -> result pyval)
    (apply_redactions : string -> list pyval -> result Server.redaction_summary)
    (open_pdf : string -> bool) (file_to_base64 : string -> result string)
    (os_unlink : string -> result unit)
    (pdf_path pdf_base64 model : string) (return_base64 auto_open : bool)
    (tmp : string) (e : exn) :
  named_temporary_file ".pdf" = Ok tmp ->
  b64decode (Base64Input.payload pdf_base64) = Raise e ->
  store pdf_base64 ".pdf" = (Raise e, [Base64Input.Created tmp]) /\
  forall path,
    ~ In (Server.TempFileDeleted path)
         (Server.events
            (snd (Server.redact_pdf check_connection (fun data => fst (store data ".pdf"))
                    path_exists get_pdf_text get_sensitive_data apply_redactions open_pdf
                    file_to_base64 os_unlink pdf_path pdf_base64 model return_base64
                    auto_open))).
Proof.
  intros Ht Hd.
  assert (Hs : store pdf_base64 ".pdf" = (Raise e, [Base64Input.Created tmp])).
  { unfold Base64Input.save_base64_to_temp. now rewrite Ht, Hd. }
  split; [exact Hs|].
  intros path Hin. apply deleted_file_was_stored in Hin as [_ Hin].
  rewrite Hs in Hin. discriminate Hin.
Qed.

End StoreFacts.

Lemma data_url_header_is_dropped_witness :
  Base64Input.save_base64_to_temp tmp_with padded_only any_data
    "data:application/pdf;base64,JVBERi0=" ".pdf"
  = Base64Input.save_base64_to_temp tmp_with padded_only any_data "JVBERi0=" ".pdf".
Proof.
  apply (data_url_header_is_dropped tmp_with padded_only any_data
           "data:application/pdf;base64" "JVBERi0=" ".pdf").
  - reflexivity.
  - reflexivity.
Defined.

Lemma failed_decode_leaves_temp_file_witness :
  Base64Input.save_base64_to_temp tmp_with padded_only any_data "JVBERi0" ".pdf"
  = (Raise ValueError, [Base64Input.Created "/tmp/tmpq1.pdf"]) /\
  forall path,
    ~ In (Server.TempFileDeleted path)
         (Server.events
            (snd (Server.redact_pdf true
                    (fun data =>
                       fst (Base64Input.save_base64_to_temp tmp_with padded_only any_data
                              data ".pdf"))
                    every_path read_text (detector quiet_endpoint) redactor viewer encoder remover
                    "" "JVBERi0" "gemma3:1b" false true))).
Proof.
  apply (failed_decode_leaves_temp_file tmp_with padded_only any_data true every_path
           read_text (detector quiet_endpoint) redactor viewer encoder remover
           "" "JVBERi0" "gemma3:1b" false true "/tmp/tmpq1.pdf" ValueError).
  - reflexivity.
  - reflexivity.
Defined.
